(** * AriGit: a shallow embedding of [src/AriGit.mjs]

    The program is a small version-control tool working on three places of
    the file system: [.arigit/objects/] (content-addressed objects),
    [.arigit/HEAD] and [.arigit/index].  The embedding follows the source
    method by method ([init], [hashObject], [add], [updateStagingArea],
    [getCurrentHead], [commit], [log], [getCommitData], [getFileContent],
    [getParentFileContent], [showCommitDiff]) over a model of the runtime
    services the source calls: SHA-1, UTF-8, [JSON], [path.join] and
    [fs/promises].

    Conventions.
    - A byte is a [Byte.byte]; file contents are [list byte].
    - A JavaScript string is the list of its UTF-16 code units, each an [N].
    - A 32-bit word is an [N] with the wrap-around written out ([w32]). *)

From Stdlib Require Import NArith Strings.Byte String Ascii Lia.
From stdpp Require Import gmap list.

#[local] Set Warnings "-register-all".
#[local] Open Scope N_scope.

Abbreviation jsstring := (list N).

(** ASCII literals as JavaScript strings. *)
Definition js (s : string) : jsstring :=
  map (fun a => N_of_ascii a) (list_ascii_of_string s).

(** The same with every apostrophe standing for a double quote, to write
    JSON text in examples. *)
Definition jsq (s : string) : jsstring :=
  map (fun c => if c =? 39 then 34 else c) (js s).

Definition bytes_of (s : string) : list byte := list_byte_of_string s.

(** ** Bytes *)

Definition byte_of_N (n : N) : byte :=
  match Byte.of_N (n mod 256) with
  | Some b => b
  | None => x00
  end.

Definition N_of_bytes (bs : list byte) : list N := map Byte.to_N bs.
Definition bytes_of_N (ns : list N) : list byte := map byte_of_N ns.

(** ** SHA-1 (FIPS 180-4), as [crypto.createHash('sha1')] computes it *)

Module SHA1.

Definition w32 (x : N) : N := x mod 2 ^ 32.

Definition add32 (x y : N) : N := w32 (x + y).

Definition rotl (n x : N) : N :=
  w32 (N.lor (N.shiftl x n) (N.shiftr x (32 - n))).

Definition not32 (x : N) : N := N.lxor x 0xFFFFFFFF.

Definition f (t : nat) (b c d : N) : N :=
  if (t <? 20)%nat then N.lor (N.land b c) (N.land (not32 b) d)
  else if (t <? 40)%nat then N.lxor (N.lxor b c) d
  else if (t <? 60)%nat then
    N.lor (N.lor (N.land b c) (N.land b d)) (N.land c d)
  else N.lxor (N.lxor b c) d.

Definition k (t : nat) : N :=
  if (t <? 20)%nat then 0x5A827999
  else if (t <? 40)%nat then 0x6ED9EBA1
  else if (t <? 60)%nat then 0x8F1BBCDC
  else 0xCA62C1D6.

(** Big-endian bytes of a number, [n] of them. *)
Fixpoint be_bytes (n : nat) (x : N) : list N :=
  match n with
  | O => []
  | S m => (x / 256 ^ N.of_nat m) mod 256 :: be_bytes m x
  end.

Definition be_word (bs : list N) : N :=
  fold_left (fun acc b => acc * 256 + b) bs 0.

(** The message followed by 0x80, zeros up to 56 modulo 64, and the
    length in bits on 64 bits. *)
Definition pad (msg : list N) : list N :=
  let len := length msg in
  msg ++ 0x80 :: repeat 0 ((119 - len mod 64) mod 64)%nat
      ++ be_bytes 8 (8 * N.of_nat len).

Fixpoint chunks (fuel n : nat) (l : list N) : list (list N) :=
  match fuel, l with
  | _, [] => []
  | O, _ => []
  | S fuel', _ => take n l :: chunks fuel' n (drop n l)
  end.

(** The message schedule, kept newest first: the head is [W(t-1)]. *)
Fixpoint schedule (n : nat) (rev_w : list N) : list N :=
  match n with
  | O => rev_w
  | S m =>
      let w := rotl 1 (N.lxor (N.lxor (N.lxor (nth 2 rev_w 0) (nth 7 rev_w 0))
                                      (nth 13 rev_w 0)) (nth 15 rev_w 0)) in
      schedule m (w :: rev_w)
  end.

Definition words (block : list N) : list N :=
  map be_word (chunks 16 4 block).

Definition state : Type := N * N * N * N * N.

Definition round (st : state) (tw : nat * N) : state :=
  let '(a, b, c, d, e) := st in
  let '(t, w) := tw in
  let temp := add32 (add32 (add32 (add32 (rotl 5 a) (f t b c d)) e) (k t)) w in
  (temp, a, rotl 30 b, c, d).

Definition compress (h : state) (block : list N) : state :=
  let w := rev (schedule 64 (rev (words block))) in
  let '(a, b, c, d, e) := fold_left round (zip (seq 0 80) w) h in
  let '(h0, h1, h2, h3, h4) := h in
  (add32 h0 a, add32 h1 b, add32 h2 c, add32 h3 d, add32 h4 e).

Definition init : state :=
  (0x67452301, 0xEFCDAB89, 0x98BADCFE, 0x10325476, 0xC3D2E1F0).

Definition digest_words (msg : list N) : list N :=
  let p := pad msg in
  let '(h0, h1, h2, h3, h4) :=
    fold_left compress (chunks (length p) 64 p) init in
  [h0; h1; h2; h3; h4].

(** The 20 bytes of the digest. *)
Definition digest (msg : list byte) : list byte :=
  bytes_of_N (concat (map (be_bytes 4) (digest_words (N_of_bytes msg)))).

End SHA1.

(** ** Hexadecimal, lower case, as [digest('hex')] prints it *)

Definition hex_digit (d : N) : N :=
  if d <? 10 then 48 + d else 87 + d.

Definition hex_byte (b : byte) : jsstring :=
  let n := Byte.to_N b in [hex_digit (n / 16); hex_digit (n mod 16)].

Definition hex (bs : list byte) : jsstring := concat (map hex_byte bs).

(** [hashObject] hashes the UTF-8 bytes of a string; the codec follows. *)

(** ** UTF-8, as Node decodes file contents and encodes strings

    Decoding never fails: an ill-formed sequence becomes U+FFFD, one per
    maximal ill-formed prefix, and decoding resumes at the offending byte.
    Code points above U+FFFF become a surrogate pair.  Encoding turns an
    unpaired surrogate into the bytes of U+FFFD. *)

Definition in_range (lo hi x : N) : bool := (lo <=? x) && (x <=? hi).

Definition is_cont (b : N) : bool := in_range 0x80 0xBF b.
Definition is_high (u : N) : bool := in_range 0xD800 0xDBFF u.
Definition is_low (u : N) : bool := in_range 0xDC00 0xDFFF u.

(** Bounds of the second byte after the lead byte [b1]. *)
Definition second_lo (b1 : N) : N :=
  if b1 =? 0xE0 then 0xA0 else if b1 =? 0xF0 then 0x90 else 0x80.
Definition second_hi (b1 : N) : N :=
  if b1 =? 0xED then 0x9F else if b1 =? 0xF4 then 0x8F else 0xBF.

Definition cp2 (b1 b2 : N) : N := (b1 - 0xC0) * 64 + (b2 - 0x80).
Definition cp3 (b1 b2 b3 : N) : N :=
  (b1 - 0xE0) * 4096 + (b2 - 0x80) * 64 + (b3 - 0x80).
Definition cp4 (b1 b2 b3 b4 : N) : N :=
  (b1 - 0xF0) * 262144 + (b2 - 0x80) * 4096 + (b3 - 0x80) * 64 + (b4 - 0x80).

Definition surrogates (cp : N) : jsstring :=
  [0xD800 + (cp - 0x10000) / 1024; 0xDC00 + (cp - 0x10000) mod 1024].

Fixpoint utf8_decode_N (bs : list N) : jsstring :=
  match bs with
  | [] => []
  | b1 :: t1 =>
      if b1 <? 0x80 then b1 :: utf8_decode_N t1
      else if in_range 0xC2 0xDF b1 then
        match t1 with
        | [] => [0xFFFD]
        | b2 :: t2 =>
            if is_cont b2 then cp2 b1 b2 :: utf8_decode_N t2
            else 0xFFFD :: utf8_decode_N t1
        end
      else if in_range 0xE0 0xEF b1 then
        match t1 with
        | [] => [0xFFFD]
        | b2 :: t2 =>
            if in_range (second_lo b1) (second_hi b1) b2 then
              match t2 with
              | [] => [0xFFFD]
              | b3 :: t3 =>
                  if is_cont b3 then cp3 b1 b2 b3 :: utf8_decode_N t3
                  else 0xFFFD :: utf8_decode_N t2
              end
            else 0xFFFD :: utf8_decode_N t1
        end
      else if in_range 0xF0 0xF4 b1 then
        match t1 with
        | [] => [0xFFFD]
        | b2 :: t2 =>
            if in_range (second_lo b1) (second_hi b1) b2 then
              match t2 with
              | [] => [0xFFFD]
              | b3 :: t3 =>
                  if is_cont b3 then
                    match t3 with
                    | [] => [0xFFFD]
                    | b4 :: t4 =>
                        if is_cont b4 then
                          surrogates (cp4 b1 b2 b3 b4) ++ utf8_decode_N t4
                        else 0xFFFD :: utf8_decode_N t3
                    end
                  else 0xFFFD :: utf8_decode_N t2
              end
            else 0xFFFD :: utf8_decode_N t1
        end
      else 0xFFFD :: utf8_decode_N t1
  end.

Definition utf8_decode (bs : list byte) : jsstring :=
  utf8_decode_N (N_of_bytes bs).

Definition enc2 (u : N) : list N := [0xC0 + u / 64; 0x80 + u mod 64].
Definition enc3 (u : N) : list N :=
  [0xE0 + u / 4096; 0x80 + (u / 64) mod 64; 0x80 + u mod 64].
Definition enc4 (cp : N) : list N :=
  [0xF0 + cp / 262144; 0x80 + (cp / 4096) mod 64;
   0x80 + (cp / 64) mod 64; 0x80 + cp mod 64].

Definition pair_cp (hi lo : N) : N :=
  0x10000 + (hi - 0xD800) * 1024 + (lo - 0xDC00).

Fixpoint utf8_encode_N (s : jsstring) : list N :=
  match s with
  | [] => []
  | u :: t =>
      if u <? 0x80 then u :: utf8_encode_N t
      else if u <? 0x800 then enc2 u ++ utf8_encode_N t
      else if is_high u then
        match t with
        | [] => enc3 0xFFFD
        | v :: t' =>
            if is_low v then enc4 (pair_cp u v) ++ utf8_encode_N t'
            else enc3 0xFFFD ++ utf8_encode_N t
        end
      else if is_low u then enc3 0xFFFD ++ utf8_encode_N t
      else enc3 u ++ utf8_encode_N t
  end.

Definition utf8_encode (s : jsstring) : list byte :=
  bytes_of_N (utf8_encode_N s).

(** Well-formed UTF-8 (RFC 3629, section 4), independently of the decoder. *)
Fixpoint utf8_valid_N (bs : list N) : bool :=
  match bs with
  | [] => true
  | b1 :: t1 =>
      if b1 <? 0x80 then utf8_valid_N t1
      else if in_range 0xC2 0xDF b1 then
        match t1 with
        | b2 :: t2 => is_cont b2 && utf8_valid_N t2
        | _ => false
        end
      else if in_range 0xE0 0xEF b1 then
        match t1 with
        | b2 :: b3 :: t3 =>
            in_range (second_lo b1) (second_hi b1) b2 && is_cont b3
            && utf8_valid_N t3
        | _ => false
        end
      else if in_range 0xF0 0xF4 b1 then
        match t1 with
        | b2 :: b3 :: b4 :: t4 =>
            in_range (second_lo b1) (second_hi b1) b2 && is_cont b3
            && is_cont b4 && utf8_valid_N t4
        | _ => false
        end
      else false
  end.

Definition utf8_valid (bs : list byte) : bool := utf8_valid_N (N_of_bytes bs).

(** ** [hashObject] (source lines 29-31) *)

Definition hashObject (content : jsstring) : jsstring :=
  hex (SHA1.digest (utf8_encode content)).

(** ** JSON values, [JSON.stringify] and [JSON.parse]

    A number keeps the text of its literal.  No operation of the program
    computes with numbers and the files the program writes contain none;
    they only reach it through a file edited by hand.  On such a value the
    model prints the literal as it was read, compares two numbers by their
    literals and takes a number for zero by the digits of its mantissa,
    where JavaScript goes through the double the literal denotes.  The
    model is therefore exact on the values that hold no number
    ([number_free]); the theorems that depend on how a value read from a
    file is printed, compared or tested assume that it holds none.
    An object is the list of its properties in enumeration order. *)

Inductive json : Type :=
| JNull
| JBool (b : bool)
| JNum (lit : jsstring)
| JStr (s : jsstring)
| JArr (elems : list json)
| JObj (members : list (jsstring * json)).

(** No number occurs in the value. *)
Fixpoint number_free (v : json) : bool :=
  match v with
  | JNum _ => false
  | JArr elems => forallb number_free elems
  | JObj members => forallb (fun kx => number_free (snd kx)) members
  | _ => true
  end.

(** *** Strings: [QuoteJSONString] *)

Definition hex4 (u : N) : jsstring :=
  [hex_digit ((u / 4096) mod 16); hex_digit ((u / 256) mod 16);
   hex_digit ((u / 16) mod 16); hex_digit (u mod 16)].

(** [\uXXXX] *)
Definition unicode_escape (u : N) : jsstring := 92 :: 117 :: hex4 u.

(** The escape of a single code unit that is not part of a surrogate pair. *)
Definition quote_unit (u : N) : jsstring :=
  if u =? 8 then [92; 98]
  else if u =? 9 then [92; 116]
  else if u =? 10 then [92; 110]
  else if u =? 12 then [92; 102]
  else if u =? 13 then [92; 114]
  else if u =? 34 then [92; 34]
  else if u =? 92 then [92; 92]
  else if u <? 32 then unicode_escape u
  else if is_high u || is_low u then unicode_escape u
  else [u].

Fixpoint quote_body (s : jsstring) : jsstring :=
  match s with
  | [] => []
  | u :: t =>
      if is_high u then
        match t with
        | v :: t' =>
            if is_low v then u :: v :: quote_body t'
            else quote_unit u ++ quote_body t
        | [] => quote_unit u
        end
      else quote_unit u ++ quote_body t
  end.

Definition quote (s : jsstring) : jsstring := 34 :: quote_body s ++ [34].

(** *** [JSON.stringify] *)

Fixpoint join_comma (parts : list jsstring) : jsstring :=
  match parts with
  | [] => []
  | [p] => p
  | p :: ps => p ++ 44 :: join_comma ps
  end.

Fixpoint JSON_stringify (v : json) : jsstring :=
  match v with
  | JNull => js "null"
  | JBool true => js "true"
  | JBool false => js "false"
  | JNum lit => lit
  | JStr s => quote s
  | JArr elems => 91 :: join_comma (map JSON_stringify elems) ++ [93]
  | JObj members =>
      123 :: join_comma
               (map (fun '(k, x) => quote k ++ 58 :: JSON_stringify x) members)
          ++ [125]
  end.

(** *** Property order of an object

    An array index (a canonical decimal below 2^32 - 1) comes before every
    other key, in numeric order; other keys keep their order of creation.
    Setting an existing key keeps its place. *)

Definition is_digit (c : N) : bool := in_range 48 57 c.

Definition jsstring_eqb (a b : jsstring) : bool := bool_decide (a = b).

Definition decimal (ds : jsstring) : N :=
  fold_left (fun acc d => acc * 10 + (d - 48)) ds 0.

(** The decimal digits of a number below 10^[fuel]. *)
Fixpoint decimal_digits (fuel : nat) (n : N) : jsstring :=
  match fuel with
  | O => []
  | S f => if n <? 10 then [48 + n] else decimal_digits f (n / 10) ++ [48 + n mod 10]
  end.

Definition to_decimal (n : N) : jsstring := decimal_digits 10 n.

(** [k] is the canonical decimal of a number below 2^32 - 1. *)
Definition array_index (k : jsstring) : option N :=
  let n := decimal k in
  if jsstring_eqb (to_decimal n) k && (n <? 4294967295) then Some n else None.

Fixpoint has_key (k : jsstring) (ms : list (jsstring * json)) : bool :=
  match ms with
  | [] => false
  | (k', _) :: r => jsstring_eqb k k' || has_key k r
  end.

Fixpoint obj_replace (k : jsstring) (v : json) (ms : list (jsstring * json))
  : list (jsstring * json) :=
  match ms with
  | [] => []
  | (k', v') :: r =>
      if jsstring_eqb k k' then (k', v) :: r else (k', v') :: obj_replace k v r
  end.

Fixpoint obj_insert_index (n : N) (k : jsstring) (v : json)
    (ms : list (jsstring * json)) : list (jsstring * json) :=
  match ms with
  | [] => [(k, v)]
  | (k', v') :: r =>
      match array_index k' with
      | Some n' =>
          if n' <? n then (k', v') :: obj_insert_index n k v r
          else (k, v) :: ms
      | None => (k, v) :: ms
      end
  end.

Definition obj_set (ms : list (jsstring * json)) (k : jsstring) (v : json)
  : list (jsstring * json) :=
  if has_key k ms then obj_replace k v ms
  else match array_index k with
       | Some n => obj_insert_index n k v ms
       | None => ms ++ [(k, v)]
       end.

(** *** The lexer: one code unit at a time *)

Inductive token : Type :=
| TLBrace | TRBrace | TLBrack | TRBrack | TComma | TColon
| TNull | TTrue | TFalse
| TNum (lit : jsstring)
| TStr (s : jsstring).

(** Where the lexer is inside a number. *)
Inductive nstate : Type :=
| NMinus | NZero | NInt | NDot | NFrac | NE | NESign | NExp.

Inductive lmode : Type :=
| LStart
| LLit (t : token) (expect : jsstring)
| LNum (st : nstate) (acc : jsstring)
| LStr (acc : jsstring)
| LEsc (acc : jsstring)
| LUni (acc : jsstring) (n : nat) (v : N).

Definition is_ws (c : N) : bool :=
  (c =? 32) || (c =? 9) || (c =? 10) || (c =? 13).

Definition is_e (c : N) : bool := (c =? 101) || (c =? 69).

Definition num_step (st : nstate) (c : N) : option nstate :=
  match st with
  | NMinus => if c =? 48 then Some NZero
              else if in_range 49 57 c then Some NInt else None
  | NZero => if c =? 46 then Some NDot else if is_e c then Some NE else None
  | NInt => if is_digit c then Some NInt
            else if c =? 46 then Some NDot
            else if is_e c then Some NE else None
  | NDot => if is_digit c then Some NFrac else None
  | NFrac => if is_digit c then Some NFrac
             else if is_e c then Some NE else None
  | NE => if (c =? 43) || (c =? 45) then Some NESign
          else if is_digit c then Some NExp else None
  | NESign => if is_digit c then Some NExp else None
  | NExp => if is_digit c then Some NExp else None
  end.

Definition num_accepting (st : nstate) : bool :=
  match st with
  | NZero | NInt | NFrac | NExp => true
  | _ => false
  end.

Definition hex_value (c : N) : option N :=
  if in_range 48 57 c then Some (c - 48)
  else if in_range 97 102 c then Some (c - 87)
  else if in_range 65 70 c then Some (c - 55)
  else None.

(** The first character of a number. *)
Definition num_start (c : N) : option nstate :=
  if c =? 45 then Some NMinus
  else if c =? 48 then Some NZero
  else if in_range 49 57 c then Some NInt
  else None.

Definition lex_start (c : N) : option (lmode * list token) :=
  match num_start c with
  | Some st => Some (LNum st [c], [])
  | None =>
      if is_ws c then Some (LStart, [])
      else if c =? 123 then Some (LStart, [TLBrace])
      else if c =? 125 then Some (LStart, [TRBrace])
      else if c =? 91 then Some (LStart, [TLBrack])
      else if c =? 93 then Some (LStart, [TRBrack])
      else if c =? 44 then Some (LStart, [TComma])
      else if c =? 58 then Some (LStart, [TColon])
      else if c =? 110 then Some (LLit TNull (js "ull"), [])
      else if c =? 116 then Some (LLit TTrue (js "rue"), [])
      else if c =? 102 then Some (LLit TFalse (js "alse"), [])
      else if c =? 34 then Some (LStr [], [])
      else None
  end.

Definition lex_escape (acc : jsstring) (c : N) : option lmode :=
  if c =? 34 then Some (LStr (acc ++ [34]))
  else if c =? 92 then Some (LStr (acc ++ [92]))
  else if c =? 47 then Some (LStr (acc ++ [47]))
  else if c =? 98 then Some (LStr (acc ++ [8]))
  else if c =? 102 then Some (LStr (acc ++ [12]))
  else if c =? 110 then Some (LStr (acc ++ [10]))
  else if c =? 114 then Some (LStr (acc ++ [13]))
  else if c =? 116 then Some (LStr (acc ++ [9]))
  else if c =? 117 then Some (LUni acc 4 0)
  else None.

Definition lex_step (m : lmode) (c : N) : option (lmode * list token) :=
  match m with
  | LStart => lex_start c
  | LLit t [] => None
  | LLit t (e :: es) =>
      if c =? e then
        match es with
        | [] => Some (LStart, [t])
        | _ => Some (LLit t es, [])
        end
      else None
  | LNum st acc =>
      match num_step st c with
      | Some st' => Some (LNum st' (acc ++ [c]), [])
      | None =>
          if num_accepting st then
            match lex_start c with
            | Some (m', out) => Some (m', TNum acc :: out)
            | None => None
            end
          else None
      end
  | LStr acc =>
      if c =? 34 then Some (LStart, [TStr acc])
      else if c =? 92 then Some (LEsc acc, [])
      else if c <? 32 then None
      else Some (LStr (acc ++ [c]), [])
  | LEsc acc =>
      match lex_escape acc c with
      | Some m' => Some (m', [])
      | None => None
      end
  | LUni acc n v =>
      match hex_value c with
      | Some h =>
          match n with
          | 1%nat => Some (LStr (acc ++ [v * 16 + h]), [])
          | _ => Some (LUni acc (pred n) (v * 16 + h), [])
          end
      | None => None
      end
  end.

Definition lex_end (m : lmode) : option (list token) :=
  match m with
  | LStart => Some []
  | LNum st acc => if num_accepting st then Some [TNum acc] else None
  | _ => None
  end.

Fixpoint lex_run (m : lmode) (s : jsstring) : option (list token) :=
  match s with
  | [] => lex_end m
  | c :: r =>
      match lex_step m c with
      | Some (m', out) =>
          match lex_run m' r with
          | Some ts => Some (out ++ ts)
          | None => None
          end
      | None => None
      end
  end.

Definition lex (s : jsstring) : option (list token) := lex_run LStart s.

(** *** The parser: a pushdown automaton over the tokens *)

(** An enclosing array with the elements read so far, or an enclosing
    object with its members so far and the key waiting for its value. *)
Inductive frame : Type :=
| FArr (elems : list json)
| FObj (members : list (jsstring * json)) (key : jsstring).

Inductive pstate : Type :=
| PValue (stk : list frame)
| PArrFirst (stk : list frame)
| PArrNext (elems : list json) (stk : list frame)
| PObjFirst (stk : list frame)
| PObjKey (members : list (jsstring * json)) (stk : list frame)
| PObjColon (members : list (jsstring * json)) (key : jsstring) (stk : list frame)
| PObjNext (members : list (jsstring * json)) (stk : list frame)
| PDone (v : json).

(** A finished value goes to the innermost enclosing frame. *)
Definition deliver (v : json) (stk : list frame) : pstate :=
  match stk with
  | [] => PDone v
  | FArr elems :: stk' => PArrNext (elems ++ [v]) stk'
  | FObj members key :: stk' => PObjNext (obj_set members key v) stk'
  end.

Definition parse_value (stk : list frame) (t : token) : option pstate :=
  match t with
  | TNull => Some (deliver JNull stk)
  | TTrue => Some (deliver (JBool true) stk)
  | TFalse => Some (deliver (JBool false) stk)
  | TNum lit => Some (deliver (JNum lit) stk)
  | TStr s => Some (deliver (JStr s) stk)
  | TLBrack => Some (PArrFirst stk)
  | TLBrace => Some (PObjFirst stk)
  | _ => None
  end.

Definition parse_step (st : pstate) (t : token) : option pstate :=
  match st with
  | PValue stk => parse_value stk t
  | PArrFirst stk =>
      match t with
      | TRBrack => Some (deliver (JArr []) stk)
      | _ => parse_value (FArr [] :: stk) t
      end
  | PArrNext elems stk =>
      match t with
      | TComma => Some (PValue (FArr elems :: stk))
      | TRBrack => Some (deliver (JArr elems) stk)
      | _ => None
      end
  | PObjFirst stk =>
      match t with
      | TRBrace => Some (deliver (JObj []) stk)
      | TStr k => Some (PObjColon [] k stk)
      | _ => None
      end
  | PObjKey members stk =>
      match t with
      | TStr k => Some (PObjColon members k stk)
      | _ => None
      end
  | PObjColon members k stk =>
      match t with
      | TColon => Some (PValue (FObj members k :: stk))
      | _ => None
      end
  | PObjNext members stk =>
      match t with
      | TComma => Some (PObjKey members stk)
      | TRBrace => Some (deliver (JObj members) stk)
      | _ => None
      end
  | PDone _ => None
  end.

Fixpoint parse_run (st : pstate) (ts : list token) : option json :=
  match ts with
  | [] => match st with PDone v => Some v | _ => None end
  | t :: r =>
      match parse_step st t with
      | Some st' => parse_run st' r
      | None => None
      end
  end.

(** [JSON.parse]: [None] is the [SyntaxError] it throws. *)
Definition JSON_parse (s : jsstring) : option json :=
  match lex s with
  | Some ts => parse_run (PValue []) ts
  | None => None
  end.

(** ** [path.join] (POSIX) *)

(** The segments between slashes. *)
Fixpoint split_on (sep : N) (s : jsstring) : list jsstring :=
  match s with
  | [] => [[]]
  | c :: r =>
      if c =? sep then [] :: split_on sep r
      else match split_on sep r with
           | seg :: segs => (c :: seg) :: segs
           | [] => [[c]]
           end
  end.

Definition dot : jsstring := [46].
Definition dotdot : jsstring := [46; 46].

(** One segment in [normalizeString]: empty and [.] are dropped, [..]
    removes the segment before it unless there is none or it is [..]
    itself, in which case a relative path keeps the [..]. *)
Definition norm_segment (allow_above : bool) (res : list jsstring)
    (seg : jsstring) : list jsstring :=
  if jsstring_eqb seg [] || jsstring_eqb seg dot then res
  else if jsstring_eqb seg dotdot then
    match last res with
    | Some l =>
        if jsstring_eqb l dotdot then
          (if allow_above then res ++ [dotdot] else res)
        else removelast res
    | None => if allow_above then [dotdot] else res
    end
  else res ++ [seg].

Fixpoint join_slash (segs : list jsstring) : jsstring :=
  match segs with
  | [] => []
  | [s] => s
  | s :: r => s ++ 47 :: join_slash r
  end.

Definition is_absolute (p : jsstring) : bool :=
  match p with
  | c :: _ => c =? 47
  | [] => false
  end.

Definition has_trailing (p : jsstring) : bool :=
  match last p with
  | Some c => c =? 47
  | None => false
  end.

Definition normalize_body (p : jsstring) : jsstring :=
  join_slash
    (fold_left (norm_segment (negb (is_absolute p))) (split_on 47 p) []).

Definition path_normalize (p : jsstring) : jsstring :=
  match p with
  | [] => dot
  | _ =>
      match normalize_body p with
      | [] =>
          if is_absolute p then [47]
          else if has_trailing p then [46; 47] else dot
      | body =>
          (if is_absolute p then [47] else []) ++ body
            ++ (if has_trailing p then [47] else [])
      end
  end.

(** [path.join(a, b)] on two strings: the non-empty ones joined by a slash,
    then normalized. *)
Definition joined (a b : jsstring) : jsstring :=
  match a, b with
  | [], _ => b
  | _, [] => a
  | _, _ => a ++ 47 :: b
  end.

Definition path_join (a b : jsstring) : jsstring := path_normalize (joined a b).

(** ** The file system

    A tree of directories and regular files below the working directory,
    keyed by the list of the UTF-8 encoded names from the working directory
    down.  A path is resolved name by name: every name but the last must
    lead through a directory.  Ancestors of the working directory and the
    root exist and are directories; symbolic links and permissions are not
    modelled. *)

Inductive node : Type :=
| File (content : list byte)
| Dir.

Abbreviation fskey := (list (list N)).
Abbreviation filesystem := (gmap (list (list N)) node).

(** The first name of an absolute key. *)
Definition root_name : list N := [47].

Definition is_above (k : fskey) : bool :=
  forallb (fun c => jsstring_eqb c dotdot || jsstring_eqb c root_name) k.

Definition is_dir (fs : filesystem) (k : fskey) : bool :=
  is_above k ||
  match fs !! k with
  | Some Dir => true
  | _ => false
  end.

Definition key_parent (k : fskey) : fskey :=
  match last k with
  | None => [dotdot]
  | Some l =>
      if jsstring_eqb l root_name then k
      else if jsstring_eqb l dotdot then k ++ [dotdot]
      else removelast k
  end.

Inductive errno : Type := ENOENT | ENOTDIR | EISDIR | EEXIST.

Inductive error : Type :=
| IOError (code : errno)
| SyntaxError
| TypeError.

Inductive result (A : Type) : Type :=
| Ok (a : A)
| Throw (e : error).
Arguments Ok {A} a.
Arguments Throw {A} e.

(** The error of going through [k], which is not a directory. *)
Definition not_a_dir (fs : filesystem) (k : fskey) : error :=
  match fs !! k with
  | Some (File _) => IOError ENOTDIR
  | _ => IOError ENOENT
  end.

Fixpoint walk (fs : filesystem) (cur : fskey) (segs : list jsstring)
  : result fskey :=
  match segs with
  | [] => Ok cur
  | seg :: rest =>
      if is_dir fs cur then
        if jsstring_eqb seg [] || jsstring_eqb seg dot then walk fs cur rest
        else if jsstring_eqb seg dotdot then walk fs (key_parent cur) rest
        else walk fs (cur ++ [utf8_encode_N seg]) rest
      else Throw (not_a_dir fs cur)
  end.

Definition has_nul (p : jsstring) : bool := existsb (N.eqb 0) p.

(** A path that holds a NUL is refused with a [TypeError] before any
    system call. *)
Definition resolve (fs : filesystem) (p : jsstring) : result fskey :=
  if has_nul p then Throw TypeError
  else match p with
       | [] => Throw (IOError ENOENT)
       | _ =>
           walk fs (if is_absolute p then [root_name] else []) (split_on 47 p)
       end.

(** [fs.readFile(p, {encoding: 'utf-8'})].  The file system has neither
    permissions nor limits on names, and no device fails: a regular file
    that is there is read. *)
Definition fs_read (fs : filesystem) (p : jsstring) : result jsstring :=
  match resolve fs p with
  | Throw e => Throw e
  | Ok k =>
      match fs !! k with
      | Some (File c) => Ok (utf8_decode c)
      | Some Dir => Throw (IOError EISDIR)
      | None => Throw (IOError (if is_above k then EISDIR else ENOENT))
      end
  end.

(** [fs.writeFile(p, data)], and with [{flag: 'wx'}] when [excl] is set. *)
Definition fs_write (excl : bool) (fs : filesystem) (p data : jsstring)
  : result filesystem :=
  match resolve fs p with
  | Throw e => Throw e
  | Ok k =>
      if is_above k then Throw (IOError (if excl then EEXIST else EISDIR))
      else match fs !! k with
           | Some Dir => Throw (IOError (if excl then EEXIST else EISDIR))
           | Some (File _) =>
               if excl then Throw (IOError EEXIST)
               else Ok (<[k := File (utf8_encode data)]> fs)
           | None => Ok (<[k := File (utf8_encode data)]> fs)
           end
  end.

(** [fs.mkdir(p, {recursive: true})]: every missing directory on the way
    is created; a regular file on the way is an error. *)
Fixpoint mkdir_walk (fs : filesystem) (cur : fskey) (segs : list jsstring)
  : result filesystem :=
  match segs with
  | [] => Ok fs
  | seg :: rest =>
      if jsstring_eqb seg [] || jsstring_eqb seg dot then mkdir_walk fs cur rest
      else if jsstring_eqb seg dotdot then mkdir_walk fs (key_parent cur) rest
      else
        let k := cur ++ [utf8_encode_N seg] in
        match fs !! k with
        | Some (File _) =>
            Throw (IOError (match rest with [] => EEXIST | _ => ENOTDIR end))
        | Some Dir => mkdir_walk fs k rest
        | None => mkdir_walk (<[k := Dir]> fs) k rest
        end
  end.

Definition fs_mkdir_recursive (fs : filesystem) (p : jsstring)
  : result filesystem :=
  if has_nul p then Throw TypeError
  else match p with
       | [] => Throw (IOError ENOENT)
       | _ =>
           mkdir_walk fs (if is_absolute p then [root_name] else [])
             (split_on 47 p)
       end.

(** ** [Date.prototype.toISOString]

    The clock is read as milliseconds since the epoch.  [new Date()] always
    holds a valid time value, so the year is between 1970 and 275760. *)

Fixpoint digits (width : nat) (n : N) : jsstring :=
  match width with
  | O => []
  | S w => digits w (n / 10) ++ [48 + n mod 10]
  end.

(** Year, month and day of a day count from 1970-01-01. *)
Definition civil_from_days (days : N) : N * N * N :=
  let z := days + 719468 in
  let era := z / 146097 in
  let doe := z mod 146097 in
  let yoe := (doe - doe / 1460 + doe / 36524 - doe / 146096) / 365 in
  let doy := doe - (365 * yoe + yoe / 4 - yoe / 100) in
  let mp := (5 * doy + 2) / 153 in
  let d := doy - (153 * mp + 2) / 5 + 1 in
  let m := if mp <? 10 then mp + 3 else mp - 9 in
  let y := yoe + era * 400 + (if m <=? 2 then 1 else 0) in
  (y, m, d).

Definition toISOString (ms : N) : jsstring :=
  let '(y, m, d) := civil_from_days (ms / 86400000) in
  let t := ms mod 86400000 in
  (if y <=? 9999 then digits 4 y else 43 :: digits 6 y)
    ++ 45 :: digits 2 m ++ 45 :: digits 2 d
    ++ 84 :: digits 2 (t / 3600000) ++ 58 :: digits 2 ((t / 60000) mod 60)
    ++ 58 :: digits 2 ((t / 1000) mod 60) ++ 46 :: digits 3 (t mod 1000)
    ++ [90].

(** ** JavaScript values and the operators the source applies to them *)

(** A value read out of parsed JSON, or [undefined] ([None]). *)
Abbreviation jsval := (option json).

Fixpoint obj_lookup (k : jsstring) (ms : list (jsstring * json)) : jsval :=
  match ms with
  | [] => None
  | (k', v) :: r => if jsstring_eqb k k' then Some v else obj_lookup k r
  end.

(** [v.k] for the property names the source reads ([files], [parent],
    [path], [hash], [timeStamp], [username], [message]): none of them is a
    property of a string, an array, a number, a boolean or of
    [Object.prototype]. *)
Definition get_prop (v : jsval) (k : jsstring) : result jsval :=
  match v with
  | None | Some JNull => Throw TypeError
  | Some (JObj ms) => Ok (obj_lookup k ms)
  | Some _ => Ok None
  end.

(** A number literal denotes zero when its mantissa has no other digit. *)
Fixpoint mantissa_zero (lit : jsstring) : bool :=
  match lit with
  | [] => true
  | c :: r =>
      if is_e c then true
      else if in_range 49 57 c then false
      else mantissa_zero r
  end.

(** [ToBoolean]; exact on every value but a number whose literal
    underflows to zero. *)
Definition truthy (v : jsval) : bool :=
  match v with
  | None | Some JNull => false
  | Some (JBool b) => b
  | Some (JNum lit) => negb (mantissa_zero lit)
  | Some (JStr s) => negb (jsstring_eqb s [])
  | Some (JArr _) | Some (JObj _) => true
  end.

(** Not a number: on such a value [truthy] is exact, and so is [strict_eq]
    with it on either side. *)
Definition not_number (v : jsval) : bool :=
  match v with
  | Some (JNum _) => false
  | _ => true
  end.

(** [a === b] between values of two different [JSON.parse] results: two
    objects or arrays are never the same object; two numbers are compared
    by their literals (exact when one side is not a number). *)
Definition strict_eq (a b : jsval) : bool :=
  match a, b with
  | None, None => true
  | Some JNull, Some JNull => true
  | Some (JBool x), Some (JBool y) => eqb x y
  | Some (JNum x), Some (JNum y) => jsstring_eqb x y
  | Some (JStr x), Some (JStr y) => jsstring_eqb x y
  | _, _ => false
  end.

(** The code points of a string, each as a string: what [for ... of]
    visits on a string. *)
Fixpoint code_points (s : jsstring) : list jsstring :=
  match s with
  | [] => []
  | u :: t =>
      if is_high u then
        match t with
        | v :: t' =>
            if is_low v then [u; v] :: code_points t' else [u] :: code_points t
        | [] => [[u]]
        end
      else [u] :: code_points t
  end.

(** What [for (const x of v)] iterates over. *)
Definition iterate (v : jsval) : result (list json) :=
  match v with
  | Some (JArr elems) => Ok elems
  | Some (JStr s) => Ok (map JStr (code_points s))
  | _ => Throw TypeError
  end.

(** ** Line diff

    Modelled from the spec: [diffLines] is imported from the [diff] package
    and is not part of the source.  Section 4.4 of the spec describes it: the
    longest common subsequence of the lines of the two texts, then maximal
    runs of matched lines ([Unchanged]) and of unmatched lines ([Removed]
    for the old text, [Added] for the new one, removed before added in the
    same gap). *)

Inductive kind : Type := Unchanged | Added | Removed.

Record segment : Type := Segment { seg_kind : kind; seg_text : jsstring }.

(** The lines of a text, each with its line terminator. *)
Fixpoint lines (t : jsstring) : list jsstring :=
  match t with
  | [] => []
  | c :: r =>
      if c =? 10 then [c] :: lines r
      else match lines r with
           | l :: ls => (c :: l) :: ls
           | [] => [[c]]
           end
  end.

Inductive edit : Type :=
| Keep (l : jsstring)
| Del (l : jsstring)
| Ins (l : jsstring).

Fixpoint kept (es : list edit) : nat :=
  match es with
  | [] => O
  | Keep _ :: r => S (kept r)
  | _ :: r => kept r
  end.

(** An edit script whose kept lines are a longest common subsequence. *)
Fixpoint diff_script (xs : list jsstring) : list jsstring -> list edit :=
  match xs with
  | [] => map Ins
  | x :: xs' =>
      fix inner (ys : list jsstring) : list edit :=
        match ys with
        | [] => map Del xs
        | y :: ys' =>
            if jsstring_eqb x y then Keep x :: diff_script xs' ys'
            else
              let a := Del x :: diff_script xs' ys in
              let b := Ins y :: inner ys' in
              if (kept b <=? kept a)%nat then a else b
        end
  end.

(** The pending removed and added text of a gap, as segments. *)
Definition flush_gap (del ins : jsstring) : list segment :=
  (match del with [] => [] | _ => [Segment Removed del] end)
    ++ (match ins with [] => [] | _ => [Segment Added ins] end).

Definition flush_keep (keep : jsstring) : list segment :=
  match keep with [] => [] | _ => [Segment Unchanged keep] end.

(** Maximal runs: [keep] is the matched run being read, [del] and [ins]
    the gap being read; one of the two is empty. *)
Fixpoint runs (es : list edit) (keep del ins : jsstring) : list segment :=
  match es with
  | [] => flush_keep keep ++ flush_gap del ins
  | Keep l :: r => flush_gap del ins ++ runs r (keep ++ l) [] []
  | Del l :: r => flush_keep keep ++ runs r [] (del ++ l) ins
  | Ins l :: r => flush_keep keep ++ runs r [] del (ins ++ l)
  end.

Definition diffLines (oldText newText : jsstring) : list segment :=
  runs (diff_script (lines oldText) (lines newText)) [] [] [].

(** ** The console *)

(** One constructor for each [console.log] and [console.error] of the
    source; colours are dropped, interpolated values are kept as values. *)
Inductive event : Type :=
| EvInitialized
| EvAlreadyInitialized
| EvAdded (file : jsstring)
| EvErrorAdding (e : error)
| EvErrorStaging (e : error)
| EvErrorReadingHead (e : error)
| EvCommitted (hash : jsstring)
| EvErrorCommitting (e : error)
| EvLogSeparator
| EvLogEntry (hash : jsstring) (date user message : jsval)
| EvErrorLog (e : error)
| EvFailedReadCommit (e : error)
| EvCommitNotFound
| EvChanges
| EvFile (path : jsval)
| EvContent (content : jsstring)
| EvDiffHeader
| EvDiffAdded (text : jsstring)
| EvDiffRemoved (text : jsstring)
| EvDiffSame (text : jsstring)
| EvNewFile
| EvFirstCommit
| EvErrorShow (e : error).

(** ** The state and the monad of the methods

    A method runs on the file system and the console; it returns or throws.
    An [await] is a call: one invocation runs alone. *)

Record world : Type := World { w_fs : filesystem; w_out : list event }.

Definition M (A : Type) : Type := world -> result A * world.

Definition ret {A} (a : A) : M A := fun w => (Ok a, w).

Definition bind {A B} (m : M A) (f : A -> M B) : M B :=
  fun w =>
    match m w with
    | (Ok a, w') => f a w'
    | (Throw e, w') => (Throw e, w')
    end.

Definition lift {A} (r : result A) : M A := fun w => (r, w).

Definition try_catch {A} (body : M A) (handler : error -> M A) : M A :=
  fun w =>
    match body w with
    | (Ok a, w') => (Ok a, w')
    | (Throw e, w') => handler e w'
    end.

Definition print (e : event) : M unit :=
  fun w => (Ok tt, World (w_fs w) (w_out w ++ [e])).

Definition readFile (p : jsstring) : M jsstring :=
  fun w => (fs_read (w_fs w) p, w).

Definition writeFile (excl : bool) (p data : jsstring) : M unit :=
  fun w =>
    match fs_write excl (w_fs w) p data with
    | Ok fs' => (Ok tt, World fs' (w_out w))
    | Throw e => (Throw e, w)
    end.

Definition mkdir_recursive (p : jsstring) : M unit :=
  fun w =>
    match fs_mkdir_recursive (w_fs w) p with
    | Ok fs' => (Ok tt, World fs' (w_out w))
    | Throw e => (Throw e, w)
    end.

Notation "'let*' x ':=' m 'in' k" := (bind m (fun x => k))
  (at level 10, x name, m at level 100, k at level 200, only parsing).
Notation "m '>>' k" := (bind m (fun _ => k))
  (at level 180, right associativity, only parsing).

(** [JSON.parse(s)]; [JSON.parse(null)] parses the text [null]. *)
Definition parse (s : option jsstring) : M json :=
  match s with
  | None => ret JNull
  | Some t =>
      match JSON_parse t with
      | Some v => ret v
      | None => lift (Throw SyntaxError)
      end
  end.

(** [path.join(a, b)] where [b] is any value: a [TypeError] unless a string. *)
Definition join_value (a : jsstring) (b : jsval) : M jsstring :=
  match b with
  | Some (JStr s) => ret (path_join a s)
  | _ => lift (Throw TypeError)
  end.

(** ** The class [AriGit] (source lines 10-170), with [repoPath = '.'] *)

Module AriGit.

(** The constructor (lines 11-16). *)
Definition repoPath : jsstring := path_join (js ".") (js ".arigit").
Definition objectsPath : jsstring := path_join repoPath (js "objects").
Definition headPath : jsstring := path_join repoPath (js "HEAD").
Definition indexPath : jsstring := path_join repoPath (js "index").

(** Lines 18-27. *)
Definition init : M unit :=
  try_catch
    (mkdir_recursive objectsPath >>
     writeFile true headPath [] >>
     writeFile true indexPath (JSON_stringify (JArr [])) >>
     print EvInitialized)
    (fun _ => print EvAlreadyInitialized).

(** [index.push(x)]: a [TypeError] unless [index] is an array. *)
Definition push (index : json) (x : json) : result json :=
  match index with
  | JArr elems => Ok (JArr (elems ++ [x]))
  | _ => Throw TypeError
  end.

Definition entry (filePath fileHash : jsstring) : json :=
  JObj [(js "path", JStr filePath); (js "hash", JStr fileHash)].

(** Lines 47-55. *)
Definition updateStagingArea (filePath fileHash : jsstring) : M unit :=
  try_catch
    (let* text := readFile indexPath in
     let* index := parse (Some text) in
     let* index' := lift (push index (entry filePath fileHash)) in
     writeFile false indexPath (JSON_stringify index'))
    (fun e => print (EvErrorStaging e)).

(** Lines 33-45. *)
Definition add (fileToBeAdded : jsstring) : M unit :=
  try_catch
    (let* fileData := readFile fileToBeAdded in
     let fileHash := hashObject fileData in
     let newFileHashedObjectPath := path_join objectsPath fileHash in
     writeFile false newFileHashedObjectPath fileData >>
     updateStagingArea fileToBeAdded fileHash >>
     print (EvAdded fileToBeAdded))
    (fun e => print (EvErrorAdding e)).

(** Lines 57-64: the content of HEAD, or [null] ([None]). *)
Definition getCurrentHead : M (option jsstring) :=
  try_catch
    (let* head := readFile headPath in ret (Some head))
    (fun e => print (EvErrorReadingHead e) >> ret None).

(** [x || null] on a string or [null]. *)
Definition or_null (x : option jsstring) : json :=
  match x with
  | Some (c :: s) => JStr (c :: s)
  | _ => JNull
  end.

(** [process.env.USERNAME || 'anonymous'] *)
Definition username_or_anonymous (x : option jsstring) : jsstring :=
  match x with
  | Some (c :: s) => c :: s
  | _ => js "anonymous"
  end.

Definition commitRecord (timeStamp message : jsstring) (index parent : json)
    (username : jsstring) : json :=
  JObj [(js "timeStamp", JStr timeStamp);
        (js "message", JStr message);
        (js "files", index);
        (js "parent", parent);
        (js "username", JStr username)].

(** Lines 66-90.  [now] is the clock at line 72 and [USERNAME] the
    environment variable at line 76. *)
Definition commit (now : N) (USERNAME : option jsstring) (message : jsstring)
  : M unit :=
  try_catch
    (let* text := readFile indexPath in
     let* index := parse (Some text) in
     let* parentCommit := getCurrentHead in
     let commitData :=
       commitRecord (toISOString now) message index (or_null parentCommit)
         (username_or_anonymous USERNAME) in
     let commitHash := hashObject (JSON_stringify commitData) in
     let commitPath := path_join objectsPath commitHash in
     writeFile false commitPath (JSON_stringify commitData) >>
     writeFile false headPath commitHash >>
     writeFile false indexPath (JSON_stringify (JArr [])) >>
     print (EvCommitted commitHash))
    (fun e => print (EvErrorCommitting e)).

(** One turn of the loop of [log] (lines 96-99): the next value of
    [currentCommitHash]. *)
Definition log_body (currentCommitHash : jsval) : M jsval :=
  let* p := join_value objectsPath currentCommitHash in
  let* text := readFile p in
  let* commitData := parse (Some text) in
  print EvLogSeparator >>
  let* date := lift (get_prop (Some commitData) (js "timeStamp")) in
  let* user := lift (get_prop (Some commitData) (js "username")) in
  let* message := lift (get_prop (Some commitData) (js "message")) in
  print (EvLogEntry (match currentCommitHash with
                     | Some (JStr h) => h
                     | _ => []
                     end) date user message) >>
  lift (get_prop (Some commitData) (js "parent")).

(** The loop of lines 95-100; [None] when [fuel] turns do not end it. *)
Fixpoint log_loop (fuel : nat) (currentCommitHash : jsval) (w : world)
  : option (result unit * world) :=
  if truthy currentCommitHash then
    match fuel with
    | O => None
    | S fuel' =>
        match log_body currentCommitHash w with
        | (Ok next, w') => log_loop fuel' next w'
        | (Throw e, w') => Some (Throw e, w')
        end
    end
  else Some (Ok tt, w).

(** A string or [null], as a value. *)
Definition string_or_null (x : option jsstring) : json :=
  match x with
  | Some s => JStr s
  | None => JNull
  end.

(** Lines 92-104. *)
Definition log (fuel : nat) (w : world) : option (result unit * world) :=
  match getCurrentHead w with
  | (Ok head, w1) =>
      match log_loop fuel (Some (string_or_null head)) w1 with
      | Some (Ok _, w2) => Some (Ok tt, w2)
      | Some (Throw e, w2) => Some (print (EvErrorLog e) w2)
      | None => None
      end
  | (Throw e, w1) => Some (print (EvErrorLog e) w1)
  end.

(** Lines 106-114: the text of the object, or [null] ([None]). *)
Definition getCommitData (commitHash : jsval) : M (option jsstring) :=
  try_catch
    (let* commitPath := join_value objectsPath commitHash in
     let* text := readFile commitPath in
     ret (Some text))
    (fun e => print (EvFailedReadCommit e) >> ret None).

(** Lines 116-119. *)
Definition getFileContent (fileHash : jsval) : M jsstring :=
  let* objectPath := join_value objectsPath fileHash in
  readFile objectPath.

(** [files.find(file => file.path === filePath)] on the elements. *)
Fixpoint find_file (files : list json) (filePath : jsval) : result jsval :=
  match files with
  | [] => Ok None
  | file :: rest =>
      match get_prop (Some file) (js "path") with
      | Throw e => Throw e
      | Ok p =>
          if strict_eq p filePath then Ok (Some file)
          else find_file rest filePath
      end
  end.

(** Lines 121-126: the content, or [undefined] ([None]). *)
Definition getParentFileContent (parentCommitData : json) (filePath : jsval)
  : M (option jsstring) :=
  let* files := lift (get_prop (Some parentCommitData) (js "files")) in
  let* parentFile :=
    match files with
    | Some (JArr elems) => lift (find_file elems filePath)
    | _ => lift (Throw TypeError)
    end in
  if truthy parentFile then
    let* fileHash := lift (get_prop parentFile (js "hash")) in
    let* content := getFileContent fileHash in
    ret (Some content)
  else ret None.

(** Lines 149-157. *)
Definition render (part : segment) : event :=
  match seg_kind part with
  | Added => EvDiffAdded (seg_text part)
  | Removed => EvDiffRemoved (seg_text part)
  | Unchanged => EvDiffSame (seg_text part)
  end.

Fixpoint for_each {A} (body : A -> M unit) (l : list A) : M unit :=
  match l with
  | [] => ret tt
  | x :: r => body x >> for_each body r
  end.

(** The body of the loop of lines 137-164. *)
Definition show_file (commitData : json) (file : json) : M unit :=
  let* filePath := lift (get_prop (Some file) (js "path")) in
  print (EvFile filePath) >>
  let* fileHash := lift (get_prop (Some file) (js "hash")) in
  let* fileContent := getFileContent fileHash in
  print (EvContent fileContent) >>
  let* parent := lift (get_prop (Some commitData) (js "parent")) in
  if truthy parent then
    let* text := getCommitData parent in
    let* parentCommitData := parse text in
    let* parentFileContent := getParentFileContent parentCommitData filePath in
    match parentFileContent with
    | Some old =>
        print EvDiffHeader >>
        for_each (fun part => print (render part)) (diffLines old fileContent)
    | None => print EvNewFile
    end
  else print EvFirstCommit.

(** Lines 128-168. *)
Definition showCommitDiff (commitHash : jsstring) : M unit :=
  try_catch
    (let* text := getCommitData (Some (JStr commitHash)) in
     let* commitData := parse text in
     if negb (truthy (Some commitData)) then print EvCommitNotFound
     else
       print EvChanges >>
       let* files := lift (get_prop (Some commitData) (js "files")) in
       let* elems := lift (iterate files) in
       for_each (show_file commitData) elems)
    (fun e => print (EvErrorShow e)).

End AriGit.

(** ** The commands (source lines 172-195)

    The arguments and the environment reach the program as bytes, which
    Node decodes as UTF-8. *)

Module CLI.

Definition init : M unit := AriGit.init.

Definition add (file : list byte) : M unit := AriGit.add (utf8_decode file).

Definition commit (now : N) (USERNAME : option (list byte))
    (message : list byte) : M unit :=
  AriGit.commit now (option_map utf8_decode USERNAME) (utf8_decode message).

Definition log (fuel : nat) (w : world) : option (result unit * world) :=
  AriGit.log fuel w.

Definition show (commitHash : list byte) : M unit :=
  AriGit.showCommitDiff (utf8_decode commitHash).

End CLI.

(** The repository as a reader sees it. *)

Definition object_key (digest : jsstring) : fskey :=
  [js ".arigit"; js "objects"; digest].
Definition head_key : fskey := [js ".arigit"; js "HEAD"].
Definition index_key : fskey := [js ".arigit"; js "index"].

Definition empty_world : world := World ∅ [].

(** The three writes of [commit] and its last message (lines 82-86). *)
Definition commit_writes (commitData : json) : M unit :=
  let commitHash := hashObject (JSON_stringify commitData) in
  writeFile false (path_join AriGit.objectsPath commitHash)
    (JSON_stringify commitData) >>
  writeFile false AriGit.headPath commitHash >>
  writeFile false AriGit.indexPath (JSON_stringify (JArr [])) >>
  print (EvCommitted commitHash).

(** The file system after the three writes of a commit. *)
Definition committed (fs : filesystem) (commitData : json) : filesystem :=
  let commitHash := hashObject (JSON_stringify commitData) in
  <[index_key := File (bytes_of "[]")]>
    (<[head_key := File (utf8_encode commitHash)]>
       (<[object_key commitHash := File (utf8_encode (JSON_stringify commitData))]>
          fs)).

(** ** Digests *)

Definition hex_char (c : N) : bool := in_range 48 57 c || in_range 97 102 c.

(** The form of a digest: forty lower-case hexadecimal characters. *)
Definition is_digest (h : jsstring) : Prop :=
  length h = 40%nat /\ Forall (fun c => hex_char c = true) h.

(** The layout of an initialized repository: the two directories, the two
    files, and nothing but files in [objects/]. *)
Record repository (fs : filesystem) : Prop := Repository {
  repo_dir : fs !! [js ".arigit"] = Some Dir;
  repo_objects : fs !! [js ".arigit"; js "objects"] = Some Dir;
  repo_flat : forall d, fs !! object_key d <> Some Dir;
  repo_head : exists c, fs !! head_key = Some (File c);
  repo_index : exists c, fs !! index_key = Some (File c)
}.

(** ** Scenarios *)

(** The state after a sequence of invocations. *)
Definition after (ms : list (M unit)) (w : world) : world :=
  fold_left (fun w m => snd (m w)) ms w.

(** A working directory with one file. *)
Definition scenario_files : filesystem :=
  {[ [js "a.txt"] := File (bytes_of "hello") ]}.

Definition scenario_init : world := after [CLI.init] (World scenario_files []).

Definition scenario_staged : world :=
  after [CLI.add (bytes_of "a.txt")] (World (w_fs scenario_init) []).

(** The repository after [init], with HEAD removed. *)
Definition scenario_no_head : world :=
  World (delete head_key (w_fs scenario_init)) [].

(** The repository after [init], with a directory in the place of HEAD. *)
Definition scenario_head_dir : world :=
  World (<[head_key := Dir]> (w_fs scenario_init)) [].

(** The repository after [init], with an index that holds an object. *)
Definition scenario_object_index : world :=
  World (<[index_key := File (bytes_of "{}")]> (w_fs scenario_init)) [].

(** The user's editor: the file at [k] now holds [content]. *)
Definition user_edit (k : fskey) (content : list byte) : M unit :=
  fun w => (Ok tt, World (<[k := File content]> (w_fs w)) (w_out w)).

(** One file staged twice, with different contents, before the first
    commit; staged again before the second. *)
Definition scenario_duplicates : world :=
  after [CLI.init;
         user_edit [js "a.txt"] (bytes_of "one"); CLI.add (bytes_of "a.txt");
         user_edit [js "a.txt"] (bytes_of "two"); CLI.add (bytes_of "a.txt");
         CLI.commit 1700000000000 None (bytes_of "first");
         user_edit [js "a.txt"] (bytes_of "three"); CLI.add (bytes_of "a.txt");
         CLI.commit 1700000001000 None (bytes_of "second")]
    (World ∅ []).

(** The last element of [files] whose [path] is [filePath]: what the
    specification says [showCommit] compares with. *)
Definition has_path (filePath : jsval) (file : json) : bool :=
  match get_prop (Some file) (js "path") with
  | Ok p => strict_eq p filePath
  | Throw _ => false
  end.

Fixpoint find_last_file (files : list json) (filePath : jsval) : jsval :=
  match files with
  | [] => None
  | file :: rest =>
      match find_last_file rest filePath with
      | Some x => Some x
      | None => if has_path filePath file then Some file else None
      end
  end.

(** An initialized repository and a file that is not UTF-8. *)
Definition scenario_binary : world :=
  after [CLI.init; user_edit [js "b.bin"] [xff]] (World ∅ []).

(** The repository after [init], with an index that is not JSON. *)
Definition scenario_broken_index : world :=
  World (<[index_key := File (bytes_of "[{")]> (w_fs scenario_init)) [].

(** ** Well-formed strings and values

    A JavaScript string is well formed when its surrogates come in pairs;
    this is what UTF-8 can carry.  A value is well formed when its strings
    are made of 16-bit units, its numbers are number literals and the
    properties of its objects are in enumeration order. *)

Inductive wf_utf16 : jsstring -> Prop :=
| wf_nil : wf_utf16 []
| wf_unit u s :
    u < 0x10000 -> is_high u = false -> is_low u = false ->
    wf_utf16 s -> wf_utf16 (u :: s)
| wf_pair hi lo s :
    is_high hi = true -> is_low lo = true -> wf_utf16 s ->
    wf_utf16 (hi :: lo :: s).

Definition units16 (s : jsstring) : bool := forallb (fun u => u <? 0x10000) s.

Fixpoint num_run (st : nstate) (s : jsstring) : option nstate :=
  match s with
  | [] => Some st
  | c :: r =>
      match num_step st c with
      | Some st' => num_run st' r
      | None => None
      end
  end.

Definition is_number (lit : jsstring) : bool :=
  match lit with
  | [] => false
  | c :: r =>
      match num_start c with
      | Some st =>
          match num_run st r with
          | Some st' => num_accepting st'
          | None => false
          end
      | None => false
      end
  end.

(** [k] can be created after the keys [seen] and come last. *)
Definition key_appends (seen : list jsstring) (k : jsstring) : bool :=
  negb (existsb (jsstring_eqb k) seen)
  && match array_index k with
     | None => true
     | Some n =>
         forallb (fun k' => match array_index k' with
                            | Some n' => n' <? n
                            | None => false
                            end) seen
     end.

Fixpoint keys_in_order (seen ks : list jsstring) : bool :=
  match ks with
  | [] => true
  | k :: r => key_appends seen k && keys_in_order (seen ++ [k]) r
  end.

Fixpoint wf_json (v : json) : bool :=
  match v with
  | JNull | JBool _ => true
  | JNum lit => is_number lit
  | JStr s => units16 s
  | JArr elems => forallb wf_json elems
  | JObj members =>
      forallb (fun '(k, x) => units16 k && wf_json x) members
      && keys_in_order [] (map fst members)
  end.

(** The tokens of a value as [JSON.stringify] prints it. *)
Fixpoint join_tokens (parts : list (list token)) : list token :=
  match parts with
  | [] => []
  | [p] => p
  | p :: ps => p ++ TComma :: join_tokens ps
  end.

Fixpoint tokens (v : json) : list token :=
  match v with
  | JNull => [TNull]
  | JBool true => [TTrue]
  | JBool false => [TFalse]
  | JNum lit => [TNum lit]
  | JStr s => [TStr s]
  | JArr elems => TLBrack :: join_tokens (map tokens elems) ++ [TRBrack]
  | JObj members =>
      TLBrace :: join_tokens
                   (map (fun '(k, x) => TStr k :: TColon :: tokens x) members)
        ++ [TRBrace]
  end.

(** What can follow a value in printed JSON: nothing, a comma or a closing
    bracket. *)
Definition follows (rest : jsstring) : Prop :=
  match rest with
  | [] => True
  | c :: _ => c = 44 \/ c = 93 \/ c = 125
  end.

(** ** The commit chain and the history of a repository *)

(** The commits met from the value [v] (the content of HEAD, then each
    [parent]) by loading the object, parsing it and going to its [parent],
    until a value that is not truthy. *)
Inductive chain (fs : filesystem) : jsval -> list (jsstring * json) -> Prop :=
| chain_end v : truthy v = false -> chain fs v []
| chain_link h text commitData next rest :
    h <> [] ->
    fs_read fs (path_join AriGit.objectsPath h) = Ok text ->
    JSON_parse text = Some commitData ->
    get_prop (Some commitData) (js "parent") = Ok next ->
    chain fs next rest ->
    chain fs (Some (JStr h)) ((h, commitData) :: rest).

(** The same chain as the program writes it: each object holds the printed
    record, under a digest. *)
Inductive stored_chain (fs : filesystem)
  : jsstring -> list (jsstring * json) -> Prop :=
| stored_end : stored_chain fs [] []
| stored_link h commitData parent rest :
    is_digest h ->
    wf_json commitData = true ->
    fs !! object_key h = Some (File (utf8_encode (JSON_stringify commitData))) ->
    get_prop (Some commitData) (js "parent")
    = Ok (Some (AriGit.or_null (Some parent))) ->
    stored_chain fs parent rest ->
    stored_chain fs h ((h, commitData) :: rest).

Definition prop_or_undefined (v : json) (k : jsstring) : jsval :=
  match get_prop (Some v) k with
  | Ok x => x
  | Throw _ => None
  end.

(** What [log] prints for a chain. *)
Definition log_events (l : list (jsstring * json)) : list event :=
  concat (map (fun '(h, commitData) =>
                 [EvLogSeparator;
                  EvLogEntry h (prop_or_undefined commitData (js "timeStamp"))
                    (prop_or_undefined commitData (js "username"))
                    (prop_or_undefined commitData (js "message"))]) l).

(** A directory in which nothing is called [.arigit]. *)
Definition fresh (fs : filesystem) : Prop :=
  forall k, fs !! (js ".arigit" :: k) = None.

(** No object of [fs] has another content in [fs']: the store only grows.
    An invocation breaks this only by writing a content whose digest is
    that of a different object already there. *)
Definition objects_kept (fs fs' : filesystem) : Prop :=
  forall d c, fs !! object_key d = Some (File c) ->
              fs' !! object_key d = Some (File c).

(** The states reached from [init] in a fresh directory by invocations of
    [add] and [commit], by edits of the working files and by whatever only
    prints ([log], [show]), with the digests of the commits made, newest
    first. *)
Inductive history : list jsstring -> world -> Prop :=
| history_init fs out :
    fresh fs -> history [] (snd (CLI.init (World fs out)))
| history_edit hs w k content :
    history hs w -> head k <> Some (js ".arigit") ->
    history hs (snd (user_edit k content w))
| history_print hs w out :
    history hs w -> history hs (World (w_fs w) out)
| history_add hs w file :
    history hs w ->
    objects_kept (w_fs w) (w_fs (snd (CLI.add file w))) ->
    history hs (snd (CLI.add file w))
| history_commit hs w now user message w' h :
    history hs w ->
    CLI.commit now user message w = (Ok tt, w') ->
    last (w_out w') = Some (EvCommitted h) ->
    objects_kept (w_fs w) (w_fs w') ->
    history (h :: hs) w'.

(** The file system right after [init] in [fs]. *)
Definition initialized (fs : filesystem) : filesystem :=
  <[index_key := File (bytes_of "[]")]>
    (<[head_key := File []]>
       (<[ [js ".arigit"; js "objects"] := Dir]>
          (<[ [js ".arigit"] := Dir]> fs))).

(** What holds of the file system all along a history: the layout, an index
    that holds a printed sequence, and a HEAD that starts the stored chain of
    the commits made. *)
Record healthy (hs : list jsstring) (fs : filesystem) : Prop := Healthy {
  healthy_repository : repository fs;
  healthy_index :
    exists elems,
      fs !! index_key = Some (File (utf8_encode (JSON_stringify (JArr elems))))
      /\ wf_json (JArr elems) = true;
  healthy_head :
    exists head l,
      fs !! head_key = Some (File (utf8_encode head))
      /\ (head = [] \/ is_digest head)
      /\ stored_chain fs head l
      /\ map fst l = hs
}.

(** The digests of the entries that [log] printed, in order. *)
Fixpoint logged_digests (evs : list event) : list jsstring :=
  match evs with
  | [] => []
  | EvLogEntry h _ _ _ :: r => h :: logged_digests r
  | _ :: r => logged_digests r
  end.

(** A history with two commits. *)
Definition step0 : world := snd (CLI.init (World ∅ [])).
Definition step1 : world := snd (user_edit [js "a.txt"] (bytes_of "hello") step0).
Definition step2 : world := snd (CLI.add (bytes_of "a.txt") step1).
Definition step3 : world :=
  snd (CLI.commit 1700000000000 None (bytes_of "first") step2).
Definition step4 : world :=
  snd (user_edit [js "a.txt"] (bytes_of "hello world") step3).
Definition step5 : world := snd (CLI.add (bytes_of "a.txt") step4).
Definition step6 : world :=
  snd (CLI.commit 1700000001000 (Some (bytes_of "bob")) (bytes_of "second") step5).

(** ** What the lexer and the parser keep well formed *)

Definition member_ok (kx : jsstring * json) : bool :=
  units16 (fst kx) && wf_json (snd kx).

Definition below (n : N) (k : jsstring) : bool :=
  match array_index k with
  | Some n' => n' <? n
  | None => false
  end.

Definition num_state (acc : jsstring) : option nstate :=
  match acc with
  | [] => None
  | c :: r =>
      match num_start c with
      | Some st => num_run st r
      | None => None
      end
  end.

Definition token_ok (t : token) : bool :=
  match t with
  | TNum lit => is_number lit
  | TStr s => units16 s
  | _ => true
  end.

(** The value read so far in a [\uXXXX] escape with [n] digits to go is
    below this bound. *)
Definition uni_bound (n : nat) : N :=
  match n with
  | 4%nat => 1
  | 3%nat => 16
  | 2%nat => 256
  | 1%nat => 4096
  | _ => 0
  end.

Definition mode_ok (m : lmode) : Prop :=
  match m with
  | LStart => True
  | LLit t _ => token_ok t = true
  | LNum st acc => num_state acc = Some st
  | LStr acc | LEsc acc => units16 acc = true
  | LUni acc n v => units16 acc = true /\ v < uni_bound n
  end.

Definition frame_ok (f : frame) : Prop :=
  match f with
  | FArr elems => wf_json (JArr elems) = true
  | FObj members key => wf_json (JObj members) = true /\ units16 key = true
  end.

Definition pstate_ok (st : pstate) : Prop :=
  match st with
  | PValue stk | PArrFirst stk | PObjFirst stk => Forall frame_ok stk
  | PArrNext elems stk => wf_json (JArr elems) = true /\ Forall frame_ok stk
  | PObjKey members stk | PObjNext members stk =>
      wf_json (JObj members) = true /\ Forall frame_ok stk
  | PObjColon members key stk =>
      wf_json (JObj members) = true /\ units16 key = true /\ Forall frame_ok stk
  | PDone v => wf_json v = true
  end.



(** ** Computations that only print *)

(** A computation that leaves the file system as it is and only adds
    lines to the console. *)
Definition only_prints {A} (m : M A) : Prop :=
  forall w, exists printed, snd (m w) = World (w_fs w) (w_out w ++ printed).

(** A second commit that adds one more file. *)
Definition scenario_new_file : world :=
  after [user_edit [js "b.txt"] (bytes_of "bye"); CLI.add (bytes_of "b.txt");
         CLI.commit 1700000002000 None (bytes_of "more")]
    (World (w_fs step3) []).

(** The first commit, with the blob of its file removed from the store. *)
Definition scenario_missing_blob : world :=
  World (delete (object_key (js "aaf4c61ddcc5e8a2dabede0f3b482cd9aea9434d"))
           (w_fs step3)) [].

(** The two commits, with the object of the first removed from the store. *)
Definition scenario_missing_parent : world :=
  World (delete (object_key (js "216a2bffaf73cd065101c41a013b6a877c84557d"))
           (w_fs step6)) [].

(** ** Chains that do not end *)




(** A third commit, with nothing staged. *)
Definition step7 : world :=
  snd (CLI.commit 1700000003000 None (bytes_of "third") step6).

(** A file of the working directory: the path [file] leads to the key [k],
    outside [.arigit], which holds [content]. *)
Definition working_file (fs : filesystem) (file : jsstring) (k : fskey)
    (content : list byte) : Prop :=
  resolve fs file = Ok k
  /\ head k <> Some (js ".arigit")
  /\ fs !! k = Some (File content).

(** A working directory with two files. *)
Definition scenario_two_files : filesystem :=
  <[ [js "b.txt"] := File (bytes_of "bye")]> scenario_files.

(** ** Entries and the objects they name *)

(** The value is an entry as [updateStagingArea] makes them, and the object
    its hash names is in the store. *)
Definition entry_stored (fs : filesystem) (e : json) : Prop :=
  exists p d c,
    e = AriGit.entry p d /\ is_digest d /\ fs !! object_key d = Some (File c).

(** The [files] of a commit record are entries whose objects are in the
    store. *)
Definition files_stored (fs : filesystem) (commitData : json) : Prop :=
  exists elems,
    get_prop (Some commitData) (js "files") = Ok (Some (JArr elems))
    /\ Forall (entry_stored fs) elems.

(** Whatever sequence the index holds and whatever chain starts at HEAD,
    their entries name objects of the store. *)
Record referenced (fs : filesystem) : Prop := Referenced {
  ref_index :
    forall elems,
      fs !! index_key = Some (File (utf8_encode (JSON_stringify (JArr elems)))) ->
      wf_json (JArr elems) = true ->
      Forall (entry_stored fs) elems;
  ref_chain :
    forall head l,
      fs !! head_key = Some (File (utf8_encode head)) ->
      stored_chain fs head l ->
      Forall (fun hc => files_stored fs (snd hc)) l
}.

(** [getFileContent] on the hash of the entry returns. *)
Definition entry_readable (w : world) (e : json) : Prop :=
  exists p d content,
    e = AriGit.entry p d
    /\ AriGit.getFileContent (Some (JStr d)) w = (Ok content, w).

(** The paths that [showCommitDiff] printed, in order. *)
Fixpoint shown_paths (evs : list event) : list jsval :=
  match evs with
  | [] => []
  | EvFile p :: r => p :: shown_paths r
  | _ :: r => shown_paths r
  end.

(** The lines with which [showCommitDiff] and [getCommitData] report a
    failure. *)
Definition reports_failure (e : event) : bool :=
  match e with
  | EvErrorShow _ | EvFailedReadCommit _ | EvCommitNotFound => true
  | _ => false
  end.

(* ================================================================== *)
(** * Properties *)

Example sha1_hello :
  hex (SHA1.digest (bytes_of "hello")) = js "aaf4c61ddcc5e8a2dabede0f3b482cd9aea9434d".
Proof. vm_compute. reflexivity. Qed.

Example sha1_empty :
  hex (SHA1.digest []) = js "da39a3ee5e6b4b0d3255bfef95601890afd80709".
Proof. vm_compute. reflexivity. Qed.

Example sha1_two_blocks :
  hex (SHA1.digest (bytes_of "abcdbcdecdefdefgefghfghighijhijkijkljklmklmnlmnomnopnopq"))
  = js "84983e441c3bd26ebaae4aa1f95129e5e54670f1".
Proof. vm_compute. reflexivity. Qed.

Example utf8_decode_ascii : utf8_decode (bytes_of "hello") = js "hello".
Proof. reflexivity. Qed.

Example utf8_decode_lossy :
  utf8_decode [xff; x41; xe2; x82; xac; xf0; x9f; x98; x80; xe2; x82; x41; xed; xa0; x80]
  = [0xFFFD; 0x41; 0x20AC; 0xD83D; 0xDE00; 0xFFFD; 0x41; 0xFFFD; 0xFFFD; 0xFFFD].
Proof. vm_compute. reflexivity. Qed.

Example utf8_encode_sample :
  utf8_encode [0x41; 0xE9; 0x20AC; 0xD83D; 0xDE00; 0xD800; 0x42]
  = [x41; xc3; xa9; xe2; x82; xac; xf0; x9f; x98; x80; xef; xbf; xbd; x42].
Proof. vm_compute. reflexivity. Qed.

Example parse_index_sample :
  JSON_parse (jsq "[{'path':'a.txt','hash':'ab'}, null ,true,-1.5e+3,{}]")
  = Some (JArr [JObj [(js "path", JStr (js "a.txt")); (js "hash", JStr (js "ab"))];
                JNull; JBool true; JNum (js "-1.5e+3"); JObj []]).
Proof. vm_compute. reflexivity. Qed.

Example parse_escapes :
  JSON_parse (jsq "'a\n\u00e9\ud83d\ude00\/\\'")
  = Some (JStr [97; 10; 0xE9; 0xD83D; 0xDE00; 47; 92]).
Proof. vm_compute. reflexivity. Qed.

Example parse_object_order :
  JSON_parse (jsq "{'b':1,'10':2,'a':3,'2':4,'b':5,'01':6}")
  = Some (JObj [(js "2", JNum (js "4")); (js "10", JNum (js "2"));
                (js "b", JNum (js "5")); (js "a", JNum (js "3"));
                (js "01", JNum (js "6"))]).
Proof. vm_compute. reflexivity. Qed.

Example parse_rejects :
  map JSON_parse
    [js ""; js "01"; js "[1,]"; js "{,}"; js "nul"; js "1."; js "-"; js "[1 2]";
     jsq "'\x'"; jsq "'abc"; jsq "{'a' 1}"; js "1e"; js "[]]"; js "tru e";
     jsq "{'a':1,}"; js ".5"; js "+1"]
  = repeat None 17.
Proof. vm_compute. reflexivity. Qed.

Example stringify_sample :
  JSON_stringify
    (JObj [(js "files", JArr [JObj [(js "path", JStr [97; 34; 10; 1; 0xD800; 122])]]);
           (js "parent", JNull)])
  = jsq "{'files':[{'path':'a\'\n\u0001\ud800z'}],'parent':null}".
Proof. vm_compute. reflexivity. Qed.

Example path_join_samples :
  map (fun '(a, b) => path_join (js a) (js b))
    [("."%string, ".arigit"%string); (".arigit", "objects")%string;
     (".arigit/objects", "ab12")%string;
     (".arigit/objects", "../HEAD")%string;
     (".arigit/objects", "../../../x/")%string;
     (".arigit/objects", "/etc//passwd")%string; ("a", "")%string;
     ("/a/..", "..")%string; ("./", ".")%string]
  = map js [".arigit"; ".arigit/objects"; ".arigit/objects/ab12"; ".arigit/HEAD";
            "../x/"; ".arigit/objects/etc/passwd"; "a"; "/"; "."]%string.
Proof. vm_compute. reflexivity. Qed.

Example toISOString_samples :
  map toISOString [0; 1700000000000; 951782400000; 951868799999; 253402300800000]
  = map js ["1970-01-01T00:00:00.000Z"; "2023-11-14T22:13:20.000Z";
            "2000-02-29T00:00:00.000Z"; "2000-02-29T23:59:59.999Z";
            "+010000-01-01T00:00:00.000Z"]%string.
Proof. vm_compute. reflexivity. Qed.

Example diffLines_scenario_E :
  diffLines (js "hello") (js "hello world")
  = [Segment Removed (js "hello"); Segment Added (js "hello world")].
Proof. vm_compute. reflexivity. Qed.

Example diffLines_mixed :
  diffLines [97; 10; 98; 10; 99; 10; 100; 10] [97; 10; 120; 10; 99; 10; 100; 10; 101]
  = [Segment Unchanged [97; 10]; Segment Removed [98; 10]; Segment Added [120; 10];
     Segment Unchanged [99; 10; 100; 10]; Segment Added [101]].
Proof. vm_compute. reflexivity. Qed.

Example paths :
  (AriGit.repoPath, AriGit.objectsPath, AriGit.headPath, AriGit.indexPath)
  = (js ".arigit", js ".arigit/objects", js ".arigit/HEAD", js ".arigit/index").
Proof. vm_compute. reflexivity. Qed.

(** ** Digests have forty hexadecimal characters *)

Ltac eval_js :=
  repeat match goal with
    | |- context [js ?s] =>
        let v := eval vm_compute in (js s) in change (js s) with v
    end.

Lemma hex_digit_char d : d < 16 -> hex_char (hex_digit d) = true.
Proof.
  intros H. unfold hex_char, hex_digit, in_range.
  destruct (N.ltb_spec d 10); repeat rewrite ?andb_true_iff, ?orb_true_iff, ?N.leb_le; lia.
Qed.

Lemma hex_byte_chars b : Forall (fun c => hex_char c = true) (hex_byte b).
Proof.
  pose proof (Byte.to_N_bounded b) as Hb. unfold hex_byte.
  repeat constructor; apply hex_digit_char.
  - apply N.Div0.div_lt_upper_bound; lia.
  - apply N.mod_lt; lia.
Qed.

Lemma hex_chars bs : Forall (fun c => hex_char c = true) (hex bs).
Proof.
  unfold hex. induction bs as [|b bs IH]; cbn [concat map]; [constructor|].
  apply Forall_app. split; [apply hex_byte_chars | exact IH].
Qed.

Lemma hex_length bs : length (hex bs) = (2 * length bs)%nat.
Proof.
  unfold hex. induction bs as [|b bs IH]; cbn [concat map]; [reflexivity|].
  rewrite length_app, IH. simpl. lia.
Qed.

Lemma sha1_digest_length msg : length (SHA1.digest msg) = 20%nat.
Proof.
  unfold SHA1.digest, SHA1.digest_words, bytes_of_N.
  destruct (fold_left _ _ _) as [[[[h0 h1] h2] h3] h4].
  rewrite length_map. reflexivity.
Qed.

Lemma hashObject_is_digest content : is_digest (hashObject content).
Proof.
  unfold is_digest, hashObject. split.
  - rewrite hex_length, sha1_digest_length. reflexivity.
  - apply hex_chars.
Qed.

(** ** Paths of the repository *)

Lemma jsstring_eqb_eq a b : jsstring_eqb a b = true <-> a = b.
Proof. unfold jsstring_eqb. apply bool_decide_eq_true. Qed.

Lemma jsstring_eqb_refl a : jsstring_eqb a a = true.
Proof. apply jsstring_eqb_eq. reflexivity. Qed.

Lemma jsstring_eqb_neq a b : a <> b -> jsstring_eqb a b = false.
Proof. unfold jsstring_eqb. apply bool_decide_eq_false. Qed.

Lemma split_on_nonempty sep s : split_on sep s <> [].
Proof.
  destruct s as [|c r]; simpl; [discriminate|].
  destruct (c =? sep); [discriminate|].
  destruct (split_on sep r); discriminate.
Qed.

Lemma split_on_app sep a b :
  split_on sep (a ++ sep :: b) = split_on sep a ++ split_on sep b.
Proof.
  induction a as [|c a IH]; simpl.
  - rewrite N.eqb_refl. reflexivity.
  - destruct (c =? sep); [rewrite IH; reflexivity|].
    rewrite IH. pose proof (split_on_nonempty sep a) as Hne.
    destruct (split_on sep a); [contradiction | reflexivity].
Qed.

Lemma split_on_none sep s :
  Forall (fun c => c <> sep) s -> split_on sep s = [s].
Proof.
  induction 1 as [|c s Hc _ IH]; simpl; [reflexivity|].
  apply N.eqb_neq in Hc. rewrite Hc, IH. reflexivity.
Qed.

Lemma hex_char_facts c :
  hex_char c = true -> c <> 47 /\ c <> 0 /\ c <> 46 /\ 48 <= c < 128.
Proof.
  unfold hex_char, in_range.
  rewrite orb_true_iff, !andb_true_iff, !N.leb_le. lia.
Qed.

Lemma hex_has_nul h :
  Forall (fun c => hex_char c = true) h -> has_nul h = false.
Proof.
  unfold has_nul. induction 1 as [|c r Hc _ IH]; simpl; [reflexivity|].
  apply hex_char_facts in Hc. rewrite IH.
  destruct c; [lia | reflexivity].
Qed.

Lemma hex_utf8 h :
  Forall (fun c => hex_char c = true) h -> utf8_encode_N h = h.
Proof.
  induction 1 as [|c r Hc _ IH]; simpl; [reflexivity|].
  apply hex_char_facts in Hc.
  destruct (N.ltb_spec c 128); [rewrite IH; reflexivity | lia].
Qed.

Lemma hex_no_slash h :
  Forall (fun c => hex_char c = true) h -> Forall (fun c => c <> 47) h.
Proof.
  intros Hall. eapply Forall_impl; [exact Hall|].
  intros c Hc. apply hex_char_facts in Hc. tauto.
Qed.

Lemma is_dir_here fs : is_dir fs [] = true.
Proof. reflexivity. Qed.

Section DigestPaths.
Variable h : jsstring.
Hypothesis Hh : is_digest h.

Lemma digest_cons : exists c r, h = c :: r /\ hex_char c = true.
Proof.
  destruct Hh as [Hlen Hall]. destruct h as [|c r]; [discriminate|].
  inversion Hall; subst. eauto.
Qed.

Lemma digest_last : last h <> Some 47.
Proof.
  intros Hl. apply last_Some in Hl as [l' Hl].
  pose proof (hex_no_slash h (proj2 Hh)) as Hn. rewrite Hl in Hn.
  apply Forall_app in Hn as [_ Hn]. inversion Hn; subst. congruence.
Qed.

Lemma digest_not_special :
  jsstring_eqb h [] || jsstring_eqb h dot = false /\ jsstring_eqb h dotdot = false.
Proof.
  destruct digest_cons as (c & r & -> & Hc). apply hex_char_facts in Hc.
  split; [apply orb_false_iff; split|]; apply jsstring_eqb_neq;
    unfold dot, dotdot; intros [=]; lia.
Qed.

Lemma objects_joined :
  joined AriGit.objectsPath h = js ".arigit/objects/" ++ h.
Proof. destruct digest_cons as (c & r & -> & _). reflexivity. Qed.

Lemma objects_split :
  split_on 47 (js ".arigit/objects/" ++ h) = [js ".arigit"; js "objects"; h].
Proof.
  change (js ".arigit/objects/") with (js ".arigit/objects" ++ [47]).
  rewrite <- app_assoc. cbn [app].
  rewrite split_on_app, (split_on_none _ h) by (apply hex_no_slash, Hh).
  reflexivity.
Qed.

Lemma objects_absolute : is_absolute (js ".arigit/objects/" ++ h) = false.
Proof. reflexivity. Qed.

Lemma objects_trailing : has_trailing (js ".arigit/objects/" ++ h) = false.
Proof.
  unfold has_trailing. destruct digest_cons as (c & r & Heq & _).
  assert (last (js ".arigit/objects/" ++ h) = last h) as ->.
  { rewrite Heq. apply last_app_cons. }
  pose proof digest_last as Hl. destruct (last h) as [x|]; [|reflexivity].
  apply N.eqb_neq. congruence.
Qed.

Lemma path_join_objects :
  path_join AriGit.objectsPath h = js ".arigit/objects/" ++ h.
Proof.
  unfold path_join. rewrite objects_joined.
  unfold path_normalize, normalize_body.
  rewrite objects_split, objects_absolute, objects_trailing.
  destruct digest_not_special as [H1 H2].
  cbn [fold_left]. unfold norm_segment at 1.
  rewrite H1, H2.
  change (norm_segment (negb false) (norm_segment (negb false) [] (js ".arigit"))
            (js "objects")) with [js ".arigit"; js "objects"].
  destruct digest_cons as (c & r & Heq & _). rewrite Heq.
  eval_js. cbn [app join_slash]. rewrite app_nil_r. reflexivity.
Qed.

Lemma resolve_object fs :
  resolve fs (path_join AriGit.objectsPath h)
  = if is_dir fs [js ".arigit"] then
      if is_dir fs [js ".arigit"; js "objects"] then Ok (object_key h)
      else Throw (not_a_dir fs [js ".arigit"; js "objects"])
    else Throw (not_a_dir fs [js ".arigit"]).
Proof.
  rewrite path_join_objects. unfold resolve.
  assert (has_nul (js ".arigit/objects/" ++ h) = false) as ->.
  { unfold has_nul. rewrite existsb_app.
    fold (has_nul h). rewrite (hex_has_nul h (proj2 Hh)). reflexivity. }
  rewrite objects_split, objects_absolute.
  destruct digest_cons as (c & r & Heq & _).
  destruct digest_not_special as [H1 H2].
  rewrite Heq at 1. cbn [app].
  change (js ".arigit/objects/" ++ c :: r) with (46 :: (js "arigit/objects/" ++ c :: r)).
  cbv iota.
  cbn [walk]. rewrite is_dir_here.
  change (jsstring_eqb (js ".arigit") [] || jsstring_eqb (js ".arigit") dot) with false.
  change (jsstring_eqb (js ".arigit") dotdot) with false.
  change (jsstring_eqb (js "objects") [] || jsstring_eqb (js "objects") dot) with false.
  change (jsstring_eqb (js "objects") dotdot) with false.
  cbv iota. rewrite H1, H2, (hex_utf8 h (proj2 Hh)).
  reflexivity.
Qed.

End DigestPaths.

Lemma resolve_head fs :
  resolve fs AriGit.headPath
  = if is_dir fs [js ".arigit"] then Ok head_key
    else Throw (not_a_dir fs [js ".arigit"]).
Proof. reflexivity. Qed.

Lemma resolve_index fs :
  resolve fs AriGit.indexPath
  = if is_dir fs [js ".arigit"] then Ok index_key
    else Throw (not_a_dir fs [js ".arigit"]).
Proof. reflexivity. Qed.

Lemma is_dir_lookup fs k :
  is_above k = false ->
  is_dir fs k = true <-> fs !! k = Some Dir.
Proof.
  intros Hk. unfold is_dir. rewrite Hk. simpl.
  destruct (fs !! k) as [[c|]|]; split; congruence.
Qed.

Lemma is_dir_repo fs : is_dir fs [js ".arigit"] = true <-> fs !! [js ".arigit"] = Some Dir.
Proof. apply is_dir_lookup. reflexivity. Qed.

Lemma is_dir_objects fs :
  is_dir fs [js ".arigit"; js "objects"] = true
  <-> fs !! [js ".arigit"; js "objects"] = Some Dir.
Proof. apply is_dir_lookup. reflexivity. Qed.

(** ** Reading and writing the files of the repository *)

Lemma fs_read_inv fs p t :
  fs_read fs p = Ok t ->
  exists k c, resolve fs p = Ok k /\ fs !! k = Some (File c) /\ t = utf8_decode c.
Proof.
  unfold fs_read. destruct (resolve fs p) as [k|e]; [|discriminate].
  destruct (fs !! k) as [[c|]|] eqn:Hk; try discriminate.
  intros [= <-]. eauto.
Qed.

Lemma fs_read_file fs p k c :
  resolve fs p = Ok k -> fs !! k = Some (File c) -> fs_read fs p = Ok (utf8_decode c).
Proof. intros Hr Hk. unfold fs_read. rewrite Hr, Hk. reflexivity. Qed.

Lemma fs_write_inv excl fs p data fs' :
  fs_write excl fs p data = Ok fs' ->
  exists k, resolve fs p = Ok k /\ fs !! k <> Some Dir
            /\ fs' = <[k := File (utf8_encode data)]> fs.
Proof.
  unfold fs_write. destruct (resolve fs p) as [k|e]; [|discriminate].
  destruct (is_above k); [destruct excl; discriminate|].
  destruct (fs !! k) as [[c|]|] eqn:Hk; try (destruct excl; discriminate).
  - destruct excl; [discriminate|]. intros [= <-]. exists k. rewrite Hk. eauto.
  - intros [= <-]. exists k. rewrite Hk. eauto.
Qed.

Lemma fs_write_file fs p data k :
  resolve fs p = Ok k -> is_above k = false -> fs !! k <> Some Dir ->
  fs_write false fs p data = Ok (<[k := File (utf8_encode data)]> fs).
Proof.
  intros Hr Ha Hk. unfold fs_write. rewrite Hr, Ha.
  destruct (fs !! k) as [[c|]|]; congruence.
Qed.

Lemma resolve_head_inv fs k :
  resolve fs AriGit.headPath = Ok k ->
  fs !! [js ".arigit"] = Some Dir /\ k = head_key.
Proof.
  rewrite resolve_head. destruct (is_dir fs _) eqn:Hd; [|discriminate].
  apply is_dir_repo in Hd. intros [= <-]. auto.
Qed.

Lemma resolve_index_inv fs k :
  resolve fs AriGit.indexPath = Ok k ->
  fs !! [js ".arigit"] = Some Dir /\ k = index_key.
Proof.
  rewrite resolve_index. destruct (is_dir fs _) eqn:Hd; [|discriminate].
  apply is_dir_repo in Hd. intros [= <-]. auto.
Qed.

Lemma resolve_object_inv fs h k :
  is_digest h ->
  resolve fs (path_join AriGit.objectsPath h) = Ok k ->
  fs !! [js ".arigit"] = Some Dir
  /\ fs !! [js ".arigit"; js "objects"] = Some Dir /\ k = object_key h.
Proof.
  intros Hh. rewrite (resolve_object h Hh).
  destruct (is_dir fs [_]) eqn:Hd; [|discriminate].
  destruct (is_dir fs [_; _]) eqn:Ho; [|discriminate].
  apply is_dir_repo in Hd. apply is_dir_objects in Ho. intros [= <-]. auto.
Qed.

Lemma resolve_head_ok fs :
  fs !! [js ".arigit"] = Some Dir -> resolve fs AriGit.headPath = Ok head_key.
Proof. intros H. apply is_dir_repo in H. rewrite resolve_head, H. reflexivity. Qed.

Lemma resolve_index_ok fs :
  fs !! [js ".arigit"] = Some Dir -> resolve fs AriGit.indexPath = Ok index_key.
Proof. intros H. apply is_dir_repo in H. rewrite resolve_index, H. reflexivity. Qed.

Lemma resolve_object_ok fs h :
  is_digest h ->
  fs !! [js ".arigit"] = Some Dir ->
  fs !! [js ".arigit"; js "objects"] = Some Dir ->
  resolve fs (path_join AriGit.objectsPath h) = Ok (object_key h).
Proof.
  intros Hh H1 H2. apply is_dir_repo in H1. apply is_dir_objects in H2.
  rewrite (resolve_object h Hh), H1, H2. reflexivity.
Qed.

(** The keys of the repository are pairwise distinct. *)
Lemma keys_distinct d :
  object_key d <> head_key /\ object_key d <> index_key
  /\ head_key <> index_key
  /\ object_key d <> [js ".arigit"] /\ object_key d <> [js ".arigit"; js "objects"]
  /\ head_key <> [js ".arigit"] /\ index_key <> [js ".arigit"]
  /\ head_key <> [js ".arigit"; js "objects"]
  /\ index_key <> [js ".arigit"; js "objects"].
Proof. unfold object_key, head_key, index_key. repeat split; discriminate. Qed.

Lemma object_key_inj d d' : object_key d = object_key d' -> d = d'.
Proof. unfold object_key. congruence. Qed.

Lemma add_failed_read w file e :
  fs_read (w_fs w) file = Throw e ->
  w_fs (snd (AriGit.add file w)) = w_fs w.
Proof.
  intros Hread. unfold AriGit.add, try_catch, bind, readFile.
  rewrite Hread. reflexivity.
Qed.

Lemma commit_failed_parse w now user message text :
  fs_read (w_fs w) AriGit.indexPath = Ok text ->
  JSON_parse text = None ->
  exists e, w_out (snd (AriGit.commit now user message w))
            = w_out w ++ [EvErrorCommitting e].
Proof.
  intros Hread Hparse.
  unfold AriGit.commit, try_catch, bind, readFile, parse, lift.
  rewrite Hread, Hparse. eexists. reflexivity.
Qed.

(** ** C9: a failed read in [add] changes nothing *)

(** C9.  For every state, [add] on a path whose read fails reports the
    error and leaves the whole file system as it was: no object is written
    and the index is not modified. *)
Theorem add_read_failure_changes_nothing w file e :
  fs_read (w_fs w) file = Throw e ->
  AriGit.add file w = (Ok tt, World (w_fs w) (w_out w ++ [EvErrorAdding e]))
  /\ w_fs (snd (AriGit.add file w)) = w_fs w.
Proof.
  intros Hread.
  assert (AriGit.add file w
          = (Ok tt, World (w_fs w) (w_out w ++ [EvErrorAdding e]))) as Hrun.
  { unfold AriGit.add, try_catch, bind, readFile. rewrite Hread. reflexivity. }
  split; [exact Hrun | rewrite Hrun; reflexivity].
Qed.

(** ** C10: an index that is not JSON stops [commit] before any write *)

(** C10, amended.  When the text of the index is not valid JSON, [commit]
    reports the error and writes nothing: no object, HEAD and the index file
    as they were. *)
Theorem commit_invalid_index_changes_nothing w now user message text :
  fs_read (w_fs w) AriGit.indexPath = Ok text ->
  JSON_parse text = None ->
  AriGit.commit now user message w
  = (Ok tt, World (w_fs w) (w_out w ++ [EvErrorCommitting SyntaxError])).
Proof.
  intros Hread Hparse.
  unfold AriGit.commit, try_catch, bind, readFile, parse, lift.
  rewrite Hread, Hparse. reflexivity.
Qed.

(** ** What [commit] does *)

Lemma getCurrentHead_run w :
  AriGit.getCurrentHead w
  = match fs_read (w_fs w) AriGit.headPath with
    | Ok head => (Ok (Some head), w)
    | Throw e => (Ok None, World (w_fs w) (w_out w ++ [EvErrorReadingHead e]))
    end.
Proof.
  unfold AriGit.getCurrentHead, try_catch, bind, readFile, ret, print.
  destruct (fs_read _ _); reflexivity.
Qed.

Lemma commit_run w now user message text index :
  fs_read (w_fs w) AriGit.indexPath = Ok text ->
  JSON_parse text = Some index ->
  AriGit.commit now user message w
  = let '(head, w1) := AriGit.getCurrentHead w in
    let commitData :=
      AriGit.commitRecord (toISOString now) message index
        (AriGit.or_null (match head with Ok x => x | Throw _ => None end))
        (AriGit.username_or_anonymous user) in
    match commit_writes commitData w1 with
    | (Ok _, w2) => (Ok tt, w2)
    | (Throw e, w2) => (Ok tt, World (w_fs w2) (w_out w2 ++ [EvErrorCommitting e]))
    end.
Proof.
  intros Hread Hparse.
  unfold AriGit.commit, try_catch, bind at 1 2 3, readFile at 1, parse, lift, ret.
  rewrite Hread, Hparse. rewrite getCurrentHead_run.
  destruct (fs_read (w_fs w) AriGit.headPath) as [head|e];
    unfold commit_writes;
    match goal with |- match ?m ?w with _ => _ end = match ?m' ?w with _ => _ end =>
      change m' with m; destruct (m w) as [[[]|?] ?] end; reflexivity.
Qed.

Lemma commit_writes_ok fs out commitData :
  let h := hashObject (JSON_stringify commitData) in
  fs !! [js ".arigit"] = Some Dir ->
  fs !! [js ".arigit"; js "objects"] = Some Dir ->
  fs !! object_key h <> Some Dir ->
  fs !! head_key <> Some Dir ->
  fs !! index_key <> Some Dir ->
  commit_writes commitData (World fs out)
  = (Ok tt, World (committed fs commitData) (out ++ [EvCommitted h])).
Proof.
  intros h Hrepo Hobjs Hobj Hhead Hindex.
  pose proof (hashObject_is_digest (JSON_stringify commitData)) as Hd. fold h in Hd.
  pose proof (keys_distinct h) as (K1 & K2 & K3 & K4 & K5 & K6 & K7 & K8 & K9).
  unfold commit_writes, committed. fold h.
  unfold bind, writeFile, print. cbn [w_fs w_out].
  rewrite (fs_write_file fs _ _ (object_key h)); auto using resolve_object_ok.
  cbn [w_fs w_out].
  rewrite (fs_write_file _ _ _ head_key); cycle 1.
  { apply resolve_head_ok. rewrite lookup_insert_ne; auto. }
  { reflexivity. }
  { rewrite lookup_insert_ne; auto. }
  cbn [w_fs w_out].
  rewrite (fs_write_file _ _ _ index_key); cycle 1.
  { apply resolve_index_ok. rewrite !lookup_insert_ne; auto. }
  { reflexivity. }
  { rewrite !lookup_insert_ne; auto. }
  reflexivity.
Qed.

Lemma commit_writes_inv w commitData r w' :
  commit_writes commitData w = (r, w') ->
  match r with
  | Ok _ =>
      let h := hashObject (JSON_stringify commitData) in
      w_fs w !! [js ".arigit"] = Some Dir
      /\ w_fs w !! [js ".arigit"; js "objects"] = Some Dir
      /\ w_fs w !! object_key h <> Some Dir
      /\ w' = World (committed (w_fs w) commitData) (w_out w ++ [EvCommitted h])
  | Throw _ => w_out w' = w_out w
  end.
Proof.
  pose proof (hashObject_is_digest (JSON_stringify commitData)) as Hd.
  unfold commit_writes, committed.
  set (h := hashObject (JSON_stringify commitData)) in *.
  unfold bind, writeFile, print.
  destruct (fs_write false (w_fs w) _ _) as [fs1|e1] eqn:W1;
    [|intros [= <- <-]; reflexivity].
  cbn [w_fs w_out].
  destruct (fs_write false fs1 _ _) as [fs2|e2] eqn:W2;
    [|intros [= <- <-]; reflexivity].
  cbn [w_fs w_out].
  destruct (fs_write false fs2 _ _) as [fs3|e3] eqn:W3;
    [|intros [= <- <-]; reflexivity].
  cbn [w_fs w_out]. intros [= <- <-].
  apply fs_write_inv in W1 as (k1 & R1 & N1 & ->).
  apply (resolve_object_inv _ _ _ Hd) in R1 as (D1 & D2 & ->).
  apply fs_write_inv in W2 as (k2 & R2 & N2 & ->).
  apply resolve_head_inv in R2 as (_ & ->).
  apply fs_write_inv in W3 as (k3 & R3 & N3 & ->).
  apply resolve_index_inv in R3 as (_ & ->).
  auto.
Qed.

Lemma last_snoc_event (out : list event) e : last (out ++ [e]) = Some e.
Proof. apply last_snoc. Qed.

Lemma index_number_free fs text index :
  fs_read fs AriGit.indexPath = Ok text ->
  JSON_parse text = Some index ->
  number_free index = true ->
  forall text' index',
    fs_read fs AriGit.indexPath = Ok text' ->
    JSON_parse text' = Some index' ->
    number_free index' = true.
Proof.
  intros Hread Hparse Hfree text' index' Hread' Hparse'.
  assert (text' = text) as -> by congruence.
  assert (index' = index) as -> by congruence.
  exact Hfree.
Qed.

(** C2.  Where the index holds no number (as every index the program
    writes), a commit that ends with its success message has read the index
    as valid JSON, built the record with that value as [files] and with the
    content of HEAD as [parent] ([null] when HEAD is empty, or could not
    be read), stored the serialized record under its digest, written that
    digest to HEAD and reset the index to the empty sequence; nothing else
    has changed. *)
Theorem commit_success_effect w now user message w' h :
  (forall text index,
     fs_read (w_fs w) AriGit.indexPath = Ok text ->
     JSON_parse text = Some index ->
     number_free index = true) ->
  AriGit.commit now user message w = (Ok tt, w') ->
  last (w_out w') = Some (EvCommitted h) ->
  exists text index,
    fs_read (w_fs w) AriGit.indexPath = Ok text
    /\ JSON_parse text = Some index
    /\ number_free index = true
    /\ let parent :=
         match fs_read (w_fs w) AriGit.headPath with
         | Ok (c :: s) => JStr (c :: s)
         | _ => JNull
         end in
       let commitData :=
         AriGit.commitRecord (toISOString now) message index parent
           (AriGit.username_or_anonymous user) in
       get_prop (Some commitData) (js "parent") = Ok (Some parent)
       /\ get_prop (Some commitData) (js "files") = Ok (Some index)
       /\ h = hashObject (JSON_stringify commitData)
       /\ w_fs w' !! object_key h
          = Some (File (utf8_encode (JSON_stringify commitData)))
       /\ w_fs w' !! head_key = Some (File (utf8_encode h))
       /\ w_fs w' !! index_key = Some (File (bytes_of "[]"))
       /\ w_fs w' = committed (w_fs w) commitData.
Proof.
  intros Hfree Hrun Hlast.
  destruct (fs_read (w_fs w) AriGit.indexPath) as [text|e] eqn:Hread; cycle 1.
  { exfalso. revert Hrun.
    unfold AriGit.commit, try_catch, bind, readFile, print. rewrite Hread.
    intros [= <-]. cbn [w_out] in Hlast. rewrite last_snoc in Hlast. discriminate. }
  destruct (JSON_parse text) as [index|] eqn:Hparse; cycle 1.
  { exfalso.
    destruct (commit_failed_parse w now user message _ Hread Hparse) as [e He].
    rewrite Hrun in He. cbn [snd] in He. rewrite He, last_snoc in Hlast.
    discriminate. }
  exists text, index. split; [reflexivity|]. split; [exact Hparse|].
  split; [exact (Hfree text index eq_refl Hparse)|].
  rewrite (commit_run _ _ _ _ _ _ Hread Hparse), getCurrentHead_run in Hrun.
  assert (forall (hd : option jsstring) w1,
    w_fs w1 = w_fs w ->
    match commit_writes (AriGit.commitRecord (toISOString now) message index
             (AriGit.or_null hd) (AriGit.username_or_anonymous user)) w1 with
    | (Ok _, w2) => (Ok tt, w2)
    | (Throw e, w2) => (Ok tt, World (w_fs w2) (w_out w2 ++ [EvErrorCommitting e]))
    end = (Ok tt, w') ->
    let commitData := AriGit.commitRecord (toISOString now) message index
             (AriGit.or_null hd) (AriGit.username_or_anonymous user) in
    h = hashObject (JSON_stringify commitData)
    /\ w_fs w' = committed (w_fs w) commitData) as Htail.
  { intros hd w1 Hfs. destruct (commit_writes _ w1) as [[u|e] w2] eqn:Hw;
      apply commit_writes_inv in Hw.
    - destruct Hw as (_ & _ & _ & ->). intros [= <-]. cbn [w_out w_fs] in *.
      rewrite last_snoc in Hlast. injection Hlast as <-. rewrite Hfs. auto.
    - intros [= <-]. cbn [w_out] in Hlast. rewrite last_snoc in Hlast.
      discriminate. }
  cbv zeta.
  destruct (fs_read (w_fs w) AriGit.headPath) as [head|e] eqn:Hhead.
  - apply (Htail (Some head)) in Hrun; [|reflexivity].
    assert (AriGit.or_null (Some head)
            = match head with c :: s => JStr (c :: s) | [] => JNull end) as Hp
      by (destruct head; reflexivity).
    rewrite Hp in Hrun. destruct Hrun as [-> Hfs].
    split; [reflexivity|]. split; [reflexivity|]. split; [reflexivity|].
    rewrite Hfs. unfold committed.
    pose proof (keys_distinct (hashObject (JSON_stringify
      (AriGit.commitRecord (toISOString now) message index
         match head with [] => JNull | c :: s => JStr (c :: s) end
         (AriGit.username_or_anonymous user))))) as (K1 & K2 & K3 & _).
    repeat split.
    + rewrite !lookup_insert_ne by auto. apply lookup_insert_eq.
    + rewrite lookup_insert_ne by auto. apply lookup_insert_eq.
    + apply lookup_insert_eq.
  - apply (Htail None) in Hrun; [|reflexivity].
    cbn [AriGit.or_null] in Hrun. destruct Hrun as [-> Hfs].
    split; [reflexivity|]. split; [reflexivity|]. split; [reflexivity|].
    rewrite Hfs. unfold committed.
    pose proof (keys_distinct (hashObject (JSON_stringify
      (AriGit.commitRecord (toISOString now) message index JNull
         (AriGit.username_or_anonymous user))))) as (K1 & K2 & K3 & _).
    repeat split.
    + rewrite !lookup_insert_ne by auto. apply lookup_insert_eq.
    + rewrite lookup_insert_ne by auto. apply lookup_insert_eq.
    + apply lookup_insert_eq.
Qed.

Lemma repository_head_readable fs :
  repository fs -> exists c, fs !! head_key = Some (File c)
                             /\ fs_read fs AriGit.headPath = Ok (utf8_decode c).
Proof.
  intros R. destruct (repo_head _ R) as [c Hc]. exists c. split; [exact Hc|].
  apply (fs_read_file _ _ head_key); [apply resolve_head_ok, R | exact Hc].
Qed.

(** In an initialized repository whose index is valid JSON, [commit]
    goes through. *)
Lemma commit_in_repository w now user message text index :
  repository (w_fs w) ->
  fs_read (w_fs w) AriGit.indexPath = Ok text ->
  JSON_parse text = Some index ->
  exists head,
    fs_read (w_fs w) AriGit.headPath = Ok head
    /\ let commitData :=
         AriGit.commitRecord (toISOString now) message index
           (AriGit.or_null (Some head)) (AriGit.username_or_anonymous user) in
       AriGit.commit now user message w
       = (Ok tt, World (committed (w_fs w) commitData)
                   (w_out w ++ [EvCommitted (hashObject (JSON_stringify commitData))])).
Proof.
  intros R Hread Hparse.
  destruct (repository_head_readable _ R) as (c & Hc & Hhead).
  exists (utf8_decode c). split; [exact Hhead|]. cbv zeta.
  rewrite (commit_run _ _ _ _ _ _ Hread Hparse), getCurrentHead_run, Hhead.
  destruct w as [fs out]. cbn [w_fs w_out] in *.
  rewrite commit_writes_ok; [reflexivity|apply R|apply R|apply R| |].
  - rewrite Hc. discriminate.
  - destruct (repo_index _ R) as [ci Hci]. rewrite Hci. discriminate.
Qed.

(** C3.  In an initialized repository whose index holds the empty
    sequence, [commit] succeeds: it stores a record whose [files] is the
    empty sequence, moves HEAD to its digest and reports success. *)
Theorem commit_empty_index_succeeds w now user message text :
  repository (w_fs w) ->
  fs_read (w_fs w) AriGit.indexPath = Ok text ->
  JSON_parse text = Some (JArr []) ->
  exists commitData,
    get_prop (Some commitData) (js "files") = Ok (Some (JArr []))
    /\ AriGit.commit now user message w
       = (Ok tt, World (committed (w_fs w) commitData)
                   (w_out w ++ [EvCommitted (hashObject (JSON_stringify commitData))]))
    /\ committed (w_fs w) commitData
         !! object_key (hashObject (JSON_stringify commitData))
       = Some (File (utf8_encode (JSON_stringify commitData)))
    /\ committed (w_fs w) commitData !! head_key
       = Some (File (utf8_encode (hashObject (JSON_stringify commitData)))).
Proof.
  intros R Hread Hparse.
  destruct (commit_in_repository w now user message text (JArr []) R Hread Hparse)
    as (head & _ & Hrun).
  eexists. split; [|split; [exact Hrun|]].
  - reflexivity.
  - unfold committed.
    match goal with |- context [object_key ?h] =>
      pose proof (keys_distinct h) as (K1 & K2 & K3 & _) end.
    split.
    + rewrite !lookup_insert_ne by auto. apply lookup_insert_eq.
    + rewrite lookup_insert_ne by auto. apply lookup_insert_eq.
Qed.

(** ** C5: staging appends *)

Lemma updateStagingArea_run w filePath fileHash text elems :
  fs_read (w_fs w) AriGit.indexPath = Ok text ->
  JSON_parse text = Some (JArr elems) ->
  AriGit.updateStagingArea filePath fileHash w
  = (Ok tt,
     World (<[index_key :=
               File (utf8_encode
                       (JSON_stringify
                          (JArr (elems ++ [AriGit.entry filePath fileHash]))))]>
              (w_fs w))
       (w_out w)).
Proof.
  intros Hread Hparse.
  unfold AriGit.updateStagingArea, try_catch, bind, readFile, parse, lift, ret,
    writeFile.
  rewrite Hread, Hparse. cbn [AriGit.push].
  apply fs_read_inv in Hread as (k & c & Hres & Hk & _).
  pose proof Hres as Hres'. apply resolve_index_inv in Hres' as [Hrepo ->].
  rewrite (fs_write_file _ _ _ index_key); [reflexivity|exact Hres|reflexivity|].
  rewrite Hk. discriminate.
Qed.

(** ** C8: [commit] when HEAD cannot be read *)

(** C8 as stated fails.  With HEAD missing, reading it fails; [commit]
    reports that and goes on: it stores a record and creates HEAD. *)
Lemma commit_head_unreadable_counterexample :
  let w := scenario_no_head in
  let w' := snd (AriGit.commit 1700000000000 None (js "first") w) in
  let h := js "0dd8fc239826b309c49696d53dd70da3862df332" in
  fs_read (w_fs w) AriGit.headPath = Throw (IOError ENOENT)
  /\ w_out w' = [EvErrorReadingHead (IOError ENOENT); EvCommitted h]
  /\ w_fs w !! object_key h = None
  /\ w_fs w' !! object_key h
     = Some (File (utf8_encode (JSON_stringify
         (AriGit.commitRecord (js "2023-11-14T22:13:20.000Z") (js "first") (JArr [])
            JNull (js "anonymous")))))
  /\ w_fs w !! head_key = None
  /\ w_fs w' !! head_key = Some (File (utf8_encode h)).
Proof. vm_compute. repeat split; reflexivity. Qed.

Lemma fs_read_head_failure fs e :
  fs_read fs AriGit.headPath = Throw e ->
  fs !! [js ".arigit"] = Some Dir ->
  (fs !! head_key = None /\ e = IOError ENOENT)
  \/ (fs !! head_key = Some Dir /\ e = IOError EISDIR).
Proof.
  intros Hread Hrepo. unfold fs_read in Hread.
  rewrite (resolve_head_ok _ Hrepo) in Hread.
  destruct (fs !! head_key) as [[c|]|]; [discriminate| |];
    injection Hread as <-; auto.
Qed.

Lemma commit_writes_head_dir fs out commitData :
  let h := hashObject (JSON_stringify commitData) in
  fs !! [js ".arigit"] = Some Dir ->
  fs !! [js ".arigit"; js "objects"] = Some Dir ->
  fs !! object_key h <> Some Dir ->
  fs !! head_key = Some Dir ->
  commit_writes commitData (World fs out)
  = (Throw (IOError EISDIR),
     World (<[object_key h := File (utf8_encode (JSON_stringify commitData))]> fs) out).
Proof.
  intros h Hrepo Hobjs Hobj Hhead.
  pose proof (hashObject_is_digest (JSON_stringify commitData)) as Hd. fold h in Hd.
  pose proof (keys_distinct h) as (K1 & K2 & K3 & K4 & K5 & K6 & K7 & K8 & K9).
  unfold commit_writes. fold h.
  unfold bind, writeFile, print. cbn [w_fs w_out].
  rewrite (fs_write_file fs _ _ (object_key h)); auto using resolve_object_ok.
  cbn [w_fs w_out]. unfold fs_write.
  rewrite resolve_head_ok by (rewrite lookup_insert_ne; auto).
  change (is_above head_key) with false. cbv iota.
  rewrite lookup_insert_ne, Hhead by auto. reflexivity.
Qed.

(** C8, amended.  When reading HEAD fails, [commit] reports the failed
    read and goes on with [parent = null]: provided the index is valid JSON
    (holding no number) and the object store can take the record, the record
    is stored under its digest, and one more line follows the report.  If
    HEAD does not exist it is then created with that digest and the index is
    reset; if HEAD is a directory the write of HEAD fails, that error is
    reported too, and HEAD and the index stay as they were. *)
Theorem commit_head_unreadable w now user message e text index :
  fs_read (w_fs w) AriGit.headPath = Throw e ->
  fs_read (w_fs w) AriGit.indexPath = Ok text ->
  JSON_parse text = Some index ->
  number_free index = true ->
  let commitData :=
    AriGit.commitRecord (toISOString now) message index JNull
      (AriGit.username_or_anonymous user) in
  let h := hashObject (JSON_stringify commitData) in
  w_fs w !! [js ".arigit"; js "objects"] = Some Dir ->
  w_fs w !! object_key h <> Some Dir ->
  let w' := snd (AriGit.commit now user message w) in
  get_prop (Some commitData) (js "parent") = Ok (Some JNull)
  /\ (exists final, w_out w' = w_out w ++ [EvErrorReadingHead e; final])
  /\ w_fs w' !! object_key h
     = Some (File (utf8_encode (JSON_stringify commitData)))
  /\ (w_fs w !! head_key = None ->
      AriGit.commit now user message w
      = (Ok tt, World (committed (w_fs w) commitData)
                  (w_out w ++ [EvErrorReadingHead e; EvCommitted h])))
  /\ (w_fs w !! head_key = Some Dir ->
      AriGit.commit now user message w
      = (Ok tt,
         World (<[object_key h :=
                   File (utf8_encode (JSON_stringify commitData))]> (w_fs w))
           (w_out w ++ [EvErrorReadingHead e;
                        EvErrorCommitting (IOError EISDIR)]))).
Proof.
  intros Hhead Hread Hparse _ commitData h Hobjs Hobj w'.
  pose proof Hread as Hr. apply fs_read_inv in Hr as (k & c & Hres & Hk & _).
  pose proof Hres as Hres'. apply resolve_index_inv in Hres' as [Hrepo ->].
  pose proof (keys_distinct h) as (K1 & K2 & K3 & _).
  assert (forall A B (x : A) (y z : B) (l : list B),
            (l ++ [y]) ++ [z] = l ++ [y; z]) as Happ
    by (intros; rewrite <- app_assoc; reflexivity).
  unfold w'.
  rewrite (commit_run _ _ _ _ _ _ Hread Hparse), getCurrentHead_run, Hhead.
  cbn [AriGit.or_null]. fold commitData.
  split; [reflexivity|].
  destruct (fs_read_head_failure _ _ Hhead Hrepo) as [[Hnone _]|[Hdir _]].
  - rewrite commit_writes_ok; auto; fold h;
      [|rewrite Hnone; discriminate|rewrite Hk; discriminate].
    cbn [snd w_fs w_out]. rewrite (Happ unit); [|exact tt].
    split; [eexists; reflexivity|]. split; [|split].
    + unfold committed. fold h. rewrite !lookup_insert_ne by auto.
      apply lookup_insert_eq.
    + reflexivity.
    + rewrite Hnone. discriminate.
  - rewrite commit_writes_head_dir; auto; fold h.
    cbn [snd w_fs w_out]. rewrite (Happ unit); [|exact tt].
    split; [eexists; reflexivity|]. split; [|split].
    + apply lookup_insert_eq.
    + rewrite Hdir. discriminate.
    + reflexivity.
Qed.

(** ** C10: an index that is JSON but not a sequence *)

(** C10 as stated fails.  An index that holds the JSON object [{}] does not
    decode as a sequence, yet [commit] stores a record (with that object as
    [files]), moves HEAD and rewrites the index. *)
Lemma commit_non_sequence_index_counterexample :
  let w := scenario_object_index in
  let w' := snd (AriGit.commit 1700000000000 None (js "first") w) in
  let h := js "7318ad868825c9b51a4993c07ce347c87958630d" in
  w_fs w !! index_key = Some (File (bytes_of "{}"))
  /\ JSON_parse (utf8_decode (bytes_of "{}")) = Some (JObj [])
  /\ w_out w' = [EvCommitted h]
  /\ w_fs w !! object_key h = None
  /\ w_fs w' !! object_key h
     = Some (File (utf8_encode (JSON_stringify
         (AriGit.commitRecord (js "2023-11-14T22:13:20.000Z") (js "first") (JObj [])
            JNull (js "anonymous")))))
  /\ w_fs w !! head_key = Some (File [])
  /\ w_fs w' !! head_key = Some (File (utf8_encode h))
  /\ w_fs w' !! index_key = Some (File (bytes_of "[]")).
Proof. vm_compute. repeat split; reflexivity. Qed.

(** ** C7: the diff of a text with itself *)

Lemma diff_script_same l : diff_script l l = map Keep l.
Proof.
  induction l as [|x l IH]; [reflexivity|].
  cbn [diff_script]. rewrite jsstring_eqb_refl, IH. reflexivity.
Qed.

Lemma runs_all_kept l keep :
  runs (map Keep l) keep [] [] = flush_keep (keep ++ concat l).
Proof.
  revert keep. induction l as [|x l IH]; intros keep; cbn [map runs concat].
  - rewrite app_nil_r. unfold flush_gap. rewrite app_nil_r. reflexivity.
  - rewrite IH, <- app_assoc. reflexivity.
Qed.

Lemma lines_concat t : concat (lines t) = t.
Proof.
  induction t as [|c r IH]; [reflexivity|]. cbn [lines].
  destruct (c =? 10).
  - cbn [concat app]. rewrite IH. reflexivity.
  - destruct (lines r) as [|l ls] eqn:Hl.
    + cbn in IH. subst r. reflexivity.
    + cbn [concat app] in *. rewrite IH. reflexivity.
Qed.

Lemma diffLines_same t : diffLines t t = flush_keep t.
Proof.
  unfold diffLines. rewrite diff_script_same, runs_all_kept, lines_concat.
  reflexivity.
Qed.

(** C7.  The diff of a text with itself has only [Unchanged] segments, and
    their texts put together are the text; [showCommitDiff] prints each of
    them as unchanged. *)
Theorem diffLines_same_unchanged t :
  Forall (fun part => seg_kind part = Unchanged) (diffLines t t)
  /\ concat (map seg_text (diffLines t t)) = t
  /\ Forall (fun ev => exists text, ev = EvDiffSame text)
       (map AriGit.render (diffLines t t)).
Proof.
  rewrite diffLines_same. destruct t as [|c r]; cbn.
  - repeat split; constructor.
  - rewrite app_nil_r. repeat split; repeat constructor. eauto.
Qed.

(** ** C6: which entry of the parent [showCommitDiff] compares with *)

(** C6 as stated fails.  The parent commit lists [a.txt] twice, first with
    the blob [one], last with the blob [two]; the diff shown for [a.txt] is
    the one against [one]. *)
Lemma show_uses_first_entry_counterexample :
  let fs := w_fs scenario_duplicates in
  let a := js "a.txt" in
  let one := js "fe05bcdcdc4928012781a5f1a2a77cbb5398e106" in
  let two := js "ad782ecdac770fc6eb9a62e44f90873fb97fb26b" in
  let first := js "2812372a98353d80758d0a4bff062fd12d30ecc1" in
  let second := js "085227d4561aae74f7ca05b5246aa31a3f8029e3" in
  let files := [AriGit.entry a one; AriGit.entry a two] in
  match fs_read fs (path_join AriGit.objectsPath second) with
  | Ok text => JSON_parse text
  | Throw _ => None
  end
  = Some (AriGit.commitRecord (js "2023-11-14T22:13:21.000Z") (js "second")
            (JArr [AriGit.entry a (js "b802f384302cb24fbab0a44997e820bf2e8507bb")])
            (JStr first) (js "anonymous"))
  /\ match fs_read fs (path_join AriGit.objectsPath first) with
     | Ok text => JSON_parse text
     | Throw _ => None
     end
     = Some (AriGit.commitRecord (js "2023-11-14T22:13:20.000Z") (js "first")
               (JArr files) JNull (js "anonymous"))
  /\ find_last_file files (Some (JStr a)) = Some (AriGit.entry a two)
  /\ fs_read fs (path_join AriGit.objectsPath one) = Ok (js "one")
  /\ fs_read fs (path_join AriGit.objectsPath two) = Ok (js "two")
  /\ w_out (snd (AriGit.showCommitDiff second (World fs [])))
     = [EvChanges; EvFile (Some (JStr a)); EvContent (js "three"); EvDiffHeader]
         ++ map AriGit.render (diffLines (js "one") (js "three"))
  /\ diffLines (js "one") (js "three") <> diffLines (js "two") (js "three").
Proof. vm_compute. repeat split; try reflexivity. discriminate. Qed.


Lemma find_file_first before file after filePath :
  Forall (fun x => exists p, get_prop (Some x) (js "path") = Ok p
                             /\ strict_eq p filePath = false) before ->
  has_path filePath file = true ->
  AriGit.find_file (before ++ file :: after) filePath = Ok (Some file).
Proof.
  intros Hbefore Hfile.
  induction Hbefore as [|x before (p & Hp & Hne) _ IH]; cbn [app AriGit.find_file].
  - unfold has_path in Hfile.
    destruct (get_prop (Some file) (js "path")) as [p|]; [|discriminate].
    rewrite Hfile. reflexivity.
  - rewrite Hp, Hne. exact IH.
Qed.

Lemma for_each_print {A} (f : A -> event) (l : list A) w :
  AriGit.for_each (fun x => print (f x)) l w
  = (Ok tt, World (w_fs w) (w_out w ++ map f l)).
Proof.
  revert w. induction l as [|x l IH]; intros [fs out]; cbn [AriGit.for_each map].
  - unfold ret. rewrite app_nil_r. reflexivity.
  - unfold bind, print at 1. cbn [w_fs w_out]. rewrite IH. cbn [w_fs w_out].
    rewrite <- app_assoc. reflexivity.
Qed.

Lemma strict_eq_string p s :
  strict_eq p (Some (JStr s)) = true <-> p = Some (JStr s).
Proof.
  destruct p as [[| | |x| |]|]; cbn [strict_eq]; try (split; congruence).
  rewrite jsstring_eqb_eq. split; congruence.
Qed.

(** C6, amended.  When the parent commit lists the path (a string) more
    than once, the diff shown for the path is the one against the blob of
    the first entry with that path, whatever comes after it. *)
Theorem show_diffs_against_first_entry
    w commitData file (filePath : jsstring) fileHash content
    parentHash parentText parentCommitData before parentFile after oldHash old :
  get_prop (Some file) (js "path") = Ok (Some (JStr filePath)) ->
  get_prop (Some file) (js "hash") = Ok (Some (JStr fileHash)) ->
  fs_read (w_fs w) (path_join AriGit.objectsPath fileHash) = Ok content ->
  get_prop (Some commitData) (js "parent") = Ok (Some (JStr parentHash)) ->
  parentHash <> [] ->
  fs_read (w_fs w) (path_join AriGit.objectsPath parentHash) = Ok parentText ->
  JSON_parse parentText = Some parentCommitData ->
  get_prop (Some parentCommitData) (js "files")
  = Ok (Some (JArr (before ++ parentFile :: after))) ->
  Forall (fun x => exists p, get_prop (Some x) (js "path") = Ok p
                             /\ p <> Some (JStr filePath)) before ->
  get_prop (Some parentFile) (js "path") = Ok (Some (JStr filePath)) ->
  get_prop (Some parentFile) (js "hash") = Ok (Some (JStr oldHash)) ->
  fs_read (w_fs w) (path_join AriGit.objectsPath oldHash) = Ok old ->
  AriGit.show_file commitData file w
  = (Ok tt,
     World (w_fs w)
       (w_out w ++ [EvFile (Some (JStr filePath)); EvContent content; EvDiffHeader]
          ++ map AriGit.render (diffLines old content))).
Proof.
  intros Hpath Hhash Hcontent Hparent Hne Hptext Hparse Hfiles Hbefore' Hmatch'
    Hold Holdc.
  assert (Forall (fun x => exists p, get_prop (Some x) (js "path") = Ok p
                                     /\ strict_eq p (Some (JStr filePath)) = false)
            before) as Hbefore.
  { eapply Forall_impl; [exact Hbefore'|]. intros x (p & Hp & Hpne). exists p.
    split; [exact Hp|]. apply not_true_is_false. rewrite strict_eq_string.
    exact Hpne. }
  assert (has_path (Some (JStr filePath)) parentFile = true) as Hmatch.
  { unfold has_path. rewrite Hmatch'. apply strict_eq_string. reflexivity. }
  assert (truthy (Some parentFile) = true) as Htruthy.
  { destruct parentFile; try discriminate. reflexivity. }
  assert (truthy (Some (JStr parentHash)) = true) as Htp.
  { cbn. rewrite jsstring_eqb_neq by exact Hne. reflexivity. }
  destruct w as [fs out]. cbn [w_fs w_out] in *.
  unfold AriGit.show_file.
  unfold bind at 1, lift at 1. rewrite Hpath.
  unfold bind at 1, print at 1. cbn [w_fs w_out].
  unfold bind at 1, lift at 1. rewrite Hhash.
  unfold bind at 1, AriGit.getFileContent at 1, bind at 1, join_value at 1, ret at 1,
    readFile at 1.
  cbn [w_fs w_out]. rewrite Hcontent.
  unfold bind at 1, print at 1. cbn [w_fs w_out].
  unfold bind at 1, lift at 1. rewrite Hparent, Htp.
  unfold bind at 1, AriGit.getCommitData, try_catch, bind at 1 2, join_value, ret,
    readFile.
  cbn [w_fs w_out]. rewrite Hptext.
  unfold bind at 1, parse. rewrite Hparse. unfold ret.
  unfold bind at 1, AriGit.getParentFileContent, bind at 1, lift at 1.
  rewrite Hfiles.
  unfold bind at 1, lift at 1. rewrite (find_file_first _ _ _ _ Hbefore Hmatch).
  rewrite Htruthy.
  unfold bind at 1, lift at 1. rewrite Hold.
  unfold bind at 1, AriGit.getFileContent, bind at 1, join_value, ret, readFile.
  cbn [w_fs w_out]. rewrite Holdc.
  unfold bind at 1, print at 1. cbn [w_fs w_out].
  rewrite for_each_print. cbn [w_fs w_out].
  rewrite <- !app_assoc. reflexivity.
Qed.

(** ** UTF-8: encoding after decoding, on well-formed bytes *)

Ltac Zify.zify_post_hook ::= Z.to_euclidean_division_equations.

Lemma in_range_spec lo hi x : in_range lo hi x = true <-> lo <= x <= hi.
Proof. unfold in_range. rewrite andb_true_iff, !N.leb_le. reflexivity. Qed.

Lemma in_range_false lo hi x : in_range lo hi x = false <-> x < lo \/ hi < x.
Proof.
  unfold in_range. rewrite andb_false_iff, !N.leb_gt. reflexivity.
Qed.

Ltac brange :=
  repeat match goal with
    | H : in_range _ _ _ = true |- _ => apply in_range_spec in H
    | H : in_range _ _ _ = false |- _ => apply in_range_false in H
    | H : is_cont _ = true |- _ => apply in_range_spec in H
    | H : is_cont _ = false |- _ => apply in_range_false in H
    | H : is_high _ = true |- _ => apply in_range_spec in H
    | H : is_high _ = false |- _ => apply in_range_false in H
    | H : is_low _ = true |- _ => apply in_range_spec in H
    | H : is_low _ = false |- _ => apply in_range_false in H
    | H : (_ <? _) = true |- _ => apply N.ltb_lt in H
    | H : (_ <? _) = false |- _ => apply N.ltb_ge in H
    | H : (_ =? _) = true |- _ => apply N.eqb_eq in H
    | H : (_ =? _) = false |- _ => apply N.eqb_neq in H
    | H : _ && _ = true |- _ => apply andb_true_iff in H as [? ?]
    end.

Lemma second_bounds b1 :
  (b1 = 0xE0 /\ second_lo b1 = 0xA0 /\ second_hi b1 = 0xBF)
  \/ (b1 = 0xED /\ second_lo b1 = 0x80 /\ second_hi b1 = 0x9F)
  \/ (b1 = 0xF0 /\ second_lo b1 = 0x90 /\ second_hi b1 = 0xBF)
  \/ (b1 = 0xF4 /\ second_lo b1 = 0x80 /\ second_hi b1 = 0x8F)
  \/ (b1 <> 0xE0 /\ b1 <> 0xED /\ b1 <> 0xF0 /\ b1 <> 0xF4
      /\ second_lo b1 = 0x80 /\ second_hi b1 = 0xBF).
Proof.
  unfold second_lo, second_hi.
  destruct (N.eqb_spec b1 0xE0); [subst; left; auto|].
  destruct (N.eqb_spec b1 0xED); [subst; right; left; auto|].
  destruct (N.eqb_spec b1 0xF0); [subst; right; right; left; auto|].
  destruct (N.eqb_spec b1 0xF4); [subst; right; right; right; left; auto|].
  right; right; right; right. repeat split; auto.
Qed.

Lemma enc2_cp2 b1 b2 :
  0xC2 <= b1 <= 0xDF -> 0x80 <= b2 <= 0xBF ->
  0x80 <= cp2 b1 b2 < 0x800 /\ enc2 (cp2 b1 b2) = [b1; b2].
Proof.
  intros H1 H2. unfold enc2, cp2. split; [lia|]. f_equal; [|f_equal]; lia.
Qed.

Lemma enc3_cp3 b1 b2 b3 :
  0xE0 <= b1 <= 0xEF -> second_lo b1 <= b2 <= second_hi b1 -> 0x80 <= b3 <= 0xBF ->
  0x800 <= cp3 b1 b2 b3 < 0x10000
  /\ (cp3 b1 b2 b3 < 0xD800 \/ 0xDFFF < cp3 b1 b2 b3)
  /\ enc3 (cp3 b1 b2 b3) = [b1; b2; b3].
Proof.
  intros H1 H2 H3. unfold enc3, cp3.
  destruct (second_bounds b1) as
    [(E & L & U)|[(E & L & U)|[(E & L & U)|[(E & L & U)|(N1 & N2 & N3 & N4 & L & U)]]]];
    rewrite L, U in H2; (split; [lia|split; [lia|]]);
    (f_equal; [|f_equal; [|f_equal]]); lia.
Qed.

Lemma enc4_cp4 b1 b2 b3 b4 :
  0xF0 <= b1 <= 0xF4 -> second_lo b1 <= b2 <= second_hi b1 ->
  0x80 <= b3 <= 0xBF -> 0x80 <= b4 <= 0xBF ->
  0x10000 <= cp4 b1 b2 b3 b4 < 0x110000
  /\ enc4 (cp4 b1 b2 b3 b4) = [b1; b2; b3; b4].
Proof.
  intros H1 H2 H3 H4. unfold enc4, cp4.
  destruct (second_bounds b1) as
    [(E & L & U)|[(E & L & U)|[(E & L & U)|[(E & L & U)|(N1 & N2 & N3 & N4 & L & U)]]]];
    rewrite L, U in H2; (split; [lia|]);
    (f_equal; [|f_equal; [|f_equal; [|f_equal]]]); lia.
Qed.

Lemma surrogates_pair cp :
  0x10000 <= cp < 0x110000 ->
  exists hi lo, surrogates cp = [hi; lo]
                /\ 0xD800 <= hi <= 0xDBFF /\ 0xDC00 <= lo <= 0xDFFF
                /\ pair_cp hi lo = cp.
Proof.
  intros H. eexists _, _. split; [reflexivity|]. unfold pair_cp. lia.
Qed.

Lemma utf8_encode_decode_N bs :
  utf8_valid_N bs = true -> utf8_encode_N (utf8_decode_N bs) = bs.
Proof.
  remember (length bs) as n eqn:Hn. revert bs Hn.
  induction n as [n IH] using lt_wf_ind. intros bs Hn Hv.
  destruct bs as [|b1 t1]; [reflexivity|].
  cbn [utf8_valid_N utf8_decode_N] in *.
  destruct (b1 <? 0x80) eqn:H1.
  { cbn [utf8_encode_N]. rewrite H1. f_equal.
    apply (IH (length t1)); [simpl in Hn; lia|reflexivity|exact Hv]. }
  destruct (in_range 0xC2 0xDF b1) eqn:H2.
  { destruct t1 as [|b2 t2]; [discriminate|].
    apply andb_true_iff in Hv as [Hc Hv]. rewrite Hc. brange.
    destruct (enc2_cp2 b1 b2) as [Hu He]; [lia|lia|].
    cbn [utf8_encode_N].
    destruct (N.ltb_spec (cp2 b1 b2) 0x80); [lia|].
    destruct (N.ltb_spec (cp2 b1 b2) 0x800); [|lia].
    rewrite He. cbn [app]. do 2 f_equal.
    apply (IH (length t2)); [simpl in Hn; lia|reflexivity|exact Hv]. }
  destruct (in_range 0xE0 0xEF b1) eqn:H3.
  { destruct t1 as [|b2 [|b3 t3]]; [discriminate|discriminate|].
    apply andb_true_iff in Hv as [Hv Hv3].
    apply andb_true_iff in Hv as [Hc2 Hc3]. rewrite Hc2, Hc3. brange.
    destruct (enc3_cp3 b1 b2 b3) as (Hu & Hs & He); [lia|lia|lia|].
    cbn [utf8_encode_N].
    destruct (N.ltb_spec (cp3 b1 b2 b3) 0x80); [lia|].
    destruct (N.ltb_spec (cp3 b1 b2 b3) 0x800); [lia|].
    destruct (is_high (cp3 b1 b2 b3)) eqn:Hh; [brange; lia|].
    destruct (is_low (cp3 b1 b2 b3)) eqn:Hl; [brange; lia|].
    rewrite He. cbn [app]. do 3 f_equal.
    apply (IH (length t3)); [simpl in Hn; lia|reflexivity|exact Hv3]. }
  destruct (in_range 0xF0 0xF4 b1) eqn:H4; [|discriminate].
  destruct t1 as [|b2 [|b3 [|b4 t4]]]; try discriminate.
  apply andb_true_iff in Hv as [Hv Hv4].
  apply andb_true_iff in Hv as [Hv Hc4].
  apply andb_true_iff in Hv as [Hc2 Hc3]. rewrite Hc2, Hc3, Hc4. brange.
  destruct (enc4_cp4 b1 b2 b3 b4) as (Hu & He); [lia|lia|lia|lia|].
  destruct (surrogates_pair _ Hu) as (hi & lo & Hsur & Hhi & Hlo & Hpair).
  rewrite Hsur. cbn [app utf8_encode_N].
  destruct (N.ltb_spec hi 0x80); [lia|].
  destruct (N.ltb_spec hi 0x800); [lia|].
  destruct (is_high hi) eqn:Hh; [|brange; lia].
  destruct (is_low lo) eqn:Hl; [|brange; lia].
  rewrite Hpair, He. cbn [app]. do 4 f_equal.
  apply (IH (length t4)); [simpl in Hn; lia|reflexivity|exact Hv4].
Qed.

Lemma byte_of_to_N b : byte_of_N (Byte.to_N b) = b.
Proof.
  unfold byte_of_N. pose proof (Byte.to_N_bounded b) as Hb.
  rewrite N.mod_small by lia. rewrite Byte.of_to_N. reflexivity.
Qed.

Lemma bytes_of_to_N bs : bytes_of_N (N_of_bytes bs) = bs.
Proof.
  unfold bytes_of_N, N_of_bytes. rewrite map_map.
  induction bs as [|b bs IH]; cbn [map]; [reflexivity|].
  rewrite byte_of_to_N, IH. reflexivity.
Qed.

(** Well-formed UTF-8 survives decoding and encoding unchanged. *)
Lemma utf8_encode_decode bs :
  utf8_valid bs = true -> utf8_encode (utf8_decode bs) = bs.
Proof.
  intros Hv. unfold utf8_encode, utf8_decode.
  rewrite utf8_encode_decode_N by exact Hv. apply bytes_of_to_N.
Qed.

(** ** C1: what [add] stores, and under which digest *)

Lemma updateStagingArea_other_keys w filePath fileHash k :
  k <> index_key ->
  w_fs (snd (AriGit.updateStagingArea filePath fileHash w)) !! k = w_fs w !! k.
Proof.
  intros Hk.
  unfold AriGit.updateStagingArea, try_catch, bind, readFile, parse, lift, ret,
    writeFile, print.
  destruct (fs_read (w_fs w) AriGit.indexPath) as [text|e]; [|reflexivity].
  destruct (JSON_parse text) as [index|]; [|reflexivity].
  destruct (AriGit.push index _) as [index'|e]; [|reflexivity].
  destruct (fs_write false (w_fs w) _ _) as [fs'|e] eqn:W; [|reflexivity].
  apply fs_write_inv in W as (k' & R & _ & ->).
  apply resolve_index_inv in R as [_ ->].
  cbn [snd w_fs]. apply lookup_insert_ne. congruence.
Qed.

Lemma add_run w file fileData :
  fs_read (w_fs w) file = Ok fileData ->
  let h := hashObject fileData in
  w_fs w !! [js ".arigit"] = Some Dir ->
  w_fs w !! [js ".arigit"; js "objects"] = Some Dir ->
  w_fs w !! object_key h <> Some Dir ->
  AriGit.add file w
  = let w1 := World (<[object_key h := File (utf8_encode fileData)]> (w_fs w))
                (w_out w) in
    let w2 := snd (AriGit.updateStagingArea file h w1) in
    (Ok tt, World (w_fs w2) (w_out w2 ++ [EvAdded file])).
Proof.
  intros Hread h Hrepo Hobjs Hobj.
  unfold AriGit.add, try_catch, bind at 1, readFile at 1. rewrite Hread.
  fold h. unfold bind at 1, writeFile at 1.
  rewrite (fs_write_file _ _ _ (object_key h));
    [|apply resolve_object_ok; [apply hashObject_is_digest|assumption..]
     |reflexivity|assumption].
  unfold bind at 1.
  assert (forall w1, exists w2, AriGit.updateStagingArea file h w1 = (Ok tt, w2))
    as Hstage.
  { intros w1.
    unfold AriGit.updateStagingArea, try_catch, print.
    destruct (bind _ _ w1) as [[[]|e] w2]; eauto. }
  match goal with |- context [AriGit.updateStagingArea file h ?w1] =>
    destruct (Hstage w1) as [w2 ->] end.
  reflexivity.
Qed.

(** C1 as stated fails.  A file that holds the single byte FF is added
    without error, yet no object exists under the digest of that byte, and
    reading under that digest fails: what was stored is the three bytes of
    U+FFFD, under their own digest. *)
Lemma add_binary_counterexample :
  let c := [xff] in
  let w := scenario_binary in
  let w' := snd (CLI.add (bytes_of "b.bin") w) in
  let d := hex (SHA1.digest c) in
  w_fs w !! [js "b.bin"] = Some (File c)
  /\ w_out w' = w_out w ++ [EvAdded (js "b.bin")]
  /\ w_fs w' !! object_key d = None
  /\ fst (AriGit.getFileContent (Some (JStr d)) w') = Throw (IOError ENOENT)
  /\ hashObject (utf8_decode c) <> d
  /\ w_fs w' !! object_key (hashObject (utf8_decode c)) = Some (File [xef; xbf; xbd]).
Proof. vm_compute. repeat split; try reflexivity. discriminate. Qed.

(** C1, amended.  For every file whose bytes [c] are well-formed UTF-8,
    in a repository whose object store can take it, [add] stores exactly [c]
    under the digest of [c], forty hexadecimal characters for the twenty
    bytes of SHA-1, and reading the object under that digest gives the text
    of [c] back. *)
Theorem add_stores_under_digest w file k c :
  utf8_valid c = true ->
  resolve (w_fs w) file = Ok k ->
  w_fs w !! k = Some (File c) ->
  let d := hex (SHA1.digest c) in
  w_fs w !! [js ".arigit"] = Some Dir ->
  w_fs w !! [js ".arigit"; js "objects"] = Some Dir ->
  w_fs w !! object_key d <> Some Dir ->
  let w' := snd (AriGit.add file w) in
  length (SHA1.digest c) = 20%nat
  /\ is_digest d
  /\ hashObject (utf8_decode c) = d
  /\ w_fs w' !! object_key d = Some (File c)
  /\ AriGit.getFileContent (Some (JStr d)) w' = (Ok (utf8_decode c), w')
  /\ utf8_encode (utf8_decode c) = c.
Proof.
  intros Hv Hres Hk d Hrepo Hobjs Hobj w'.
  pose proof (utf8_encode_decode c Hv) as Hrt.
  assert (hashObject (utf8_decode c) = d) as Hd
    by (unfold hashObject; rewrite Hrt; reflexivity).
  assert (is_digest d) as Hdig by (rewrite <- Hd; apply hashObject_is_digest).
  pose proof (keys_distinct d) as (K1 & K2 & K3 & K4 & K5 & _).
  assert (w_fs w' !! object_key d = Some (File c)
          /\ w_fs w' !! [js ".arigit"] = Some Dir
          /\ w_fs w' !! [js ".arigit"; js "objects"] = Some Dir) as (Hobj' & Hrepo' & Hobjs').
  { unfold w'.
    rewrite (add_run w file (utf8_decode c)); rewrite ?Hd;
      [|apply (fs_read_file _ _ k); assumption|assumption..].
    cbn [snd w_fs].
    rewrite !updateStagingArea_other_keys by (auto; discriminate).
    cbn [w_fs]. rewrite lookup_insert_eq, !lookup_insert_ne by auto.
    rewrite Hrt. auto. }
  split; [apply sha1_digest_length|]. split; [exact Hdig|].
  split; [exact Hd|]. split; [exact Hobj'|]. split; [|exact Hrt].
  unfold AriGit.getFileContent, bind, join_value, ret, readFile.
  rewrite (fs_read_file _ _ (object_key d) c);
    auto using resolve_object_ok.
Qed.

(** ** The theorems at work on the scenarios *)

Lemma add_read_failure_changes_nothing_witness :
  fs_read (w_fs scenario_init) (js "missing.txt") = Throw (IOError ENOENT)
  /\ w_fs (snd (AriGit.add (js "missing.txt") scenario_init)) = w_fs scenario_init.
Proof.
  assert (fs_read (w_fs scenario_init) (js "missing.txt") = Throw (IOError ENOENT))
    as H by (vm_compute; reflexivity).
  split; [exact H|].
  exact (proj2 (add_read_failure_changes_nothing scenario_init (js "missing.txt")
                  (IOError ENOENT) H)).
Defined.

Lemma commit_invalid_index_changes_nothing_witness :
  fs_read (w_fs scenario_broken_index) AriGit.indexPath = Ok (js "[{")
  /\ JSON_parse (js "[{") = None
  /\ AriGit.commit 1700000000000 None (js "first") scenario_broken_index
     = (Ok tt, World (w_fs scenario_broken_index)
                 (w_out scenario_broken_index ++ [EvErrorCommitting SyntaxError])).
Proof.
  assert (fs_read (w_fs scenario_broken_index) AriGit.indexPath = Ok (js "[{"))
    as H1 by (vm_compute; reflexivity).
  assert (JSON_parse (js "[{") = None) as H2 by (vm_compute; reflexivity).
  split; [exact H1|]. split; [exact H2|].
  exact (commit_invalid_index_changes_nothing scenario_broken_index 1700000000000
           None (js "first") (js "[{") H1 H2).
Defined.

(** ** UTF-8: decoding after encoding, on well-formed strings *)

Lemma ltb_false_ge a b : b <= a -> (a <? b) = false.
Proof. intros. apply N.ltb_ge. assumption. Qed.

Lemma in_range_true lo hi x : lo <= x <= hi -> in_range lo hi x = true.
Proof. apply in_range_spec. Qed.

Lemma in_range_out lo hi x : x < lo \/ hi < x -> in_range lo hi x = false.
Proof. apply in_range_false. Qed.

Lemma decode_enc2 u rest :
  0x80 <= u < 0x800 ->
  utf8_decode_N (enc2 u ++ rest) = u :: utf8_decode_N rest.
Proof.
  intros Hu. unfold enc2. cbn [app utf8_decode_N].
  rewrite ltb_false_ge by lia.
  rewrite (in_range_true 0xC2 0xDF) by lia.
  unfold is_cont. rewrite in_range_true by lia.
  f_equal. unfold cp2. lia.
Qed.

Lemma decode_enc3 u rest :
  0x800 <= u < 0x10000 -> is_high u = false -> is_low u = false ->
  utf8_decode_N (enc3 u ++ rest) = u :: utf8_decode_N rest.
Proof.
  intros Hu Hh Hl. brange. unfold enc3. cbn [app utf8_decode_N].
  rewrite ltb_false_ge by lia.
  rewrite (in_range_out 0xC2 0xDF) by lia.
  rewrite (in_range_true 0xE0 0xEF) by lia.
  assert (in_range (second_lo (0xE0 + u / 4096)) (second_hi (0xE0 + u / 4096))
            (0x80 + (u / 64) mod 64) = true) as ->.
  { apply in_range_true.
    destruct (second_bounds (0xE0 + u / 4096)) as
      [(E & L & U)|[(E & L & U)|[(E & L & U)|[(E & L & U)|(N1 & N2 & N3 & N4 & L & U)]]]];
      rewrite L, U; lia. }
  unfold is_cont. rewrite in_range_true by lia.
  f_equal. unfold cp3. lia.
Qed.

Lemma decode_enc4 cp rest :
  0x10000 <= cp < 0x110000 ->
  utf8_decode_N (enc4 cp ++ rest) = surrogates cp ++ utf8_decode_N rest.
Proof.
  intros Hu. unfold enc4. cbn [app utf8_decode_N].
  rewrite ltb_false_ge by lia.
  rewrite (in_range_out 0xC2 0xDF) by lia.
  rewrite (in_range_out 0xE0 0xEF) by lia.
  rewrite (in_range_true 0xF0 0xF4) by lia.
  assert (in_range (second_lo (0xF0 + cp / 262144)) (second_hi (0xF0 + cp / 262144))
            (0x80 + (cp / 4096) mod 64) = true) as ->.
  { apply in_range_true.
    destruct (second_bounds (0xF0 + cp / 262144)) as
      [(E & L & U)|[(E & L & U)|[(E & L & U)|[(E & L & U)|(N1 & N2 & N3 & N4 & L & U)]]]];
      rewrite L, U; lia. }
  unfold is_cont. rewrite !in_range_true by lia.
  do 2 f_equal. unfold cp4. lia.
Qed.

Lemma surrogates_pair_cp hi lo :
  is_high hi = true -> is_low lo = true ->
  0x10000 <= pair_cp hi lo < 0x110000 /\ surrogates (pair_cp hi lo) = [hi; lo].
Proof.
  intros Hh Hl. brange. unfold surrogates, pair_cp. split; [lia|].
  f_equal; [|f_equal]; lia.
Qed.

Lemma utf8_decode_encode_N s :
  wf_utf16 s -> utf8_decode_N (utf8_encode_N s) = s.
Proof.
  induction 1 as [|u s Hu Hh Hl _ IH|hi lo s Hh Hl _ IH]; [reflexivity| |].
  - cbn [utf8_encode_N]. rewrite Hh, Hl.
    destruct (N.ltb_spec u 0x80).
    { cbn [utf8_decode_N]. destruct (N.ltb_spec u 0x80); [|lia].
      rewrite IH. reflexivity. }
    destruct (N.ltb_spec u 0x800).
    { rewrite decode_enc2, IH by lia. reflexivity. }
    rewrite decode_enc3, IH by (auto; lia). reflexivity.
  - cbn [utf8_encode_N]. rewrite Hh, Hl.
    destruct (surrogates_pair_cp hi lo Hh Hl) as [Hcp Hs]. brange.
    rewrite ltb_false_ge by lia. rewrite ltb_false_ge by lia.
    rewrite decode_enc4, Hs, IH by exact Hcp. reflexivity.
Qed.

Lemma utf8_encode_N_bytes s :
  wf_utf16 s -> Forall (fun b => b < 256) (utf8_encode_N s).
Proof.
  induction 1 as [|u s Hu Hh Hl _ IH|hi lo s Hh Hl _ IH]; [constructor| |].
  - cbn [utf8_encode_N]. rewrite Hh, Hl.
    destruct (N.ltb_spec u 0x80); [constructor; [lia|exact IH]|].
    destruct (N.ltb_spec u 0x800).
    { unfold enc2. cbn [app]. repeat constructor; try lia. exact IH. }
    unfold enc3. cbn [app]. repeat constructor; try lia. exact IH.
  - cbn [utf8_encode_N]. rewrite Hh, Hl.
    destruct (surrogates_pair_cp hi lo Hh Hl) as [Hcp Hs]. brange.
    rewrite ltb_false_ge by lia. rewrite ltb_false_ge by lia.
    unfold enc4. cbn [app]. repeat constructor; try lia. exact IH.
Qed.

Lemma to_N_byte_of_N n : n < 256 -> Byte.to_N (byte_of_N n) = n.
Proof.
  intros Hn. unfold byte_of_N. rewrite N.mod_small by exact Hn.
  destruct (Byte.of_N n) as [b|] eqn:Hb.
  - apply Byte.to_of_N. exact Hb.
  - apply Byte.of_N_None_iff in Hb. lia.
Qed.

Lemma N_of_bytes_of_N l :
  Forall (fun b => b < 256) l -> N_of_bytes (bytes_of_N l) = l.
Proof.
  unfold N_of_bytes, bytes_of_N.
  induction 1 as [|b l Hb _ IH]; cbn [map]; [reflexivity|].
  rewrite to_N_byte_of_N by exact Hb. f_equal. exact IH.
Qed.

(** A well-formed string survives encoding and decoding unchanged. *)
Lemma utf8_decode_encode s : wf_utf16 s -> utf8_decode (utf8_encode s) = s.
Proof.
  intros Hs. unfold utf8_decode, utf8_encode.
  rewrite N_of_bytes_of_N by (apply utf8_encode_N_bytes; exact Hs).
  apply utf8_decode_encode_N. exact Hs.
Qed.

Lemma wf_utf16_app a b : wf_utf16 a -> wf_utf16 b -> wf_utf16 (a ++ b).
Proof.
  induction 1 as [|u s Hu Hh Hl _ IH|hi lo s Hh Hl _ IH]; intros Hb; cbn [app].
  - exact Hb.
  - apply wf_unit; auto.
  - apply wf_pair; auto.
Qed.

Lemma wf_utf16_units s : wf_utf16 s -> units16 s = true.
Proof.
  unfold units16.
  induction 1 as [|u s Hu Hh Hl _ IH|hi lo s Hh Hl _ IH]; cbn [forallb];
    [reflexivity| |].
  - rewrite IH. destruct (N.ltb_spec u 0x10000); [reflexivity|lia].
  - rewrite IH. brange.
    destruct (N.ltb_spec hi 0x10000); [|lia].
    destruct (N.ltb_spec lo 0x10000); [reflexivity|lia].
Qed.

(** Whatever the bytes, decoding gives a well-formed string. *)
Lemma utf8_decode_N_wf bs : wf_utf16 (utf8_decode_N bs).
Proof.
  remember (length bs) as n eqn:Hn. revert bs Hn.
  induction n as [n IH] using lt_wf_ind. intros bs Hn.
  assert (forall t, (length t < n)%nat -> wf_utf16 (utf8_decode_N t)) as IH'
    by (intros t Ht; apply (IH (length t) Ht t eq_refl)).
  assert (forall t, (length t < n)%nat -> wf_utf16 (0xFFFD :: utf8_decode_N t))
    as Hrep by (intros t Ht; apply wf_unit; [lia|reflexivity|reflexivity|auto]).
  assert (wf_utf16 [0xFFFD]) as Hrep0
    by (apply wf_unit; [lia|reflexivity|reflexivity|constructor]).
  destruct bs as [|b1 t1]; [constructor|]. cbn [utf8_decode_N length] in *.
  destruct (b1 <? 0x80) eqn:H1.
  { brange. apply wf_unit; [lia|apply in_range_out; lia|apply in_range_out; lia|].
    apply IH'. lia. }
  destruct (in_range 0xC2 0xDF b1) eqn:H2.
  { destruct t1 as [|b2 t2]; [exact Hrep0|]. cbn [length] in *.
    destruct (is_cont b2) eqn:Hc; [|apply Hrep; simpl; lia].
    brange. destruct (enc2_cp2 b1 b2) as [Hu _]; [lia|lia|].
    apply wf_unit; [lia|apply in_range_out; lia|apply in_range_out; lia|].
    apply IH'. lia. }
  destruct (in_range 0xE0 0xEF b1) eqn:H3.
  { destruct t1 as [|b2 t2]; [exact Hrep0|]. cbn [length] in *.
    destruct (in_range _ _ b2) eqn:Hc2; [|apply Hrep; simpl; lia].
    destruct t2 as [|b3 t3]; [exact Hrep0|]. cbn [length] in *.
    destruct (is_cont b3) eqn:Hc3; [|apply Hrep; simpl; lia].
    brange. destruct (enc3_cp3 b1 b2 b3) as (Hu & Hs & _); [lia|lia|lia|].
    apply wf_unit; [lia|apply in_range_out; lia|apply in_range_out; lia|].
    apply IH'. lia. }
  destruct (in_range 0xF0 0xF4 b1) eqn:H4; [|apply Hrep; lia].
  destruct t1 as [|b2 t2]; [exact Hrep0|]. cbn [length] in *.
  destruct (in_range _ _ b2) eqn:Hc2; [|apply Hrep; simpl; lia].
  destruct t2 as [|b3 t3]; [exact Hrep0|]. cbn [length] in *.
  destruct (is_cont b3) eqn:Hc3; [|apply Hrep; simpl; lia].
  destruct t3 as [|b4 t4]; [exact Hrep0|]. cbn [length] in *.
  destruct (is_cont b4) eqn:Hc4; [|apply Hrep; simpl; lia].
  brange. destruct (enc4_cp4 b1 b2 b3 b4) as (Hu & _); [lia|lia|lia|lia|].
  destruct (surrogates_pair _ Hu) as (hi & lo & Hsur & Hhi & Hlo & _).
  rewrite Hsur. cbn [app].
  apply wf_pair; [apply in_range_true; lia|apply in_range_true; lia|].
  apply IH'. lia.
Qed.

Lemma utf8_decode_wf bs : wf_utf16 (utf8_decode bs).
Proof. apply utf8_decode_N_wf. Qed.

(** ** JSON: what is printed is read back *)

Lemma lex_run_silent m c m' r :
  lex_step m c = Some (m', []) -> lex_run m (c :: r) = lex_run m' r.
Proof.
  intros H. cbn [lex_run]. rewrite H. destruct (lex_run m' r); reflexivity.
Qed.

Lemma lex_run_emit m c m' t r :
  lex_step m c = Some (m', [t]) ->
  lex_run m (c :: r) = option_map (cons t) (lex_run m' r).
Proof.
  intros H. cbn [lex_run]. rewrite H. destruct (lex_run m' r); reflexivity.
Qed.

Lemma hex_value_digit d : d < 16 -> hex_value (hex_digit d) = Some d.
Proof.
  intros Hd. unfold hex_value, hex_digit.
  destruct (N.ltb_spec d 10).
  - rewrite in_range_true by lia. f_equal. lia.
  - rewrite in_range_out by lia. rewrite in_range_true by lia. f_equal. lia.
Qed.

Lemma lex_unicode_escape acc u rest :
  u < 0x10000 ->
  lex_run (LStr acc) (unicode_escape u ++ rest) = lex_run (LStr (acc ++ [u])) rest.
Proof.
  intros Hu. unfold unicode_escape, hex4. cbn [app].
  rewrite (lex_run_silent _ 92 (LEsc acc)) by reflexivity.
  rewrite (lex_run_silent _ 117 (LUni acc 4 0)) by reflexivity.
  erewrite lex_run_silent
    by (cbn [lex_step]; rewrite hex_value_digit by lia; reflexivity).
  erewrite lex_run_silent
    by (cbn [lex_step]; rewrite hex_value_digit by lia; reflexivity).
  erewrite lex_run_silent
    by (cbn [lex_step]; rewrite hex_value_digit by lia; reflexivity).
  erewrite lex_run_silent
    by (cbn [lex_step]; rewrite hex_value_digit by lia; reflexivity).
  do 4 f_equal. lia.
Qed.

Lemma lex_raw_unit acc u rest :
  32 <= u -> u <> 34 -> u <> 92 ->
  lex_run (LStr acc) (u :: rest) = lex_run (LStr (acc ++ [u])) rest.
Proof.
  intros H1 H2 H3. apply lex_run_silent. cbn [lex_step].
  apply N.eqb_neq in H2, H3. rewrite H2, H3, ltb_false_ge by lia. reflexivity.
Qed.

Lemma lex_escape_pair acc c u rest :
  lex_escape acc c = Some (LStr (acc ++ [u])) ->
  lex_run (LStr acc) ([92; c] ++ rest) = lex_run (LStr (acc ++ [u])) rest.
Proof.
  intros H. cbn [app].
  rewrite (lex_run_silent _ 92 (LEsc acc)) by reflexivity.
  apply lex_run_silent. cbn [lex_step]. rewrite H. reflexivity.
Qed.

Lemma lex_quote_unit acc u rest :
  u < 0x10000 ->
  lex_run (LStr acc) (quote_unit u ++ rest) = lex_run (LStr (acc ++ [u])) rest.
Proof.
  intros Hu. unfold quote_unit.
  destruct (N.eqb_spec u 8) as [->|]; [apply lex_escape_pair; reflexivity|].
  destruct (N.eqb_spec u 9) as [->|]; [apply lex_escape_pair; reflexivity|].
  destruct (N.eqb_spec u 10) as [->|]; [apply lex_escape_pair; reflexivity|].
  destruct (N.eqb_spec u 12) as [->|]; [apply lex_escape_pair; reflexivity|].
  destruct (N.eqb_spec u 13) as [->|]; [apply lex_escape_pair; reflexivity|].
  destruct (N.eqb_spec u 34) as [->|]; [apply lex_escape_pair; reflexivity|].
  destruct (N.eqb_spec u 92) as [->|]; [apply lex_escape_pair; reflexivity|].
  destruct (N.ltb_spec u 32); [apply lex_unicode_escape; exact Hu|].
  destruct (is_high u || is_low u); [apply lex_unicode_escape; exact Hu|].
  apply lex_raw_unit; assumption.
Qed.

Lemma units16_cons u s : units16 (u :: s) = true <-> u < 0x10000 /\ units16 s = true.
Proof.
  unfold units16. cbn [forallb]. rewrite andb_true_iff, N.ltb_lt. reflexivity.
Qed.

Lemma lex_quote_body s : forall acc rest,
  units16 s = true ->
  lex_run (LStr acc) (quote_body s ++ rest) = lex_run (LStr (acc ++ s)) rest.
Proof.
  remember (length s) as n eqn:Hn. revert s Hn.
  induction n as [n IH] using lt_wf_ind. intros s Hn acc rest Hs.
  destruct s as [|u t]; [rewrite app_nil_r; reflexivity|].
  apply units16_cons in Hs as [Hu Ht]. cbn [quote_body length] in *.
  assert (lex_run (LStr acc) ((quote_unit u ++ quote_body t) ++ rest)
          = lex_run (LStr (acc ++ u :: t)) rest) as Hplain.
  { rewrite <- app_assoc, lex_quote_unit by exact Hu.
    rewrite (IH (length t)) by (auto; lia).
    rewrite <- app_assoc. reflexivity. }
  destruct (is_high u) eqn:Hh; [|exact Hplain].
  destruct t as [|v t']; [|destruct (is_low v) eqn:Hl; [|exact Hplain]].
  - rewrite lex_quote_unit by exact Hu. reflexivity.
  - apply units16_cons in Ht as [Hv Ht']. cbn [app length] in *. brange.
    rewrite lex_raw_unit by lia. rewrite lex_raw_unit by lia.
    rewrite (IH (length t')) by (auto; lia).
    rewrite <- !app_assoc. reflexivity.
Qed.

Lemma lex_quote s rest :
  units16 s = true ->
  lex_run LStart (quote s ++ rest) = option_map (cons (TStr s)) (lex_run LStart rest).
Proof.
  intros Hs. unfold quote. cbn [app].
  rewrite (lex_run_silent _ 34 (LStr [])) by reflexivity.
  rewrite <- app_assoc, lex_quote_body by exact Hs. cbn [app].
  apply lex_run_emit. reflexivity.
Qed.

Lemma json_ind' (P : json -> Prop) :
  P JNull -> (forall b, P (JBool b)) -> (forall lit, P (JNum lit)) ->
  (forall s, P (JStr s)) ->
  (forall elems, Forall P elems -> P (JArr elems)) ->
  (forall members, Forall (fun kx => P (snd kx)) members -> P (JObj members)) ->
  forall v, P v.
Proof.
  intros Hnull Hbool Hnum Hstr Harr Hobj.
  fix IH 1. intros [|b|lit|s|elems|members].
  - exact Hnull.
  - apply Hbool.
  - apply Hnum.
  - apply Hstr.
  - apply Harr. induction elems as [|x l IHl]; constructor; [apply IH|exact IHl].
  - apply Hobj. induction members as [|[k x] l IHl]; constructor;
      [apply IH|exact IHl].
Qed.

Lemma lex_follow_step c rest :
  follows (c :: rest) ->
  exists t, lex_start c = Some (LStart, [t])
            /\ (forall st, num_step st c = None)
            /\ lex_run LStart (c :: rest) = option_map (cons t) (lex_run LStart rest).
Proof.
  intros [-> | [-> | ->]]; eexists; (split; [reflexivity|]);
    (split; [intros []; reflexivity|]); apply lex_run_emit; reflexivity.
Qed.

Lemma lex_num_run r : forall st st' acc rest,
  num_run st r = Some st' -> num_accepting st' = true -> follows rest ->
  lex_run (LNum st acc) (r ++ rest)
  = option_map (cons (TNum (acc ++ r))) (lex_run LStart rest).
Proof.
  induction r as [|c r IH]; intros st st' acc rest Hrun Hacc Hf; cbn [app].
  - injection Hrun as <-. rewrite app_nil_r.
    destruct rest as [|d rest]; [cbn; rewrite Hacc; reflexivity|].
    destruct (lex_follow_step d rest Hf) as (t & Hs & Hn & ->).
    cbn [lex_run lex_step]. rewrite Hn, Hacc, Hs.
    destruct (lex_run LStart rest); reflexivity.
  - cbn [num_run] in Hrun. destruct (num_step st c) as [st1|] eqn:Hstep;
      [|discriminate].
    rewrite (lex_run_silent _ c (LNum st1 (acc ++ [c])))
      by (cbn [lex_step]; rewrite Hstep; reflexivity).
    rewrite (IH _ _ _ _ Hrun Hacc Hf), <- app_assoc. reflexivity.
Qed.

Lemma lex_number lit rest :
  is_number lit = true -> follows rest ->
  lex_run LStart (lit ++ rest) = option_map (cons (TNum lit)) (lex_run LStart rest).
Proof.
  intros Hn Hf. destruct lit as [|c r]; [discriminate|]. cbn [is_number] in Hn.
  destruct (num_start c) as [st|] eqn:Hs; [|discriminate].
  destruct (num_run st r) as [st'|] eqn:Hr; [|discriminate]. cbn [app].
  rewrite (lex_run_silent _ c (LNum st [c]))
    by (cbn [lex_step]; unfold lex_start; rewrite Hs; reflexivity).
  apply (lex_num_run r st st' [c] rest Hr Hn Hf).
Qed.

Lemma lex_null rest :
  lex_run LStart (js "null" ++ rest) = option_map (cons TNull) (lex_run LStart rest).
Proof.
  eval_js. cbn [app].
  do 3 (erewrite lex_run_silent by reflexivity).
  apply lex_run_emit. reflexivity.
Qed.

Lemma lex_true rest :
  lex_run LStart (js "true" ++ rest) = option_map (cons TTrue) (lex_run LStart rest).
Proof.
  eval_js. cbn [app].
  do 3 (erewrite lex_run_silent by reflexivity).
  apply lex_run_emit. reflexivity.
Qed.

Lemma lex_false rest :
  lex_run LStart (js "false" ++ rest) = option_map (cons TFalse) (lex_run LStart rest).
Proof.
  eval_js. cbn [app].
  do 4 (erewrite lex_run_silent by reflexivity).
  apply lex_run_emit. reflexivity.
Qed.

Lemma option_map_app {A} (a b : list A) (o : option (list A)) :
  option_map (app a) (option_map (app b) o) = option_map (app (a ++ b)) o.
Proof. destruct o; cbn; [rewrite app_assoc|]; reflexivity. Qed.

Lemma option_map_cons {A} (a : A) (o : option (list A)) :
  option_map (cons a) o = option_map (app [a]) o.
Proof. reflexivity. Qed.

(** A printed sequence: items separated by commas, then the closing
    character [close], whose token is [t]. *)
Lemma lex_joined (items : list (jsstring * list token)) close t rest :
  Forall (fun it => forall rest', follows rest' ->
            lex_run LStart (fst it ++ rest')
            = option_map (app (snd it)) (lex_run LStart rest')) items ->
  close = 93 \/ close = 125 ->
  (forall rest', lex_run LStart (close :: rest')
                 = option_map (cons t) (lex_run LStart rest')) ->
  lex_run LStart (join_comma (map fst items) ++ close :: rest)
  = option_map (app (join_tokens (map snd items) ++ [t])) (lex_run LStart rest).
Proof.
  intros Hitems Hclose Ht.
  assert (follows (close :: rest)) as Hfc by (cbn; tauto).
  induction Hitems as [|[s ts] items Hit Hrest IH].
  - apply Ht.
  - cbn [fst snd] in Hit. destruct items as [|it2 items].
    + cbn [map join_comma join_tokens fst snd]. rewrite (Hit _ Hfc), Ht.
      rewrite option_map_cons, option_map_app. reflexivity.
    + cbn [map join_comma join_tokens fst snd] in *.
      rewrite <- app_assoc. cbn [app].
      rewrite Hit by (cbn; tauto).
      rewrite (lex_run_emit _ 44 LStart TComma) by reflexivity.
      rewrite IH. rewrite option_map_cons, !option_map_app.
      f_equal. rewrite <- !app_assoc. reflexivity.
Qed.

Lemma wf_json_arr elems :
  wf_json (JArr elems) = true <-> Forall (fun x => wf_json x = true) elems.
Proof. cbn [wf_json]. rewrite forallb_forall, Forall_forall.
  split; intros H x Hx; apply H; [apply list_elem_of_In|apply list_elem_of_In in Hx]; exact Hx.
Qed.

Lemma wf_json_obj members :
  wf_json (JObj members) = true
  <-> Forall (fun kx => units16 (fst kx) = true /\ wf_json (snd kx) = true) members
      /\ keys_in_order [] (map fst members) = true.
Proof.
  cbn [wf_json]. rewrite andb_true_iff, forallb_forall, Forall_forall.
  split; intros [H Hk]; (split; [|exact Hk]).
  - intros [k x] Hx. apply list_elem_of_In in Hx. apply H in Hx.
    apply andb_true_iff in Hx. exact Hx.
  - intros [k x] Hx. apply list_elem_of_In in Hx. apply H in Hx.
    apply andb_true_iff. exact Hx.
Qed.

Lemma lex_stringify v :
  wf_json v = true ->
  forall rest, follows rest ->
  lex_run LStart (JSON_stringify v ++ rest)
  = option_map (app (tokens v)) (lex_run LStart rest).
Proof.
  induction v as [|b|lit|s|elems IH|members IH] using json_ind';
    intros Hwf rest Hf.
  - apply lex_null.
  - destruct b; [apply lex_true|apply lex_false].
  - apply lex_number; assumption.
  - apply lex_quote. exact Hwf.
  - apply wf_json_arr in Hwf.
    cbn [JSON_stringify tokens app]. rewrite <- app_assoc. cbn [app].
    rewrite (lex_run_emit _ 91 LStart TLBrack) by reflexivity.
    pose proof (lex_joined (map (fun x => (JSON_stringify x, tokens x)) elems)
                  93 TRBrack rest) as Hj.
    rewrite !map_map in Hj. cbn [fst snd] in Hj.
    change (map (fun x : json => JSON_stringify x) elems)
      with (map JSON_stringify elems) in Hj.
    change (map (fun x : json => tokens x) elems) with (map tokens elems) in Hj.
    rewrite Hj; [destruct (lex_run LStart rest); reflexivity| |auto|].
    + apply Forall_map. cbn [fst snd].
      rewrite Forall_forall in *. intros x Hx. apply (IH x Hx). apply Hwf, Hx.
    + intros rest'. apply lex_run_emit. reflexivity.
  - apply wf_json_obj in Hwf as [Hwf _].
    cbn [JSON_stringify tokens app]. rewrite <- app_assoc. cbn [app].
    rewrite (lex_run_emit _ 123 LStart TLBrace) by reflexivity.
    pose proof (lex_joined
                  (map (fun '(k, x) => (quote k ++ 58 :: JSON_stringify x,
                                        TStr k :: TColon :: tokens x)) members)
                  125 TRBrace rest) as Hj.
    rewrite !map_map in Hj.
    assert (forall (A : Type) (f g : jsstring * json -> A),
              (forall k x, f (k, x) = g (k, x)) -> map f members = map g members)
      as Hext by (intros A f g H; apply map_ext; intros [k x]; apply H).
    rewrite (Hext _ _ (fun '(k, x) => quote k ++ 58 :: JSON_stringify x)) in Hj
      by reflexivity.
    rewrite (Hext _ _ (fun '(k, x) => TStr k :: TColon :: tokens x)) in Hj
      by reflexivity.
    rewrite Hj; [destruct (lex_run LStart rest); reflexivity| |auto|].
    + apply Forall_map. rewrite Forall_forall in *.
      intros [k x] Hx. cbn [fst snd]. intros rest' Hf'.
      destruct (Hwf _ Hx) as [Hk Hvx]. cbn [fst snd] in *.
      rewrite <- app_assoc. cbn [app]. rewrite lex_quote by exact Hk.
      rewrite (lex_run_emit _ 58 LStart TColon) by reflexivity.
      pose proof (IH _ Hx Hvx _ Hf') as Hix. cbn [snd] in Hix. rewrite Hix.
      destruct (lex_run LStart rest'); reflexivity.
    + intros rest'. apply lex_run_emit. reflexivity.
Qed.

Lemma has_key_existsb k ms : has_key k ms = existsb (jsstring_eqb k) (map fst ms).
Proof.
  induction ms as [|[k' x] ms IH]; cbn [has_key map existsb fst]; [reflexivity|].
  rewrite IH. reflexivity.
Qed.

Lemma obj_insert_index_append n k x ms :
  forallb (fun k' => match array_index k' with
                     | Some n' => n' <? n
                     | None => false
                     end) (map fst ms) = true ->
  obj_insert_index n k x ms = ms ++ [(k, x)].
Proof.
  induction ms as [|[k' x'] ms IH]; cbn [map forallb fst obj_insert_index app];
    [reflexivity|].
  intros H. apply andb_true_iff in H as [H1 H2].
  destruct (array_index k') as [n'|]; [|discriminate].
  rewrite H1, IH by exact H2. reflexivity.
Qed.

Lemma obj_set_append ms k x :
  key_appends (map fst ms) k = true -> obj_set ms k x = ms ++ [(k, x)].
Proof.
  unfold key_appends, obj_set. intros H. apply andb_true_iff in H as [H1 H2].
  rewrite has_key_existsb. apply negb_true_iff in H1. rewrite H1.
  destruct (array_index k) as [n|]; [|reflexivity].
  apply obj_insert_index_append. exact H2.
Qed.

Lemma join_tokens_cons p ps :
  join_tokens (p :: ps) = p ++ concat (map (cons TComma) ps).
Proof.
  revert p. induction ps as [|q ps IH]; intros p.
  - cbn. rewrite app_nil_r. reflexivity.
  - change (join_tokens (p :: q :: ps)) with (p ++ TComma :: join_tokens (q :: ps)).
    rewrite IH. reflexivity.
Qed.

Lemma tokens_head v :
  exists t ts, tokens v = t :: ts
               /\ forall stk, parse_step (PArrFirst stk) t
                              = parse_step (PValue (FArr [] :: stk)) t.
Proof.
  destruct v as [|[|]|lit|s|elems|members]; eexists _, _;
    (split; [reflexivity|reflexivity]).
Qed.

Lemma parse_tokens v :
  wf_json v = true ->
  forall stk rest,
    parse_run (PValue stk) (tokens v ++ rest) = parse_run (deliver v stk) rest.
Proof.
  induction v as [|b|lit|s|elems IH|members IH] using json_ind';
    intros Hwf stk rest; try reflexivity.
  - destruct b; reflexivity.
  - apply wf_json_arr in Hwf.
    assert (forall l done,
              Forall (fun x => wf_json x = true) l ->
              Forall (fun v => wf_json v = true -> forall stk rest,
                        parse_run (PValue stk) (tokens v ++ rest)
                        = parse_run (deliver v stk) rest) l ->
              parse_run (PArrNext done stk)
                (concat (map (cons TComma) (map tokens l)) ++ TRBrack :: rest)
              = parse_run (deliver (JArr (done ++ l)) stk) rest) as Hnext.
    { induction l as [|y l IHl]; intros done Hw Hih.
      - rewrite app_nil_r. reflexivity.
      - inversion Hw; subst. inversion Hih; subst.
        cbn [map concat app parse_run parse_step].
        rewrite <- app_assoc. rewrite H3 by assumption.
        cbn [deliver]. rewrite IHl by assumption.
        rewrite <- app_assoc. reflexivity. }
    destruct elems as [|x l]; [reflexivity|].
    inversion Hwf; subst. inversion IH; subst.
    cbn [tokens map app]. rewrite join_tokens_cons.
    cbn [parse_run parse_step parse_value].
    destruct (tokens_head x) as (t & ts & Htok & Hfirst).
    rewrite <- !app_assoc.
    assert (parse_run (PArrFirst stk)
              (tokens x ++ concat (map (cons TComma) (map tokens l))
                 ++ [TRBrack] ++ rest)
            = parse_run (PValue (FArr [] :: stk))
                (tokens x ++ concat (map (cons TComma) (map tokens l))
                   ++ [TRBrack] ++ rest)) as ->.
    { rewrite Htok. cbn [app parse_run]. rewrite Hfirst. reflexivity. }
    rewrite H3 by assumption. cbn [deliver app].
    apply (Hnext l [x]); assumption.
  - apply wf_json_obj in Hwf as [Hwf Hkeys].
    assert (forall l done,
              Forall (fun kx => units16 (fst kx) = true
                                /\ wf_json (snd kx) = true) l ->
              Forall (fun kx => wf_json (snd kx) = true -> forall stk rest,
                        parse_run (PValue stk) (tokens (snd kx) ++ rest)
                        = parse_run (deliver (snd kx) stk) rest) l ->
              keys_in_order (map fst done) (map fst l) = true ->
              parse_run (PObjNext done stk)
                (concat (map (cons TComma)
                           (map (fun '(k, x) => TStr k :: TColon :: tokens x) l))
                   ++ TRBrace :: rest)
              = parse_run (deliver (JObj (done ++ l)) stk) rest) as Hnext.
    { induction l as [|[k y] l IHl]; intros done Hw Hih Hk.
      - rewrite app_nil_r. reflexivity.
      - inversion Hw as [|? ? [_ Hy] Hw']; subst.
        inversion Hih as [|? ? Hiy Hih']; subst.
        cbn [map fst keys_in_order] in Hk. apply andb_true_iff in Hk as [Hk1 Hk2].
        cbn [map concat app parse_run parse_step snd] in *.
        rewrite <- app_assoc. rewrite Hiy by assumption.
        cbn [deliver]. rewrite (obj_set_append _ _ _ Hk1).
        rewrite IHl; [rewrite <- app_assoc; reflexivity|assumption..|].
        rewrite map_app. exact Hk2. }
    destruct members as [|[k x] l]; [reflexivity|].
    inversion Hwf as [|? ? [_ Hx] Hwf']; subst.
    inversion IH as [|? ? Hix IH']; subst.
    cbn [map fst keys_in_order] in Hkeys.
    apply andb_true_iff in Hkeys as [Hk1 Hk2].
    cbn [tokens map app snd] in *. rewrite join_tokens_cons.
    cbn [app parse_run parse_step parse_value].
    rewrite <- !app_assoc. rewrite Hix by assumption.
    cbn [deliver]. rewrite (obj_set_append [] _ _ Hk1). cbn [app].
    apply (Hnext l [(k, x)]); assumption.
Qed.

(** [JSON.parse(JSON.stringify(v))] is [v], for a well-formed value. *)
Theorem JSON_parse_stringify v :
  wf_json v = true -> JSON_parse (JSON_stringify v) = Some v.
Proof.
  intros Hwf. unfold JSON_parse, lex.
  pose proof (lex_stringify v Hwf [] I) as Hlex.
  rewrite app_nil_r in Hlex. rewrite Hlex. cbn [lex_run lex_end option_map].
  rewrite (parse_tokens v Hwf [] []). reflexivity.
Qed.

(** ** Printed JSON is a well-formed string *)

Lemma wf_utf16_low s : Forall (fun c => c < 0xD800) s -> wf_utf16 s.
Proof.
  induction 1 as [|c s Hc _ IH]; [constructor|].
  apply wf_unit; [lia|apply in_range_out; lia|apply in_range_out; lia|exact IH].
Qed.

Lemma hex_digit_low d : d < 16 -> hex_digit d < 0xD800.
Proof. intros Hd. unfold hex_digit. destruct (d <? 10); lia. Qed.

Lemma wf_unicode_escape u : wf_utf16 (unicode_escape u).
Proof.
  apply wf_utf16_low. unfold unicode_escape, hex4.
  repeat constructor; try lia; apply hex_digit_low; lia.
Qed.

Lemma wf_quote_unit u : u < 0x10000 -> wf_utf16 (quote_unit u).
Proof.
  intros Hu. unfold quote_unit.
  repeat match goal with
    | |- context [if ?u =? ?k then _ else _] =>
        destruct (N.eqb_spec u k);
          [apply wf_utf16_low; repeat constructor; lia|]
    end.
  destruct (u <? 32); [apply wf_unicode_escape|].
  destruct (is_high u) eqn:Hh; [apply wf_unicode_escape|].
  destruct (is_low u) eqn:Hl; [apply wf_unicode_escape|].
  cbn [orb]. apply wf_unit; auto. constructor.
Qed.

Lemma wf_quote_body s : units16 s = true -> wf_utf16 (quote_body s).
Proof.
  remember (length s) as n eqn:Hn. revert s Hn.
  induction n as [n IH] using lt_wf_ind. intros s Hn Hs.
  destruct s as [|u t]; [constructor|].
  apply units16_cons in Hs as [Hu Ht]. cbn [quote_body length] in *.
  assert (wf_utf16 (quote_unit u ++ quote_body t)) as Hplain.
  { apply wf_utf16_app; [apply wf_quote_unit; exact Hu|].
    apply (IH (length t)); auto; lia. }
  destruct (is_high u) eqn:Hh; [|exact Hplain].
  destruct t as [|v t']; [apply wf_quote_unit; exact Hu|].
  destruct (is_low v) eqn:Hl; [|exact Hplain].
  apply units16_cons in Ht as [Hv Ht']. cbn [length] in *.
  apply wf_pair; auto. apply (IH (length t')); auto; lia.
Qed.

Lemma wf_quote s : units16 s = true -> wf_utf16 (quote s).
Proof.
  intros Hs. unfold quote.
  change (34 :: quote_body s ++ [34]) with ([34] ++ quote_body s ++ [34]).
  repeat apply wf_utf16_app; try apply wf_quote_body; auto;
    apply wf_utf16_low; repeat constructor; lia.
Qed.

Lemma num_step_low st c st' : num_step st c = Some st' -> c < 0xD800.
Proof.
  assert (forall c, is_digit c = true -> c < 0xD800) as Hd
    by (intros ? H; apply in_range_spec in H; lia).
  assert (forall c, is_e c = true -> c < 0xD800) as He.
  { intros ? H. unfold is_e in H. apply orb_true_iff in H as [H|H];
      apply N.eqb_eq in H; lia. }
  destruct st; cbn [num_step];
    repeat match goal with
      | |- context [if ?b then _ else _] =>
          let E := fresh "E" in destruct b eqn:E
      end; intros [=]; brange; auto; try lia;
    try (apply orb_true_iff in E as [E|E]; brange; lia).
Qed.

Lemma wf_number lit : is_number lit = true -> wf_utf16 lit.
Proof.
  intros Hn. apply wf_utf16_low.
  destruct lit as [|c r]; [discriminate|]. cbn [is_number] in Hn.
  destruct (num_start c) as [st|] eqn:Hs; [|discriminate].
  constructor.
  - unfold num_start in Hs.
    repeat match type of Hs with
      | context [if ?b then _ else _] =>
          let E := fresh "E" in destruct b eqn:E
      end; try discriminate; brange; lia.
  - clear Hs. revert st Hn. induction r as [|d r IH]; intros st Hn; [constructor|].
    cbn [num_run] in Hn. destruct (num_step st d) as [st1|] eqn:Hstep;
      [|discriminate].
    constructor; [apply (num_step_low _ _ _ Hstep)|apply (IH st1 Hn)].
Qed.

Lemma wf_join_comma parts :
  Forall wf_utf16 parts -> wf_utf16 (join_comma parts).
Proof.
  induction 1 as [|p ps Hp Hps IH]; [constructor|].
  destruct ps as [|q ps]; [exact Hp|].
  change (join_comma (p :: q :: ps)) with (p ++ [44] ++ join_comma (q :: ps)).
  repeat apply wf_utf16_app; auto. apply wf_utf16_low. repeat constructor; lia.
Qed.

Lemma wf_stringify v : wf_json v = true -> wf_utf16 (JSON_stringify v).
Proof.
  assert (forall c, c < 0xD800 -> wf_utf16 [c]) as Hc
    by (intros; apply wf_utf16_low; repeat constructor; assumption).
  induction v as [|b|lit|s|elems IH|members IH] using json_ind'; intros Hwf.
  - apply wf_utf16_low. eval_js. repeat constructor; lia.
  - destruct b; apply wf_utf16_low; eval_js; repeat constructor; lia.
  - apply wf_number. exact Hwf.
  - apply wf_quote. exact Hwf.
  - apply wf_json_arr in Hwf. cbn [JSON_stringify].
    change (91 :: ?x ++ [93]) with ([91] ++ x ++ [93]).
    repeat apply wf_utf16_app; try (apply Hc; lia).
    apply wf_join_comma, Forall_map. rewrite Forall_forall in *.
    intros x Hx. apply (IH x Hx), Hwf, Hx.
  - apply wf_json_obj in Hwf as [Hwf _]. cbn [JSON_stringify].
    change (123 :: ?x ++ [125]) with ([123] ++ x ++ [125]).
    repeat apply wf_utf16_app; try (apply Hc; lia).
    apply wf_join_comma, Forall_map. rewrite Forall_forall in *.
    intros [k x] Hx. destruct (Hwf _ Hx) as [Hk Hvx]. cbn [fst snd] in *.
    change (quote k ++ 58 :: JSON_stringify x)
      with (quote k ++ [58] ++ JSON_stringify x).
    repeat apply wf_utf16_app; try (apply Hc; lia).
    + apply wf_quote. exact Hk.
    + apply (IH _ Hx Hvx).
Qed.

(** What is written as JSON is read back as the same value. *)
Lemma stored_json_read_back v :
  wf_json v = true ->
  JSON_parse (utf8_decode (utf8_encode (JSON_stringify v))) = Some v.
Proof.
  intros Hwf. rewrite utf8_decode_encode by (apply wf_stringify; exact Hwf).
  apply JSON_parse_stringify. exact Hwf.
Qed.

(** ** C4: [log] follows the chain *)

Lemma get_prop_total v k x :
  get_prop (Some v) k = Ok x ->
  forall k', get_prop (Some v) k' = Ok (prop_or_undefined v k').
Proof.
  intros H k'. unfold prop_or_undefined.
  destruct v; try discriminate; reflexivity.
Qed.

Lemma log_loop_falsy fuel v w :
  truthy v = false -> AriGit.log_loop fuel v w = Some (Ok tt, w).
Proof. intros H. destruct fuel; cbn [AriGit.log_loop]; rewrite H; reflexivity. Qed.

Lemma log_body_link fs out h text commitData next :
  fs_read fs (path_join AriGit.objectsPath h) = Ok text ->
  JSON_parse text = Some commitData ->
  get_prop (Some commitData) (js "parent") = Ok next ->
  AriGit.log_body (Some (JStr h)) (World fs out)
  = (Ok next, World fs (out ++ log_events [(h, commitData)])).
Proof.
  intros Hread Hparse Hparent.
  unfold AriGit.log_body, bind, join_value, ret, readFile, parse, print, lift.
  cbn [w_fs w_out]. rewrite Hread, Hparse. unfold ret. cbn [w_fs w_out].
  rewrite !(get_prop_total _ _ _ Hparent). rewrite <- Hparent.
  rewrite (get_prop_total _ _ _ Hparent (js "parent")).
  cbn [log_events map concat app]. rewrite <- app_assoc. reflexivity.
Qed.

Lemma log_loop_chain fs v l :
  chain fs v l ->
  forall out fuel, (length l <= fuel)%nat ->
    AriGit.log_loop fuel v (World fs out)
    = Some (Ok tt, World fs (out ++ log_events l)).
Proof.
  induction 1 as [v Hv|h text commitData next rest Hne Hread Hparse Hparent _ IH];
    intros out fuel Hfuel.
  - rewrite log_loop_falsy by exact Hv. cbn. rewrite app_nil_r. reflexivity.
  - destruct fuel as [|fuel]; [cbn in Hfuel; lia|]. cbn [AriGit.log_loop].
    assert (truthy (Some (JStr h)) = true) as ->
      by (cbn; rewrite jsstring_eqb_neq by exact Hne; reflexivity).
    rewrite (log_body_link _ _ _ _ _ _ Hread Hparse Hparent).
    rewrite IH by (cbn in Hfuel; lia).
    rewrite <- app_assoc. reflexivity.
Qed.

Lemma log_chain fs out head l fuel :
  fs_read fs AriGit.headPath = Ok head ->
  chain fs (Some (JStr head)) l ->
  (length l <= fuel)%nat ->
  AriGit.log fuel (World fs out) = Some (Ok tt, World fs (out ++ log_events l)).
Proof.
  intros Hhead Hchain Hfuel. unfold AriGit.log.
  rewrite getCurrentHead_run. cbn [w_fs]. rewrite Hhead.
  cbn [AriGit.string_or_null].
  rewrite (log_loop_chain _ _ _ Hchain) by exact Hfuel. reflexivity.
Qed.

Lemma digest_units16 h : is_digest h -> units16 h = true.
Proof.
  intros [_ Hall]. unfold units16. apply forallb_forall.
  intros c Hc. apply list_elem_of_In in Hc. rewrite Forall_forall in Hall.
  apply Hall, hex_char_facts in Hc. apply N.ltb_lt. lia.
Qed.

Lemma digest_wf h : is_digest h -> wf_utf16 h.
Proof.
  intros [_ Hall]. apply wf_utf16_low. eapply Forall_impl; [exact Hall|].
  intros c Hc. apply hex_char_facts in Hc. lia.
Qed.

Lemma digest_nonempty h : is_digest h -> h <> [].
Proof. intros [Hlen _] ->. discriminate. Qed.

Lemma stored_chain_chain fs :
  fs !! [js ".arigit"] = Some Dir ->
  fs !! [js ".arigit"; js "objects"] = Some Dir ->
  forall h l, stored_chain fs h l ->
    chain fs (Some (AriGit.or_null (Some h))) l /\ chain fs (Some (JStr h)) l.
Proof.
  intros Hrepo Hobjs h l.
  induction 1 as [|h commitData parent rest Hd Hwf Hobj Hparent _ [IH _]].
  - split; apply chain_end; reflexivity.
  - pose proof (digest_nonempty h Hd) as Hne.
    destruct h as [|c r]; [contradiction|]. cbn [AriGit.or_null].
    assert (chain fs (Some (JStr (c :: r))) (((c :: r), commitData) :: rest));
      [|split; assumption].
    eapply chain_link; [discriminate| | |exact Hparent|exact IH].
    + apply (fs_read_file _ _ (object_key (c :: r))); [|exact Hobj].
      apply resolve_object_ok; assumption.
    + apply stored_json_read_back. exact Hwf.
Qed.

Lemma stored_chain_kept fs fs' h l :
  objects_kept fs fs' -> stored_chain fs h l -> stored_chain fs' h l.
Proof.
  intros Hkept. induction 1; econstructor; eauto.
Qed.

(** ** [init] in a fresh directory *)

Lemma init_fresh fs out :
  fresh fs ->
  AriGit.init (World fs out) = (Ok tt, World (initialized fs) (out ++ [EvInitialized])).
Proof.
  intros Hfresh.
  assert (fs !! [js ".arigit"] = None) as H1 by apply Hfresh.
  assert (fs !! [js ".arigit"; js "objects"] = None) as H2 by apply Hfresh.
  assert (fs !! head_key = None) as H3 by apply Hfresh.
  assert (fs !! index_key = None) as H4 by apply Hfresh.
  unfold AriGit.init, try_catch, bind at 1, mkdir_recursive. cbn [w_fs w_out].
  assert (fs_mkdir_recursive fs AriGit.objectsPath
          = Ok (<[ [js ".arigit"; js "objects"] := Dir]> (<[ [js ".arigit"] := Dir]> fs)))
    as ->.
  { unfold fs_mkdir_recursive.
    change (has_nul AriGit.objectsPath) with false.
    change (split_on 47 AriGit.objectsPath) with [js ".arigit"; js "objects"].
    change AriGit.objectsPath with (46 :: js "arigit/objects").
    change (is_absolute (46 :: js "arigit/objects")) with false.
    cbv iota.
    cbn [mkdir_walk].
    change (jsstring_eqb (js ".arigit") [] || jsstring_eqb (js ".arigit") dot) with false.
    change (jsstring_eqb (js ".arigit") dotdot) with false.
    change (jsstring_eqb (js "objects") [] || jsstring_eqb (js "objects") dot) with false.
    change (jsstring_eqb (js "objects") dotdot) with false.
    cbv iota.
    change ([] ++ [utf8_encode_N (js ".arigit")]) with [js ".arigit"].
    rewrite H1.
    change ([js ".arigit"] ++ [utf8_encode_N (js "objects")])
      with [js ".arigit"; js "objects"].
    rewrite lookup_insert_ne, H2 by discriminate. reflexivity. }
  unfold bind at 1, writeFile at 1. cbn [w_fs w_out].
  assert (forall fs' p k data,
            resolve fs' p = Ok k -> is_above k = false -> fs' !! k = None ->
            fs_write true fs' p data = Ok (<[k := File (utf8_encode data)]> fs'))
    as Hexcl.
  { intros fs' p k data Hr Ha Hk. unfold fs_write. rewrite Hr, Ha, Hk. reflexivity. }
  rewrite (Hexcl _ _ head_key); cycle 1.
  { apply resolve_head_ok. rewrite lookup_insert_ne by discriminate.
    apply lookup_insert_eq. }
  { reflexivity. }
  { rewrite !lookup_insert_ne by discriminate. exact H3. }
  unfold bind at 1, writeFile at 1. cbn [w_fs w_out].
  rewrite (Hexcl _ _ index_key); cycle 1.
  { apply resolve_index_ok. rewrite !lookup_insert_ne by discriminate.
    apply lookup_insert_eq. }
  { reflexivity. }
  { rewrite !lookup_insert_ne by discriminate. exact H4. }
  reflexivity.
Qed.

Lemma initialized_repository fs : fresh fs -> repository (initialized fs).
Proof.
  intros Hfresh. unfold initialized. split.
  - rewrite !lookup_insert_ne by discriminate. apply lookup_insert_eq.
  - rewrite !lookup_insert_ne by discriminate. apply lookup_insert_eq.
  - intros d. rewrite !lookup_insert_ne by discriminate.
    unfold object_key. rewrite Hfresh. discriminate.
  - eexists. rewrite lookup_insert_ne by discriminate. apply lookup_insert_eq.
  - eexists. apply lookup_insert_eq.
Qed.

Lemma initialized_healthy fs : fresh fs -> healthy [] (initialized fs).
Proof.
  intros Hfresh. split.
  - apply initialized_repository. exact Hfresh.
  - exists []. split; [apply lookup_insert_eq|reflexivity].
  - exists [], []. split; [|split; [auto|split; [constructor|reflexivity]]].
    unfold initialized. rewrite lookup_insert_ne by discriminate.
    apply lookup_insert_eq.
Qed.

(** ** The records of a history are well formed *)

Lemma low_units16 s : Forall (fun c => c < 0xD800) s -> units16 s = true.
Proof. intros H. apply wf_utf16_units, wf_utf16_low. exact H. Qed.

Lemma digits_low w n : Forall (fun c => c < 0xD800) (digits w n).
Proof.
  revert n. induction w as [|w IH]; intros n; cbn [digits]; [constructor|].
  apply Forall_app. split; [apply IH|]. repeat constructor. lia.
Qed.

Lemma toISOString_units16 now : units16 (toISOString now) = true.
Proof.
  apply low_units16. unfold toISOString.
  destruct (civil_from_days _) as [[y m] d].
  assert (forall c s, c < 0xD800 -> Forall (fun c => c < 0xD800) s ->
                      Forall (fun c => c < 0xD800) (c :: s)) as Hcons
    by (intros; constructor; assumption).
  repeat first [apply Forall_app; split | apply digits_low
               | apply Hcons; [lia|] | apply Forall_nil_2 ].
  destruct (y <=? 9999); [apply digits_low|].
  apply Hcons; [lia|apply digits_low].
Qed.

Lemma utf8_decode_units16 bs : units16 (utf8_decode bs) = true.
Proof. apply wf_utf16_units, utf8_decode_wf. Qed.

Lemma username_units16 user :
  units16 (AriGit.username_or_anonymous (option_map utf8_decode user)) = true.
Proof.
  destruct user as [bs|]; [|reflexivity]. cbn [option_map].
  pose proof (utf8_decode_units16 bs) as H.
  unfold AriGit.username_or_anonymous. destruct (utf8_decode bs); [reflexivity|exact H].
Qed.

Lemma units16_app a b : units16 (a ++ b) = units16 a && units16 b.
Proof. unfold units16. apply forallb_app. Qed.

Lemma entry_wf filePath fileHash :
  units16 filePath = true -> units16 fileHash = true ->
  wf_json (AriGit.entry filePath fileHash) = true.
Proof.
  intros Hp Hh. unfold AriGit.entry. cbn [wf_json forallb map fst].
  change (units16 (js "path")) with true. change (units16 (js "hash")) with true.
  rewrite Hp, Hh. reflexivity.
Qed.

Lemma commitRecord_wf timeStamp message index parent username :
  units16 timeStamp = true -> units16 message = true -> wf_json index = true ->
  wf_json parent = true -> units16 username = true ->
  wf_json (AriGit.commitRecord timeStamp message index parent username) = true.
Proof.
  intros H1 H2 H3 H4 H5. unfold AriGit.commitRecord.
  cbn [wf_json forallb map fst].
  change (units16 (js "timeStamp")) with true.
  change (units16 (js "message")) with true.
  change (units16 (js "files")) with true.
  change (units16 (js "parent")) with true.
  change (units16 (js "username")) with true.
  rewrite H1, H2, H5. cbn [andb].
  replace (keys_in_order [] [js "timeStamp"; js "message"; js "files"; js "parent";
                             js "username"]) with true by (vm_compute; reflexivity).
  fold wf_json. rewrite H3, H4. reflexivity.
Qed.

(** ** Every state of a history is healthy *)

Lemma index_not_object d : index_key <> object_key d.
Proof. discriminate. Qed.

Lemma head_not_object d : head_key <> object_key d.
Proof. discriminate. Qed.

Lemma healthy_same_repository hs fs fs' :
  (forall k, fs' !! (js ".arigit" :: k) = fs !! (js ".arigit" :: k)) ->
  healthy hs fs -> healthy hs fs'.
Proof.
  intros Hsame [R (elems & Hi & Hw) (head & l & Hh & Hd & Hc & Hm)].
  assert (objects_kept fs fs') as Hkept
    by (intros d c Hdc; unfold object_key; rewrite Hsame; exact Hdc).
  split.
  - destruct R as [R1 R2 R3 [ch R4] [ci R5]]. split.
    + rewrite Hsame. exact R1.
    + rewrite Hsame. exact R2.
    + intros d. unfold object_key. rewrite Hsame. apply R3.
    + exists ch. unfold head_key. rewrite Hsame. exact R4.
    + exists ci. unfold index_key. rewrite Hsame. exact R5.
  - exists elems. split; [|exact Hw]. unfold index_key. rewrite Hsame. exact Hi.
  - exists head, l. split; [unfold head_key; rewrite Hsame; exact Hh|].
    split; [exact Hd|]. split; [|exact Hm].
    apply (stored_chain_kept fs); assumption.
Qed.

Lemma healthy_index_read hs fs :
  healthy hs fs ->
  exists elems,
    fs !! index_key = Some (File (utf8_encode (JSON_stringify (JArr elems))))
    /\ wf_json (JArr elems) = true
    /\ fs_read fs AriGit.indexPath = Ok (JSON_stringify (JArr elems))
    /\ JSON_parse (JSON_stringify (JArr elems)) = Some (JArr elems).
Proof.
  intros [R (elems & Hi & Hw) _]. exists elems.
  split; [exact Hi|]. split; [exact Hw|]. split.
  - rewrite (fs_read_file _ _ index_key _ (resolve_index_ok _ (repo_dir _ R)) Hi).
    rewrite utf8_decode_encode by (apply wf_stringify; exact Hw). reflexivity.
  - apply JSON_parse_stringify. exact Hw.
Qed.

Lemma healthy_head_read hs fs :
  healthy hs fs ->
  exists head l,
    fs_read fs AriGit.headPath = Ok head
    /\ (head = [] \/ is_digest head)
    /\ stored_chain fs head l /\ map fst l = hs.
Proof.
  intros [R _ (head & l & Hh & Hd & Hc & Hm)]. exists head, l.
  split; [|auto].
  rewrite (fs_read_file _ _ head_key _ (resolve_head_ok _ (repo_dir _ R)) Hh).
  rewrite utf8_decode_encode; [reflexivity|].
  destruct Hd as [->|Hd]; [constructor|apply digest_wf; exact Hd].
Qed.

Lemma healthy_add hs w file :
  healthy hs (w_fs w) ->
  objects_kept (w_fs w) (w_fs (snd (CLI.add file w))) ->
  healthy hs (w_fs (snd (CLI.add file w))).
Proof.
  intros Hh Hkept. unfold CLI.add in *.
  set (p := utf8_decode file) in *.
  destruct (fs_read (w_fs w) p) as [fileData|e] eqn:Hread; cycle 1.
  { rewrite (add_failed_read w p e Hread). exact Hh. }
  pose proof Hh as [R _ (head & l & Hhd & Hd & Hc & Hm)].
  destruct (healthy_index_read _ _ Hh) as (elems & Hi & Hw & Hir & Hip).
  set (h := hashObject fileData) in *.
  pose proof (hashObject_is_digest fileData) as Hdig. fold h in Hdig.
  pose proof (keys_distinct h) as (K1 & K2 & K3 & K4 & K5 & K6 & K7 & K8 & K9).
  assert (AriGit.add p w
          = (Ok tt,
             World (<[index_key :=
                       File (utf8_encode (JSON_stringify
                               (JArr (elems ++ [AriGit.entry p h]))))]>
                      (<[object_key h := File (utf8_encode fileData)]> (w_fs w)))
               (w_out w ++ [EvAdded p]))) as Hrun.
  { rewrite (add_run w p fileData Hread); [|apply R..]. fold h. cbv zeta.
    rewrite (updateStagingArea_run _ _ _ (JSON_stringify (JArr elems)) elems);
      [reflexivity| |exact Hip].
    cbn [w_fs].
    rewrite (fs_read_file _ _ index_key
               (utf8_encode (JSON_stringify (JArr elems)))).
    - rewrite utf8_decode_encode by (apply wf_stringify; exact Hw). reflexivity.
    - apply resolve_index_ok. rewrite lookup_insert_ne by auto. apply R.
    - rewrite lookup_insert_ne by auto. exact Hi. }
  rewrite Hrun in *. cbn [snd w_fs] in *.
  destruct R as [R1 R2 R3 [ch R4] [ci R5]].
  split; [split|..].
  - rewrite !lookup_insert_ne by auto. exact R1.
  - rewrite !lookup_insert_ne by auto. exact R2.
  - intros d. rewrite lookup_insert_ne by apply index_not_object.
    destruct (decide (object_key h = object_key d)) as [E|E].
    + rewrite <- E, lookup_insert_eq. discriminate.
    + rewrite lookup_insert_ne by exact E. apply R3.
  - exists ch. rewrite !lookup_insert_ne by auto. exact R4.
  - eexists. apply lookup_insert_eq.
  - exists (elems ++ [AriGit.entry p h]). split; [apply lookup_insert_eq|].
    cbn [wf_json] in *. rewrite forallb_app, Hw. cbn [forallb].
    rewrite entry_wf; [reflexivity|apply utf8_decode_units16|].
    apply digest_units16, Hdig.
  - exists head, l. split; [|split; [exact Hd|split; [|exact Hm]]].
    + rewrite !lookup_insert_ne by auto. exact Hhd.
    + apply (stored_chain_kept (w_fs w)); assumption.
Qed.

Lemma healthy_commit hs w now user message w' h :
  healthy hs (w_fs w) ->
  CLI.commit now user message w = (Ok tt, w') ->
  last (w_out w') = Some (EvCommitted h) ->
  objects_kept (w_fs w) (w_fs w') ->
  healthy (h :: hs) (w_fs w').
Proof.
  intros Hh Hrun Hlast Hkept.
  pose proof Hh as [R _ _].
  destruct (healthy_index_read _ _ Hh) as (elems & Hi & Hw & Hir & Hip).
  destruct (healthy_head_read _ _ Hh) as (head & l & Hhr & Hd & Hc & Hm).
  unfold CLI.commit in Hrun.
  destruct (commit_in_repository w now (option_map utf8_decode user)
              (utf8_decode message) _ _ R Hir Hip) as (head' & Hhr' & Hrun').
  rewrite Hhr in Hhr'. injection Hhr' as <-. cbv zeta in Hrun'.
  rewrite Hrun' in Hrun. injection Hrun as <-.
  cbn [w_out w_fs] in *. rewrite last_snoc in Hlast. injection Hlast as <-.
  set (record := AriGit.commitRecord (toISOString now) (utf8_decode message)
                   (JArr elems) (AriGit.or_null (Some head))
                   (AriGit.username_or_anonymous (option_map utf8_decode user))) in *.
  set (h := hashObject (JSON_stringify record)) in *.
  pose proof (hashObject_is_digest (JSON_stringify record)) as Hdig. fold h in Hdig.
  pose proof (keys_distinct h) as (K1 & K2 & K3 & K4 & K5 & K6 & K7 & K8 & K9).
  assert (wf_json record = true) as Hrec.
  { apply commitRecord_wf; auto using toISOString_units16, utf8_decode_units16,
      username_units16.
    destruct Hd as [->|Hd]; [reflexivity|].
    pose proof (digest_units16 _ Hd) as Hu.
    destruct head; [reflexivity|exact Hu]. }
  destruct R as [R1 R2 R3 [ch R4] [ci R5]].
  unfold committed in *. fold h in Hkept |- *.
  split; [split|..].
  - rewrite !lookup_insert_ne by auto. exact R1.
  - rewrite !lookup_insert_ne by auto. exact R2.
  - intros d. rewrite lookup_insert_ne by apply index_not_object.
    rewrite lookup_insert_ne by apply head_not_object.
    destruct (decide (object_key h = object_key d)) as [E|E].
    + rewrite <- E, lookup_insert_eq. discriminate.
    + rewrite lookup_insert_ne by exact E. apply R3.
  - eexists. rewrite lookup_insert_ne by auto. apply lookup_insert_eq.
  - eexists. apply lookup_insert_eq.
  - exists []. split; [apply lookup_insert_eq|reflexivity].
  - exists h, ((h, record) :: l).
    split; [rewrite lookup_insert_ne by auto; apply lookup_insert_eq|].
    split; [right; exact Hdig|]. split; [|cbn [map fst]; rewrite Hm; reflexivity].
    apply (stored_link _ h record head l); auto.
    + rewrite !lookup_insert_ne by auto. apply lookup_insert_eq.
    + apply (stored_chain_kept (w_fs w)); assumption.
Qed.

Lemma history_healthy hs w : history hs w -> healthy hs (w_fs w).
Proof.
  induction 1 as [fs out Hfresh|hs w k content _ IH Hk|hs w out _ IH
                 |hs w file _ IH Hkept
                 |hs w now user message w' h _ IH Hrun Hlast Hkept].
  - unfold CLI.init. rewrite (init_fresh _ _ Hfresh). cbn [snd w_fs].
    apply initialized_healthy. exact Hfresh.
  - apply (healthy_same_repository hs (w_fs w)); [|exact IH].
    intros k'. cbn [user_edit snd w_fs]. apply lookup_insert_ne.
    intros ->. apply Hk. reflexivity.
  - exact IH.
  - apply healthy_add; assumption.
  - apply (healthy_commit hs w now user message); assumption.
Qed.

Lemma logged_digests_log_events l : logged_digests (log_events l) = map fst l.
Proof.
  induction l as [|[h c] l IH]; [reflexivity|].
  cbn [log_events map concat app logged_digests fst]. f_equal. exact IH.
Qed.

Lemma history_chain hs w :
  history hs w ->
  exists head l,
    fs_read (w_fs w) AriGit.headPath = Ok head
    /\ chain (w_fs w) (Some (JStr head)) l
    /\ map fst l = hs.
Proof.
  intros H. apply history_healthy in H.
  destruct (healthy_head_read _ _ H) as (head & l & Hr & _ & Hc & Hm).
  exists head, l. split; [exact Hr|]. split; [|exact Hm].
  apply stored_chain_chain; [apply H..|exact Hc].
Qed.


(** Along a history [add] and [commit] keep the objects unless a digest
    collides. *)
Lemma add_objects_kept hs w file :
  history hs w ->
  (forall fileData c,
     fs_read (w_fs w) (utf8_decode file) = Ok fileData ->
     w_fs w !! object_key (hashObject fileData) = Some (File c) ->
     c = utf8_encode fileData) ->
  objects_kept (w_fs w) (w_fs (snd (CLI.add file w))).
Proof.
  intros Hhist Hfree d c Hdc. apply history_healthy in Hhist as [R _ _].
  unfold CLI.add.
  destruct (fs_read (w_fs w) (utf8_decode file)) as [fileData|e] eqn:Hread; cycle 1.
  { rewrite (add_failed_read w _ e Hread). exact Hdc. }
  rewrite (add_run w _ fileData Hread); [|apply R..]. cbn [snd w_fs].
  rewrite updateStagingArea_other_keys by (apply not_eq_sym, index_not_object).
  cbn [w_fs].
  destruct (decide (object_key (hashObject fileData) = object_key d)) as [E|E].
  - rewrite E, lookup_insert_eq. rewrite <- E in Hdc.
    rewrite (Hfree fileData c eq_refl Hdc). reflexivity.
  - rewrite lookup_insert_ne by exact E. exact Hdc.
Qed.

Lemma commit_objects_kept hs w now user message w' h :
  history hs w ->
  CLI.commit now user message w = (Ok tt, w') ->
  last (w_out w') = Some (EvCommitted h) ->
  (forall c, w_fs w !! object_key h = Some (File c) ->
             w_fs w' !! object_key h = Some (File c)) ->
  objects_kept (w_fs w) (w_fs w').
Proof.
  intros Hhist Hrun Hlast Hfree d c Hdc.
  destruct (decide (h = d)) as [->|Hne]; [apply Hfree; exact Hdc|].
  apply history_healthy in Hhist as Hh.
  destruct (healthy_index_read _ _ Hh) as (elems & _ & _ & Hir & Hip).
  destruct (commit_in_repository w now (option_map utf8_decode user)
              (utf8_decode message) _ _ (healthy_repository _ _ Hh) Hir Hip)
    as (head & _ & Hrun').
  unfold CLI.commit in Hrun. rewrite Hrun' in Hrun. injection Hrun as <-.
  cbn [w_out w_fs] in *. rewrite last_snoc in Hlast. injection Hlast as <-.
  unfold committed.
  rewrite lookup_insert_ne by apply index_not_object.
  rewrite lookup_insert_ne by apply head_not_object.
  rewrite lookup_insert_ne; [exact Hdc|].
  intros E. apply object_key_inj in E. contradiction.
Qed.

(** Along a history every [commit] succeeds. *)
Lemma history_commit_succeeds hs w now user message :
  history hs w ->
  exists h w',
    CLI.commit now user message w = (Ok tt, w')
    /\ last (w_out w') = Some (EvCommitted h).
Proof.
  intros Hhist. apply history_healthy in Hhist as Hh.
  destruct (healthy_index_read _ _ Hh) as (elems & _ & _ & Hir & Hip).
  destruct (commit_in_repository w now (option_map utf8_decode user)
              (utf8_decode message) _ _ (healthy_repository _ _ Hh) Hir Hip)
    as (head & _ & Hrun).
  eexists _, _. unfold CLI.commit. split; [exact Hrun|].
  cbn [w_out]. apply last_snoc.
Qed.

Lemma add_stores_under_digest_witness :
  utf8_valid (bytes_of "hello") = true
  /\ resolve (w_fs scenario_init) (js "a.txt") = Ok [js "a.txt"]
  /\ w_fs scenario_init !! [js "a.txt"] = Some (File (bytes_of "hello"))
  /\ w_fs (snd (AriGit.add (js "a.txt") scenario_init))
       !! object_key (hex (SHA1.digest (bytes_of "hello")))
     = Some (File (bytes_of "hello")).
Proof.
  assert (utf8_valid (bytes_of "hello") = true) as H1 by (vm_compute; reflexivity).
  assert (resolve (w_fs scenario_init) (js "a.txt") = Ok [js "a.txt"]) as H2
    by (vm_compute; reflexivity).
  assert (w_fs scenario_init !! [js "a.txt"] = Some (File (bytes_of "hello"))) as H3
    by (vm_compute; reflexivity).
  assert (w_fs scenario_init !! [js ".arigit"] = Some Dir) as H4
    by (vm_compute; reflexivity).
  assert (w_fs scenario_init !! [js ".arigit"; js "objects"] = Some Dir) as H5
    by (vm_compute; reflexivity).
  assert (w_fs scenario_init !! object_key (hex (SHA1.digest (bytes_of "hello")))
          <> Some Dir) as H6 by (vm_compute; discriminate).
  split; [exact H1|]. split; [exact H2|]. split; [exact H3|].
  exact (proj1 (proj2 (proj2 (proj2
    (add_stores_under_digest scenario_init (js "a.txt") [js "a.txt"]
       (bytes_of "hello") H1 H2 H3 H4 H5 H6))))).
Defined.

Lemma commit_returns now user message w :
  AriGit.commit now user message w
  = (Ok tt, snd (AriGit.commit now user message w)).
Proof.
  unfold AriGit.commit, try_catch, print.
  destruct (bind _ _ w) as [[[]|e] w2]; reflexivity.
Qed.

Lemma commit_success_effect_witness :
  let w := scenario_staged in
  let w' := snd (AriGit.commit 1700000000000 None (js "first") w) in
  let h := js "216a2bffaf73cd065101c41a013b6a877c84557d" in
  let staged :=
    JArr [AriGit.entry (js "a.txt") (js "aaf4c61ddcc5e8a2dabede0f3b482cd9aea9434d")] in
  fs_read (w_fs w) AriGit.indexPath = Ok (JSON_stringify staged)
  /\ JSON_parse (JSON_stringify staged) = Some staged
  /\ number_free staged = true
  /\ AriGit.commit 1700000000000 None (js "first") w = (Ok tt, w')
  /\ last (w_out w') = Some (EvCommitted h)
  /\ exists text index,
       fs_read (w_fs w) AriGit.indexPath = Ok text
       /\ JSON_parse text = Some index
       /\ number_free index = true
       /\ let parent :=
            match fs_read (w_fs w) AriGit.headPath with
            | Ok (c :: s) => JStr (c :: s)
            | _ => JNull
            end in
          let commitData :=
            AriGit.commitRecord (toISOString 1700000000000) (js "first") index
              parent (AriGit.username_or_anonymous None) in
          get_prop (Some commitData) (js "parent") = Ok (Some parent)
          /\ get_prop (Some commitData) (js "files") = Ok (Some index)
          /\ h = hashObject (JSON_stringify commitData)
          /\ w_fs w' !! object_key h
             = Some (File (utf8_encode (JSON_stringify commitData)))
          /\ w_fs w' !! head_key = Some (File (utf8_encode h))
          /\ w_fs w' !! index_key = Some (File (bytes_of "[]"))
          /\ w_fs w' = committed (w_fs w) commitData.
Proof.
  intros w w' h staged.
  assert (fs_read (w_fs w) AriGit.indexPath = Ok (JSON_stringify staged)) as Hr
    by (vm_compute; reflexivity).
  assert (JSON_parse (JSON_stringify staged) = Some staged) as Hp
    by (vm_compute; reflexivity).
  assert (number_free staged = true) as Hf by reflexivity.
  assert (AriGit.commit 1700000000000 None (js "first") w = (Ok tt, w')) as H1
    by apply commit_returns.
  assert (last (w_out w') = Some (EvCommitted h)) as H2 by (vm_compute; reflexivity).
  split; [exact Hr|]. split; [exact Hp|]. split; [exact Hf|].
  split; [exact H1|]. split; [exact H2|].
  exact (commit_success_effect w 1700000000000 None (js "first") w' h
           (index_number_free _ _ _ Hr Hp Hf) H1 H2).
Defined.

Lemma scenario_files_fresh : fresh scenario_files.
Proof. intros k. apply lookup_singleton_ne. discriminate. Qed.

(** Scenario A of the specification. *)
Example scenario_A :
  scenario_init
  = World (<[index_key := File (bytes_of "[]")]>
             (<[head_key := File []]>
                (<[ [js ".arigit"; js "objects"] := Dir]>
                   (<[ [js ".arigit"] := Dir]> scenario_files))))
      [EvInitialized].
Proof.
  unfold scenario_init, after, CLI.init. cbn [fold_left].
  rewrite (init_fresh _ _ scenario_files_fresh). reflexivity.
Qed.

Lemma scenario_init_repository : repository (w_fs scenario_init).
Proof.
  rewrite scenario_A. apply (initialized_repository _ scenario_files_fresh).
Qed.

Lemma commit_empty_index_succeeds_witness :
  repository (w_fs scenario_init)
  /\ fs_read (w_fs scenario_init) AriGit.indexPath = Ok (js "[]")
  /\ JSON_parse (js "[]") = Some (JArr [])
  /\ exists commitData,
       get_prop (Some commitData) (js "files") = Ok (Some (JArr []))
       /\ AriGit.commit 1700000000000 None (js "first") scenario_init
          = (Ok tt,
             World (committed (w_fs scenario_init) commitData)
               (w_out scenario_init
                  ++ [EvCommitted (hashObject (JSON_stringify commitData))])).
Proof.
  assert (fs_read (w_fs scenario_init) AriGit.indexPath = Ok (js "[]")) as H2
    by (vm_compute; reflexivity).
  assert (JSON_parse (js "[]") = Some (JArr [])) as H3 by (vm_compute; reflexivity).
  split; [exact scenario_init_repository|]. split; [exact H2|]. split; [exact H3|].
  destruct (commit_empty_index_succeeds scenario_init 1700000000000 None (js "first")
              (js "[]") scenario_init_repository H2 H3)
    as (commitData & Hfiles & Hrun & _).
  exists commitData. split; [exact Hfiles|exact Hrun].
Defined.

Lemma commit_head_unreadable_witness :
  let w := scenario_no_head in
  let commitData :=
    AriGit.commitRecord (toISOString 1700000000000) (js "first") (JArr []) JNull
      (AriGit.username_or_anonymous None) in
  let h := hashObject (JSON_stringify commitData) in
  fs_read (w_fs w) AriGit.headPath = Throw (IOError ENOENT)
  /\ fs_read (w_fs w) AriGit.indexPath = Ok (js "[]")
  /\ w_fs w !! head_key = None
  /\ w_fs (snd (AriGit.commit 1700000000000 None (js "first") w)) !! object_key h
     = Some (File (utf8_encode (JSON_stringify commitData)))
  /\ AriGit.commit 1700000000000 None (js "first") w
     = (Ok tt, World (committed (w_fs w) commitData)
                 (w_out w ++ [EvErrorReadingHead (IOError ENOENT); EvCommitted h])).
Proof.
  intros w commitData h.
  assert (fs_read (w_fs w) AriGit.headPath = Throw (IOError ENOENT)) as H1
    by (vm_compute; reflexivity).
  assert (fs_read (w_fs w) AriGit.indexPath = Ok (js "[]")) as H2
    by (vm_compute; reflexivity).
  assert (JSON_parse (js "[]") = Some (JArr [])) as H3 by (vm_compute; reflexivity).
  assert (w_fs w !! [js ".arigit"; js "objects"] = Some Dir) as H4
    by (vm_compute; reflexivity).
  assert (w_fs w !! object_key h <> Some Dir) as H5 by (vm_compute; discriminate).
  assert (w_fs w !! head_key = None) as H6 by (vm_compute; reflexivity).
  split; [exact H1|]. split; [exact H2|]. split; [exact H6|].
  destruct (commit_head_unreadable w 1700000000000 None (js "first")
              (IOError ENOENT) (js "[]") (JArr []) H1 H2 H3 eq_refl H4 H5)
    as (_ & _ & Hobj & Hnone & _).
  split; [exact Hobj|exact (Hnone H6)].
Defined.

Lemma show_diffs_against_first_entry_witness :
  let w := World (w_fs scenario_duplicates) [] in
  let a := js "a.txt" in
  let one := js "fe05bcdcdc4928012781a5f1a2a77cbb5398e106" in
  let two := js "ad782ecdac770fc6eb9a62e44f90873fb97fb26b" in
  let three := js "b802f384302cb24fbab0a44997e820bf2e8507bb" in
  let first := js "2812372a98353d80758d0a4bff062fd12d30ecc1" in
  let parentCommitData :=
    AriGit.commitRecord (js "2023-11-14T22:13:20.000Z") (js "first")
      (JArr [AriGit.entry a one; AriGit.entry a two]) JNull (js "anonymous") in
  let commitData :=
    AriGit.commitRecord (js "2023-11-14T22:13:21.000Z") (js "second")
      (JArr [AriGit.entry a three]) (JStr first) (js "anonymous") in
  get_prop (Some (AriGit.entry a one)) (js "path") = Ok (Some (JStr a))
  /\ get_prop (Some (AriGit.entry a two)) (js "path") = Ok (Some (JStr a))
  /\ AriGit.show_file commitData (AriGit.entry a three) w
     = (Ok tt,
        World (w_fs w)
          (w_out w ++ [EvFile (Some (JStr a)); EvContent (js "three"); EvDiffHeader]
             ++ map AriGit.render (diffLines (js "one") (js "three")))).
Proof.
  intros w a one two three first parentCommitData commitData.
  split; [reflexivity|]. split; [reflexivity|].
  apply (show_diffs_against_first_entry w commitData (AriGit.entry a three)
           a three (js "three") first
           (JSON_stringify parentCommitData) parentCommitData
           [] (AriGit.entry a one) [AriGit.entry a two] one (js "one"));
    try (vm_compute; reflexivity).
  - discriminate.
  - constructor.
Defined.

Ltac no_collision_add content :=
  let Hr0 := fresh in let Hl0 := fresh in
  match goal with
  | |- forall fileData c, fs_read ?fs ?p = Ok fileData ->
                          ?fs !! object_key (hashObject fileData) = Some (File c) -> _ =>
      assert (fs_read fs p = Ok content) as Hr0 by (vm_compute; reflexivity);
      assert (fs !! object_key (hashObject content) = None) as Hl0
        by (vm_compute; reflexivity);
      let fileData := fresh in let c := fresh in
      let Hr := fresh in let Hl := fresh in
      intros fileData c Hr Hl; rewrite Hr0 in Hr; injection Hr as <-;
      rewrite Hl0 in Hl; discriminate
  end.

Ltac no_collision_commit :=
  let Hl0 := fresh in
  match goal with
  | |- forall c, ?fs !! ?k = Some (File c) -> _ =>
      assert (fs !! k = None) as Hl0 by (vm_compute; reflexivity);
      let c := fresh in let Hl := fresh in
      intros c Hl; rewrite Hl0 in Hl; discriminate
  end.

Lemma two_commits_history :
  history [js "458537fec9f9764f53051e43e5219ac7ba3319a3";
           js "216a2bffaf73cd065101c41a013b6a877c84557d"] step6.
Proof.
  assert (history [] step0) as H0.
  { apply history_init. intros k. apply lookup_empty. }
  assert (history [] step1) as H1.
  { apply history_edit; [exact H0|]. discriminate. }
  assert (history [] step2) as H2.
  { apply history_add; [exact H1|]. apply (add_objects_kept [] _ _ H1).
    no_collision_add (js "hello"). }
  assert (history [js "216a2bffaf73cd065101c41a013b6a877c84557d"] step3) as H3.
  { assert (CLI.commit 1700000000000 None (bytes_of "first") step2 = (Ok tt, step3))
      as Hrun by apply commit_returns.
    assert (last (w_out step3)
            = Some (EvCommitted (js "216a2bffaf73cd065101c41a013b6a877c84557d")))
      as Hlast by (vm_compute; reflexivity).
    apply (history_commit [] step2 1700000000000 None (bytes_of "first") step3);
      [exact H2|exact Hrun|exact Hlast|].
    apply (commit_objects_kept [] _ _ _ _ _ _ H2 Hrun Hlast).
    no_collision_commit. }
  assert (history [js "216a2bffaf73cd065101c41a013b6a877c84557d"] step4) as H4.
  { apply history_edit; [exact H3|]. discriminate. }
  assert (history [js "216a2bffaf73cd065101c41a013b6a877c84557d"] step5) as H5.
  { apply history_add; [exact H4|]. apply (add_objects_kept _ _ _ H4).
    no_collision_add (js "hello world"). }
  assert (CLI.commit 1700000001000 (Some (bytes_of "bob")) (bytes_of "second") step5
          = (Ok tt, step6)) as Hrun by apply commit_returns.
  assert (last (w_out step6)
          = Some (EvCommitted (js "458537fec9f9764f53051e43e5219ac7ba3319a3")))
    as Hlast by (vm_compute; reflexivity).
  apply (history_commit _ step5 1700000001000 (Some (bytes_of "bob"))
           (bytes_of "second") step6); [exact H5|exact Hrun|exact Hlast|].
  apply (commit_objects_kept _ _ _ _ _ _ _ H5 Hrun Hlast).
  no_collision_commit.
Qed.


(** ** The scenarios of the specification, on the history [step0] ... [step6] *)

(** Scenario B: [add] of a file that holds [hello]. *)
Example scenario_B :
  let h := js "aaf4c61ddcc5e8a2dabede0f3b482cd9aea9434d" in
  hashObject (js "hello") = h
  /\ w_fs step2 !! object_key h = Some (File (bytes_of "hello"))
  /\ fs_read (w_fs step2) AriGit.indexPath
     = Ok (JSON_stringify (JArr [AriGit.entry (js "a.txt") h])).
Proof. vm_compute. repeat split; reflexivity. Qed.

(** Scenario C: the first commit. *)
Example scenario_C :
  let h := js "216a2bffaf73cd065101c41a013b6a877c84557d" in
  fs_read (w_fs step3) AriGit.headPath = Ok h
  /\ fs_read (w_fs step3) AriGit.indexPath = Ok (js "[]")
  /\ match fs_read (w_fs step3) (path_join AriGit.objectsPath h) with
     | Ok text => JSON_parse text
     | Throw _ => None
     end
     = Some (AriGit.commitRecord (js "2023-11-14T22:13:20.000Z") (js "first")
               (JArr [AriGit.entry (js "a.txt")
                        (js "aaf4c61ddcc5e8a2dabede0f3b482cd9aea9434d")])
               JNull (js "anonymous")).
Proof. vm_compute. repeat split; reflexivity. Qed.

(** Scenario D: the parent of the second commit is the first. *)
Example scenario_D :
  match fs_read (w_fs step6) AriGit.headPath with
  | Ok h =>
      match fs_read (w_fs step6) (path_join AriGit.objectsPath h) with
      | Ok text =>
          match JSON_parse text with
          | Some commitData => get_prop (Some commitData) (js "parent")
          | None => Throw SyntaxError
          end
      | Throw e => Throw e
      end
  | Throw e => Throw e
  end
  = Ok (Some (JStr (js "216a2bffaf73cd065101c41a013b6a877c84557d"))).
Proof. vm_compute. reflexivity. Qed.

(** Scenario E: [show] on the second commit. *)
Example scenario_E :
  w_out (snd (CLI.show (bytes_of "458537fec9f9764f53051e43e5219ac7ba3319a3")
                (World (w_fs step6) [])))
  = [EvChanges; EvFile (Some (JStr (js "a.txt"))); EvContent (js "hello world");
     EvDiffHeader; EvDiffRemoved (js "hello"); EvDiffAdded (js "hello world")].
Proof. vm_compute. reflexivity. Qed.

(** [log] on the same history. *)
Example scenario_log :
  option_map (fun rw => logged_digests (w_out (snd rw)))
    (CLI.log 2 (World (w_fs step6) []))
  = Some [js "458537fec9f9764f53051e43e5219ac7ba3319a3";
          js "216a2bffaf73cd065101c41a013b6a877c84557d"].
Proof. vm_compute. reflexivity. Qed.

Example array_index_samples :
  map array_index [js "0"; js "7"; js "10"; js "4294967294"; js "4294967295";
                   js "01"; js ""; js "1a"; js "-1"; js "1.0"; js "99999999999"]
  = [Some 0; Some 7; Some 10; Some 4294967294; None; None; None; None; None; None;
     None].
Proof. vm_compute. reflexivity. Qed.

(** ** What [JSON.parse] returns is well formed *)

Lemma array_index_canonical k n : array_index k = Some n -> k = to_decimal n.
Proof.
  unfold array_index. destruct (jsstring_eqb _ k) eqn:E; [|discriminate].
  apply jsstring_eqb_eq in E. destruct (_ <? _); [|discriminate].
  intros [= <-]. symmetry. exact E.
Qed.

Lemma array_index_inj k k' n :
  array_index k = Some n -> array_index k' = Some n -> k = k'.
Proof.
  intros H H'. apply array_index_canonical in H, H'. congruence.
Qed.

Lemma key_appends_spec seen k :
  key_appends seen k = true
  <-> ~ In k seen
      /\ (forall n, array_index k = Some n -> forallb (below n) seen = true).
Proof.
  unfold key_appends. rewrite andb_true_iff, negb_true_iff.
  assert (existsb (jsstring_eqb k) seen = false <-> ~ In k seen) as ->.
  { rewrite <- not_true_iff_false, existsb_exists. split.
    - intros H Hin. apply H. exists k. split; [exact Hin|apply jsstring_eqb_refl].
    - intros H (x & Hin & Hx). apply jsstring_eqb_eq in Hx. subst. auto. }
  destruct (array_index k) as [n|]; split; intros [H1 H2]; (split; [exact H1|]).
  - intros n' [= <-]. exact H2.
  - apply (H2 n eq_refl).
  - intros n' [=].
  - reflexivity.
Qed.

Lemma keys_in_order_snoc ks : forall seen k,
  keys_in_order seen (ks ++ [k])
  = keys_in_order seen ks && key_appends (seen ++ ks) k.
Proof.
  induction ks as [|k' ks IH]; intros seen k; cbn [app keys_in_order].
  - rewrite app_nil_r, andb_true_r. reflexivity.
  - rewrite IH, <- app_assoc, andb_assoc. reflexivity.
Qed.

Lemma keys_in_order_below l : forall seen k n,
  keys_in_order seen l = true -> In k l -> array_index k = Some n ->
  forallb (below n) seen = true.
Proof.
  induction l as [|k' l IH]; intros seen k n Hord Hin Hidx; [destruct Hin|].
  cbn [keys_in_order] in Hord. apply andb_true_iff in Hord as [H1 H2].
  destruct Hin as [->|Hin].
  - apply key_appends_spec in H1 as [_ H1]. apply H1. exact Hidx.
  - pose proof (IH _ _ _ H2 Hin Hidx) as H. rewrite forallb_app in H.
    apply andb_true_iff in H as [H _]. exact H.
Qed.

Lemma keys_in_order_insert_seen l k n : forall s1 s2,
  keys_in_order (s1 ++ s2) l = true ->
  array_index k = Some n -> ~ In k l ->
  (forall k' n', In k' l -> array_index k' = Some n' -> n < n') ->
  keys_in_order (s1 ++ k :: s2) l = true.
Proof.
  induction l as [|k' l IH]; intros s1 s2 Hord Hidx Hnot Hgt; [reflexivity|].
  cbn [keys_in_order] in *. apply andb_true_iff in Hord as [H1 H2].
  apply andb_true_iff. split.
  - apply key_appends_spec in H1 as [Hn Hb]. apply key_appends_spec. split.
    + rewrite in_app_iff in *. cbn [In]. intros [H|[H|H]]; [tauto| |tauto].
      subst. apply Hnot. left. reflexivity.
    + intros n' Hn'. specialize (Hb n' Hn').
      rewrite forallb_app in *. cbn [forallb].
      apply andb_true_iff in Hb as [Hb1 Hb2]. rewrite Hb1, Hb2.
      unfold below. rewrite Hidx.
      assert (n < n') as Hlt by (apply (Hgt k'); [left; reflexivity|exact Hn']).
      apply N.ltb_lt in Hlt. rewrite Hlt. reflexivity.
  - rewrite <- app_assoc. cbn [app]. apply IH.
    + rewrite app_assoc. exact H2.
    + exact Hidx.
    + intros Hin. apply Hnot. right. exact Hin.
    + intros k'' n'' Hin. apply Hgt. right. exact Hin.
Qed.

Lemma has_key_In k ms : has_key k ms = false <-> ~ In k (map fst ms).
Proof.
  rewrite has_key_existsb, <- not_true_iff_false, existsb_exists. split.
  - intros H Hin. apply H. exists k. split; [exact Hin|apply jsstring_eqb_refl].
  - intros H (x & Hin & Hx). apply jsstring_eqb_eq in Hx. subst. auto.
Qed.

Lemma keys_in_order_insert_index n k v ms : forall seen,
  keys_in_order seen (map fst ms) = true ->
  key_appends seen k = true -> array_index k = Some n ->
  ~ In k (map fst ms) ->
  keys_in_order seen (map fst (obj_insert_index n k v ms)) = true.
Proof.
  induction ms as [|[k' v'] ms IH]; intros seen Hord Hk Hidx Hnot.
  - cbn. rewrite Hk. reflexivity.
  - cbn [map fst obj_insert_index] in *.
    assert (keys_in_order (seen ++ [k]) (k' :: map fst ms) = true
            -> keys_in_order seen (k :: k' :: map fst ms) = true) as Hfront.
    { intros H. cbn [keys_in_order] in *. rewrite Hk. exact H. }
    assert ((forall n', array_index k' = Some n' -> n < n') ->
            keys_in_order (seen ++ [k]) (k' :: map fst ms) = true) as Hins.
    { intros Hk'. apply keys_in_order_insert_seen with (n := n);
        [rewrite app_nil_r; exact Hord|exact Hidx|exact Hnot|].
      intros k'' n'' [<-|Hin] Hn''; [apply Hk'; exact Hn''|].
      cbn [keys_in_order] in Hord. apply andb_true_iff in Hord as [_ Hord].
      pose proof (keys_in_order_below _ _ _ _ Hord Hin Hn'') as Hb.
      rewrite forallb_app in Hb. apply andb_true_iff in Hb as [_ Hb].
      cbn [forallb] in Hb. rewrite andb_true_r in Hb. unfold below in Hb.
      destruct (array_index k') as [n'|] eqn:E; [|discriminate].
      apply N.ltb_lt in Hb. specialize (Hk' n' eq_refl). lia. }
    destruct (array_index k') as [n'|] eqn:E.
    + destruct (N.ltb_spec n' n) as [Hlt|Hge].
      * cbn [map fst keys_in_order] in *.
        apply andb_true_iff in Hord as [H1 H2]. rewrite H1. cbn [andb].
        apply IH; [exact H2| |exact Hidx|intros Hin; apply Hnot; right; exact Hin].
        apply key_appends_spec in Hk as [Hn Hb]. apply key_appends_spec. split.
        -- rewrite in_app_iff. cbn [In]. intros [H|[H|[]]]; [tauto|].
           subst. apply Hnot. left. reflexivity.
        -- intros n0 Hn0. rewrite Hidx in Hn0. injection Hn0 as <-.
           rewrite forallb_app, (Hb n Hidx). cbn [forallb]. unfold below.
           rewrite E. apply N.ltb_lt in Hlt. rewrite Hlt. reflexivity.
      * apply Hfront, Hins. intros n0 [= <-].
        destruct (N.eq_dec n n') as [<-|Hne]; [|lia].
        exfalso. apply Hnot. left. apply (array_index_inj _ _ n); assumption.
    + apply Hfront, Hins. intros n0 [=].
Qed.

Lemma obj_replace_keys k v ms : map fst (obj_replace k v ms) = map fst ms.
Proof.
  induction ms as [|[k' v'] ms IH]; [reflexivity|]. cbn [obj_replace].
  destruct (jsstring_eqb k k'); cbn [map fst]; [reflexivity|].
  rewrite IH. reflexivity.
Qed.

Lemma obj_set_keys_in_order ms k v :
  keys_in_order [] (map fst ms) = true ->
  keys_in_order [] (map fst (obj_set ms k v)) = true.
Proof.
  intros Hord. unfold obj_set. destruct (has_key k ms) eqn:Hk.
  - rewrite obj_replace_keys. exact Hord.
  - apply has_key_In in Hk.
    assert (array_index k = None -> key_appends (map fst ms) k = true) as Hnone.
    { intros E. apply key_appends_spec. split; [exact Hk|]. intros n Hn.
      rewrite E in Hn. discriminate. }
    destruct (array_index k) as [n|] eqn:E.
    + apply keys_in_order_insert_index; auto.
      apply key_appends_spec. split; [intros []|reflexivity].
    + rewrite map_app. cbn [map fst]. rewrite keys_in_order_snoc, Hord, app_nil_l.
      apply Hnone. reflexivity.
Qed.

Lemma obj_set_members_ok ms k v :
  forallb member_ok ms = true -> units16 k = true -> wf_json v = true ->
  forallb member_ok (obj_set ms k v) = true.
Proof.
  intros Hms Hk Hv. unfold obj_set.
  assert (member_ok (k, v) = true) as Hkv
    by (unfold member_ok; cbn [fst snd]; rewrite Hk, Hv; reflexivity).
  destruct (has_key k ms).
  - induction ms as [|[k' v'] ms IH]; [reflexivity|].
    cbn [obj_replace forallb] in *. apply andb_true_iff in Hms as [H1 H2].
    destruct (jsstring_eqb k k') eqn:E; cbn [forallb].
    + apply jsstring_eqb_eq in E. subst k'. rewrite Hkv, H2. reflexivity.
    + rewrite H1, (IH H2). reflexivity.
  - destruct (array_index k) as [n|].
    + induction ms as [|[k' v'] ms IH]; cbn [obj_insert_index forallb].
      * rewrite Hkv. reflexivity.
      * cbn [forallb] in Hms. apply andb_true_iff in Hms as [H1 H2].
        destruct (array_index k') as [n'|]; [destruct (n' <? n)|];
          cbn [forallb]; rewrite ?Hkv, ?H1, ?H2, ?(IH H2); reflexivity.
    + rewrite forallb_app, Hms. cbn [forallb]. rewrite Hkv. reflexivity.
Qed.

Lemma wf_json_obj_members ms :
  wf_json (JObj ms) = forallb member_ok ms && keys_in_order [] (map fst ms).
Proof.
  cbn [wf_json]. f_equal. induction ms as [|[k x] ms IH]; [reflexivity|].
  cbn [forallb]. rewrite IH. reflexivity.
Qed.

Lemma obj_set_wf ms k v :
  wf_json (JObj ms) = true -> units16 k = true -> wf_json v = true ->
  wf_json (JObj (obj_set ms k v)) = true.
Proof.
  rewrite !wf_json_obj_members, !andb_true_iff. intros [H1 H2] Hk Hv. split.
  - apply obj_set_members_ok; assumption.
  - apply obj_set_keys_in_order. exact H2.
Qed.

Lemma is_number_state lit :
  is_number lit = match num_state lit with
                  | Some st => num_accepting st
                  | None => false
                  end.
Proof.
  destruct lit as [|c r]; [reflexivity|]. cbn [is_number num_state].
  destruct (num_start c); reflexivity.
Qed.

Lemma num_run_snoc r : forall st st' c,
  num_run st r = Some st' -> num_run st (r ++ [c]) = num_step st' c.
Proof.
  induction r as [|d r IH]; intros st st' c H; cbn [num_run app] in *.
  - injection H as <-. destruct (num_step st c); reflexivity.
  - destruct (num_step st d) as [st1|]; [|discriminate]. apply IH. exact H.
Qed.

Lemma num_state_snoc acc st st' c :
  num_state acc = Some st -> num_step st c = Some st' ->
  num_state (acc ++ [c]) = Some st'.
Proof.
  destruct acc as [|d r]; [discriminate|]. cbn [num_state app].
  destruct (num_start d) as [st0|]; [|discriminate]. intros H Hs.
  rewrite (num_run_snoc _ _ _ _ H). exact Hs.
Qed.

Lemma units16_snoc acc c :
  units16 acc = true -> c < 0x10000 -> units16 (acc ++ [c]) = true.
Proof.
  intros H Hc. unfold units16 in *. rewrite forallb_app, H. cbn [forallb].
  apply N.ltb_lt in Hc. rewrite Hc. reflexivity.
Qed.

Lemma hex_value_bound c h : hex_value c = Some h -> h < 16.
Proof.
  unfold hex_value.
  repeat match goal with
         | |- context [if ?b then _ else _] => destruct b eqn:?
         end; intros [= <-]; brange; lia.
Qed.

Lemma lex_start_ok c m out :
  lex_start c = Some (m, out) -> mode_ok m /\ Forall (fun t => token_ok t = true) out.
Proof.
  unfold lex_start. destruct (num_start c) as [st|] eqn:E.
  - intros [= <- <-]. split; [|constructor]. cbn [mode_ok num_state].
    rewrite E. reflexivity.
  - repeat match goal with
           | |- context [if ?b then _ else _] => destruct b
           end; intros [= <- <-]; split;
      try exact I; try reflexivity; repeat constructor.
Qed.

Lemma lex_step_ok m c m' out :
  mode_ok m -> c < 0x10000 -> lex_step m c = Some (m', out) ->
  mode_ok m' /\ Forall (fun t => token_ok t = true) out.
Proof.
  intros Hm Hc. destruct m as [|t ex|st acc|acc|acc|acc n v]; cbn [lex_step mode_ok] in *.
  - apply lex_start_ok.
  - destruct ex as [|e es]; [discriminate|]. destruct (c =? e); [|discriminate].
    destruct es; intros [= <- <-]; split;
      try exact I; try exact Hm; repeat constructor; exact Hm.
  - destruct (num_step st c) as [st'|] eqn:E.
    + intros [= <- <-]. split; [|constructor].
      apply (num_state_snoc _ _ _ _ Hm E).
    + destruct (num_accepting st) eqn:Ha; [|discriminate].
      destruct (lex_start c) as [[m1 out1]|] eqn:Es; [|discriminate].
      intros [= <- <-]. destruct (lex_start_ok _ _ _ Es) as [H1 H2].
      split; [exact H1|]. constructor; [|exact H2].
      cbn [token_ok]. rewrite is_number_state, Hm. exact Ha.
  - destruct (c =? 34); [|destruct (c =? 92); [|destruct (c <? 32)]];
      [| |discriminate|]; intros [= <- <-]; split;
      try exact I; try exact Hm; repeat constructor; try exact Hm.
    apply units16_snoc; assumption.
  - destruct (lex_escape acc c) as [m1|] eqn:E; [|discriminate].
    intros [= <- <-]. split; [|constructor]. unfold lex_escape in E.
    repeat match type of E with
           | context [if ?b then _ else _] => destruct b
           end; try discriminate; injection E as <-; cbn [mode_ok uni_bound];
      try (apply units16_snoc; [exact Hm|lia]).
    split; [exact Hm|lia].
  - destruct Hm as [Hacc Hv].
    destruct (hex_value c) as [h|] eqn:E; [|discriminate].
    apply hex_value_bound in E.
    destruct n as [|[|[|[|[|n]]]]]; cbn [uni_bound] in Hv; try lia;
      intros [= <- <-]; (split; [|constructor]); cbn [mode_ok pred uni_bound].
    + apply units16_snoc; [exact Hacc|lia].
    + split; [exact Hacc|lia].
    + split; [exact Hacc|lia].
    + split; [exact Hacc|lia].
Qed.

Lemma lex_run_ok s : forall m ts,
  mode_ok m -> units16 s = true -> lex_run m s = Some ts ->
  Forall (fun t => token_ok t = true) ts.
Proof.
  induction s as [|c r IH]; intros m ts Hm Hs; cbn [lex_run].
  - destruct m; cbn [lex_end]; try discriminate.
    + intros [= <-]. constructor.
    + destruct (num_accepting st) eqn:Ha; [|discriminate]. intros [= <-].
      repeat constructor. cbn [token_ok mode_ok] in *.
      rewrite is_number_state, Hm. exact Ha.
  - unfold units16 in Hs. cbn [forallb] in Hs.
    apply andb_true_iff in Hs as [Hc Hr]. apply N.ltb_lt in Hc.
    destruct (lex_step m c) as [[m' out]|] eqn:E; [|discriminate].
    destruct (lex_run m' r) as [ts'|] eqn:Er; [|discriminate]. intros [= <-].
    destruct (lex_step_ok _ _ _ _ Hm Hc E) as [Hm' Hout].
    apply Forall_app. split; [exact Hout|]. apply (IH m'); assumption.
Qed.

Lemma wf_json_arr_snoc elems v :
  wf_json (JArr elems) = true -> wf_json v = true ->
  wf_json (JArr (elems ++ [v])) = true.
Proof.
  cbn [wf_json]. intros H Hv. rewrite forallb_app, H. cbn [forallb].
  rewrite Hv. reflexivity.
Qed.

Lemma deliver_ok v stk :
  wf_json v = true -> Forall frame_ok stk -> pstate_ok (deliver v stk).
Proof.
  intros Hv Hstk. destruct stk as [|[elems|ms k] stk]; cbn [deliver pstate_ok].
  - exact Hv.
  - apply Forall_cons in Hstk as [Hf Hstk]. split; [|exact Hstk].
    apply wf_json_arr_snoc; assumption.
  - apply Forall_cons in Hstk as [[Hms Hk] Hstk]. split; [|exact Hstk].
    apply obj_set_wf; assumption.
Qed.

Lemma parse_value_ok stk t st :
  Forall frame_ok stk -> token_ok t = true -> parse_value stk t = Some st ->
  pstate_ok st.
Proof.
  intros Hstk Ht. destruct t; cbn [parse_value]; try discriminate;
    intros [= <-]; try (apply deliver_ok; [|exact Hstk]); try exact Hstk;
    try reflexivity; exact Ht.
Qed.

Lemma parse_step_ok st t st' :
  pstate_ok st -> token_ok t = true -> parse_step st t = Some st' ->
  pstate_ok st'.
Proof.
  intros Hst Ht.
  destruct st as [stk|stk|elems stk|stk|ms stk|ms k stk|ms stk|v];
    cbn [parse_step pstate_ok] in *.
  - apply parse_value_ok; assumption.
  - assert (Forall frame_ok (FArr [] :: stk)) as Hpush
      by (constructor; [reflexivity|exact Hst]).
    destruct t; try (apply parse_value_ok; assumption).
    intros [= <-]. apply deliver_ok; [reflexivity|exact Hst].
  - destruct Hst as [He Hstk]. destruct t; try discriminate; intros [= <-].
    + apply deliver_ok; assumption.
    + cbn [pstate_ok]. constructor; assumption.
  - destruct t; try discriminate; intros [= <-].
    + apply deliver_ok; [reflexivity|exact Hst].
    + cbn [pstate_ok]. repeat split; [exact Ht|exact Hst].
  - destruct Hst as [Hms Hstk]. destruct t; try discriminate; intros [= <-].
    cbn [pstate_ok]. repeat split; assumption.
  - destruct Hst as (Hms & Hk & Hstk). destruct t; try discriminate; intros [= <-].
    cbn [pstate_ok]. constructor; [split|]; assumption.
  - destruct Hst as [Hms Hstk]. destruct t; try discriminate; intros [= <-].
    + apply deliver_ok; assumption.
    + cbn [pstate_ok]. split; assumption.
  - discriminate.
Qed.

Lemma parse_run_ok ts : forall st v,
  pstate_ok st -> Forall (fun t => token_ok t = true) ts ->
  parse_run st ts = Some v -> wf_json v = true.
Proof.
  induction ts as [|t ts IH]; intros st v Hst Hts; cbn [parse_run].
  - destruct st; try discriminate. intros [= <-]. exact Hst.
  - apply Forall_cons in Hts as [Ht Hts].
    destruct (parse_step st t) as [st'|] eqn:E; [|discriminate].
    apply IH; [|exact Hts]. apply (parse_step_ok _ _ _ Hst Ht E).
Qed.

(** Whatever [JSON.parse] returns for a string of 16-bit code units is a
    well-formed value: its strings are strings of code units, its numbers
    follow the JSON grammar and the properties of every object are in the
    order in which [JSON.stringify] walks them. *)
Theorem JSON_parse_wf s v :
  units16 s = true -> JSON_parse s = Some v -> wf_json v = true.
Proof.
  unfold JSON_parse, lex. intros Hs.
  destruct (lex_run LStart s) as [ts|] eqn:E; [|discriminate].
  apply parse_run_ok; [constructor|].
  apply (lex_run_ok s LStart ts I Hs E).
Qed.

(** ** C5: staging appends, and the index reads back as the longer sequence *)

Lemma entry_text filePath fileHash :
  JSON_stringify (AriGit.entry filePath fileHash)
  = jsq "{'path':" ++ quote filePath ++ jsq ",'hash':" ++ quote fileHash ++ js "}".
Proof.
  unfold AriGit.entry. cbn [JSON_stringify map join_comma].
  change (quote (js "path")) with (jsq "'path'").
  change (quote (js "hash")) with (jsq "'hash'").
  change (jsq "{'path':") with (123 :: jsq "'path'" ++ [58]).
  change (jsq ",'hash':") with (44 :: jsq "'hash'" ++ [58]).
  change (js "}") with [125].
  cbn [app]. rewrite <- !app_assoc. cbn [app]. reflexivity.
Qed.

(** C5.  Whatever the sequence in the index (of values that hold no
    number, as the entries are), staging a pair writes back the same
    sequence with one more entry at its end and changes nothing else.  The
    entry is the object with the two properties [path] and [hash], holding
    the path and the hash that were given.  Entries with the same path are
    neither looked for nor replaced: the entries that were there are all
    still there, in place.  What is then read from the index and parsed is
    that longer sequence. *)
Theorem stage_appends w filePath fileHash text elems :
  fs_read (w_fs w) AriGit.indexPath = Ok text ->
  JSON_parse text = Some (JArr elems) ->
  number_free (JArr elems) = true ->
  let added := AriGit.entry filePath fileHash in
  let staged := elems ++ [added] in
  let w' := World (<[index_key := File (utf8_encode (JSON_stringify (JArr staged)))]>
                     (w_fs w)) (w_out w) in
  AriGit.updateStagingArea filePath fileHash w = (Ok tt, w')
  /\ length staged = S (length elems)
  /\ (forall i e, elems !! i = Some e -> staged !! i = Some e)
  /\ staged !! length elems = Some added
  /\ get_prop (Some added) (js "path") = Ok (Some (JStr filePath))
  /\ get_prop (Some added) (js "hash") = Ok (Some (JStr fileHash))
  /\ JSON_stringify added
     = jsq "{'path':" ++ quote filePath ++ jsq ",'hash':" ++ quote fileHash
         ++ js "}"
  /\ (units16 filePath = true -> units16 fileHash = true ->
      exists text', fs_read (w_fs w') AriGit.indexPath = Ok text'
                    /\ JSON_parse text' = Some (JArr staged)).
Proof.
  intros Hread Hparse _ added staged w'.
  split; [|split; [|split; [|split; [|split; [|split; [|split]]]]]].
  - apply (updateStagingArea_run _ _ _ _ _ Hread Hparse).
  - unfold staged. rewrite length_app. simpl. lia.
  - intros i e Hi. unfold staged. apply lookup_app_l_Some. exact Hi.
  - unfold staged. rewrite lookup_app_r by lia.
    replace (length elems - length elems)%nat with 0%nat by lia. reflexivity.
  - reflexivity.
  - reflexivity.
  - apply entry_text.
  - intros Hp Hh.
    apply fs_read_inv in Hread as (k & c & Hres & Hk & ->).
    apply resolve_index_inv in Hres as [Hrepo ->].
    assert (wf_json (JArr staged) = true) as Hwf.
    { apply wf_json_arr_snoc; [|apply entry_wf; assumption].
      apply (JSON_parse_wf (utf8_decode c)); [|exact Hparse].
      apply wf_utf16_units, utf8_decode_wf. }
    eexists. split; [|apply (stored_json_read_back _ Hwf)].
    apply (fs_read_file _ _ index_key).
    + apply resolve_index_ok. cbn [w_fs w'].
      rewrite lookup_insert_ne by discriminate. exact Hrepo.
    + cbn [w_fs w']. apply lookup_insert_eq.
Qed.

Lemma stage_appends_witness :
  let a := js "a.txt" in
  let h1 := js "aaf4c61ddcc5e8a2dabede0f3b482cd9aea9434d" in
  let h2 := js "2aae6c35c94fcfb415dbe95f408b9ce91ee846ed" in
  let staged := [AriGit.entry a h1] ++ [AriGit.entry a h2] in
  let w' := World (<[index_key := File (utf8_encode (JSON_stringify (JArr staged)))]>
                     (w_fs scenario_staged)) (w_out scenario_staged) in
  fs_read (w_fs scenario_staged) AriGit.indexPath
  = Ok (JSON_stringify (JArr [AriGit.entry a h1]))
  /\ JSON_parse (JSON_stringify (JArr [AriGit.entry a h1]))
     = Some (JArr [AriGit.entry a h1])
  /\ number_free (JArr [AriGit.entry a h1]) = true
  /\ AriGit.updateStagingArea a h2 scenario_staged = (Ok tt, w')
  /\ exists text', fs_read (w_fs w') AriGit.indexPath = Ok text'
                   /\ JSON_parse text' = Some (JArr staged).
Proof.
  intros a h1 h2 staged w'.
  assert (fs_read (w_fs scenario_staged) AriGit.indexPath
          = Ok (JSON_stringify (JArr [AriGit.entry a h1]))) as H1
    by (vm_compute; reflexivity).
  assert (JSON_parse (JSON_stringify (JArr [AriGit.entry a h1]))
          = Some (JArr [AriGit.entry a h1])) as H2 by (vm_compute; reflexivity).
  assert (number_free (JArr [AriGit.entry a h1]) = true) as H3 by reflexivity.
  split; [exact H1|]. split; [exact H2|]. split; [exact H3|].
  destruct (stage_appends scenario_staged a h2 _ _ H1 H2 H3)
    as (Hrun & _ & _ & _ & _ & _ & _ & Hback).
  split; [exact Hrun|]. apply Hback; reflexivity.
Defined.

(* ================================================================== *)
(** * Further properties of the methods *)

(** ** [init] *)

Lemma mkdir_walk_keeps segs : forall fs cur fs',
  mkdir_walk fs cur segs = Ok fs' ->
  forall k n, fs !! k = Some n -> fs' !! k = Some n.
Proof.
  induction segs as [|seg rest IH]; intros fs cur fs'; cbn [mkdir_walk].
  - intros [= <-] k n Hk. exact Hk.
  - destruct (jsstring_eqb seg [] || jsstring_eqb seg dot); [apply IH|].
    destruct (jsstring_eqb seg dotdot); [apply IH|].
    destruct (fs !! (cur ++ [utf8_encode_N seg])) as [[c|]|] eqn:E;
      [discriminate|apply IH|].
    intros H k n Hk. apply (IH _ _ _ H).
    rewrite lookup_insert_ne; [exact Hk|]. intros <-. congruence.
Qed.

Lemma fs_mkdir_recursive_keeps fs p fs' :
  fs_mkdir_recursive fs p = Ok fs' ->
  forall k n, fs !! k = Some n -> fs' !! k = Some n.
Proof.
  unfold fs_mkdir_recursive. destruct (has_nul p); [discriminate|].
  destruct p; [discriminate|]. apply mkdir_walk_keeps.
Qed.

Lemma fs_write_excl_keeps fs p data fs' :
  fs_write true fs p data = Ok fs' ->
  forall k n, fs !! k = Some n -> fs' !! k = Some n.
Proof.
  unfold fs_write. destruct (resolve fs p) as [k0|]; [|discriminate].
  destruct (is_above k0); [discriminate|].
  destruct (fs !! k0) as [[c|]|] eqn:E; try discriminate.
  intros [= <-] k n Hk. rewrite lookup_insert_ne; [exact Hk|].
  intros <-. congruence.
Qed.

(** X1.  In a directory where nothing is called [.arigit], [init] reports
    success and leaves a repository: the two directories, an empty HEAD and
    an index that reads back as the empty sequence.  Everything outside
    [.arigit] is as it was. *)
Theorem init_creates_repository fs out :
  fresh fs ->
  let w' := snd (AriGit.init (World fs out)) in
  AriGit.init (World fs out) = (Ok tt, w')
  /\ w_out w' = out ++ [EvInitialized]
  /\ repository (w_fs w')
  /\ fs_read (w_fs w') AriGit.headPath = Ok []
  /\ (exists text, fs_read (w_fs w') AriGit.indexPath = Ok text
                   /\ JSON_parse text = Some (JArr []))
  /\ (forall k, head k <> Some (js ".arigit") -> w_fs w' !! k = fs !! k).
Proof.
  intros Hfresh w'. unfold w'. rewrite (init_fresh _ _ Hfresh). cbn [snd w_fs w_out].
  pose proof (initialized_repository _ Hfresh) as R.
  split; [reflexivity|]. split; [reflexivity|]. split; [exact R|].
  split; [|split].
  - apply (fs_read_file _ _ head_key []); [apply resolve_head_ok, R|].
    unfold initialized. rewrite lookup_insert_ne by discriminate.
    apply lookup_insert_eq.
  - exists (js "[]"). split; [|reflexivity].
    apply (fs_read_file _ _ index_key (bytes_of "[]"));
      [apply resolve_index_ok, R|apply lookup_insert_eq].
  - intros k Hk. unfold initialized.
    rewrite !lookup_insert_ne; [reflexivity|..]; intros <-; apply Hk; reflexivity.
Qed.

Lemma init_creates_repository_witness :
  fresh scenario_files
  /\ repository (w_fs (snd (AriGit.init (World scenario_files []))))
  /\ fs_read (w_fs (snd (AriGit.init (World scenario_files [])))) AriGit.headPath
     = Ok [].
Proof.
  split; [exact scenario_files_fresh|].
  destruct (init_creates_repository scenario_files [] scenario_files_fresh)
    as (_ & _ & R & Hhead & _).
  split; [exact R|exact Hhead].
Defined.

(** X2.  [init] never overwrites: whatever it reports, every file and
    directory that was there before is there unchanged after it. *)
Theorem init_keeps_existing w k n :
  w_fs w !! k = Some n -> w_fs (snd (AriGit.init w)) !! k = Some n.
Proof.
  intros Hk. unfold AriGit.init, try_catch, bind, mkdir_recursive, writeFile, print.
  destruct (fs_mkdir_recursive (w_fs w) AriGit.objectsPath) as [fs1|e1] eqn:E1;
    [|exact Hk].
  pose proof (fs_mkdir_recursive_keeps _ _ _ E1 k n Hk) as H1. cbn [w_fs w_out].
  destruct (fs_write true fs1 AriGit.headPath []) as [fs2|e2] eqn:E2;
    [|exact H1].
  pose proof (fs_write_excl_keeps _ _ _ _ E2 k n H1) as H2. cbn [w_fs w_out].
  destruct (fs_write true fs2 AriGit.indexPath _) as [fs3|e3] eqn:E3;
    [|exact H2].
  exact (fs_write_excl_keeps _ _ _ _ E3 k n H2).
Qed.

Lemma init_keeps_existing_witness :
  let index :=
    File (utf8_encode (JSON_stringify
            (JArr [AriGit.entry (js "a.txt")
                     (js "aaf4c61ddcc5e8a2dabede0f3b482cd9aea9434d")]))) in
  w_fs scenario_staged !! index_key = Some index
  /\ w_fs (snd (AriGit.init scenario_staged)) !! index_key = Some index.
Proof.
  intros index.
  assert (w_fs scenario_staged !! index_key = Some index) as H
    by (vm_compute; reflexivity).
  split; [exact H|]. exact (init_keeps_existing scenario_staged _ _ H).
Defined.

(** X3.  In a repository [init] reports that it is already initialized
    and changes nothing: HEAD and the index keep their contents. *)
Theorem init_again_changes_nothing fs out :
  repository fs ->
  AriGit.init (World fs out) = (Ok tt, World fs (out ++ [EvAlreadyInitialized])).
Proof.
  intros R. destruct (repo_head _ R) as [c Hc].
  unfold AriGit.init, try_catch, bind at 1, mkdir_recursive. cbn [w_fs w_out].
  assert (fs_mkdir_recursive fs AriGit.objectsPath = Ok fs) as ->.
  { unfold fs_mkdir_recursive.
    change (has_nul AriGit.objectsPath) with false.
    change (split_on 47 AriGit.objectsPath) with [js ".arigit"; js "objects"].
    change AriGit.objectsPath with (46 :: js "arigit/objects").
    change (is_absolute (46 :: js "arigit/objects")) with false.
    cbv iota. cbn [mkdir_walk].
    change (jsstring_eqb (js ".arigit") [] || jsstring_eqb (js ".arigit") dot) with false.
    change (jsstring_eqb (js ".arigit") dotdot) with false.
    change (jsstring_eqb (js "objects") [] || jsstring_eqb (js "objects") dot) with false.
    change (jsstring_eqb (js "objects") dotdot) with false.
    cbv iota.
    change ([] ++ [utf8_encode_N (js ".arigit")]) with [js ".arigit"].
    rewrite (repo_dir _ R).
    change ([js ".arigit"] ++ [utf8_encode_N (js "objects")])
      with [js ".arigit"; js "objects"].
    rewrite (repo_objects _ R). reflexivity. }
  unfold bind at 1, writeFile at 1. cbn [w_fs w_out].
  assert (fs_write true fs AriGit.headPath [] = Throw (IOError EEXIST)) as ->.
  { unfold fs_write. rewrite (resolve_head_ok _ (repo_dir _ R)).
    change (is_above head_key) with false. cbv iota. rewrite Hc. reflexivity. }
  reflexivity.
Qed.

Lemma init_again_changes_nothing_witness :
  repository (w_fs scenario_init)
  /\ AriGit.init (World (w_fs scenario_init) [])
     = (Ok tt, World (w_fs scenario_init) ([] ++ [EvAlreadyInitialized])).
Proof.
  split; [exact scenario_init_repository|].
  exact (init_again_changes_nothing _ [] scenario_init_repository).
Defined.

(** ** [hashObject] and the object paths *)

(** X4.  Whatever the content, its digest is forty lower-case hexadecimal
    characters, and the path [add] and [commit] build from it is
    [.arigit/objects/] followed by the digest: in a repository it names a
    direct child of [objects]. *)
Theorem object_path_in_store content fs :
  let h := hashObject content in
  is_digest h
  /\ path_join AriGit.objectsPath h = js ".arigit/objects/" ++ h
  /\ (fs !! [js ".arigit"] = Some Dir ->
      fs !! [js ".arigit"; js "objects"] = Some Dir ->
      resolve fs (path_join AriGit.objectsPath h) = Ok (object_key h)).
Proof.
  intros h. pose proof (hashObject_is_digest content) as Hd. fold h in Hd.
  split; [exact Hd|]. split; [apply path_join_objects; exact Hd|].
  apply resolve_object_ok. exact Hd.
Qed.

(** ** [add] *)

Lemma fs_read_index fs :
  fs !! [js ".arigit"] = Some Dir ->
  fs_read fs AriGit.indexPath
  = match fs !! index_key with
    | Some (File c) => Ok (utf8_decode c)
    | Some Dir => Throw (IOError EISDIR)
    | None => Throw (IOError ENOENT)
    end.
Proof.
  intros Hrepo. unfold fs_read. rewrite (resolve_index_ok _ Hrepo). reflexivity.
Qed.

Lemma fs_read_index_other fs k n :
  fs !! [js ".arigit"] = Some Dir -> k <> index_key -> k <> [js ".arigit"] ->
  fs_read (<[k := n]> fs) AriGit.indexPath = fs_read fs AriGit.indexPath.
Proof.
  intros Hrepo K1 K2. rewrite !fs_read_index;
    rewrite ?lookup_insert_ne by congruence; auto.
Qed.

(** X5.  When staging fails (the index cannot be read, is not JSON, or
    holds something that is not an array) [add] has nevertheless stored the
    object and ends with its success message, after the message of the
    staging error; the index is as it was. *)
Theorem add_reports_success_when_staging_fails fs out file fileData e :
  fs_read fs file = Ok fileData ->
  fs !! [js ".arigit"] = Some Dir ->
  fs !! [js ".arigit"; js "objects"] = Some Dir ->
  fs !! object_key (hashObject fileData) <> Some Dir ->
  (fs_read fs AriGit.indexPath = Throw e
   \/ exists text,
        fs_read fs AriGit.indexPath = Ok text
        /\ (JSON_parse text = None /\ e = SyntaxError
            \/ exists v, JSON_parse text = Some v
                         /\ (forall elems, v <> JArr elems) /\ e = TypeError)) ->
  AriGit.add file (World fs out)
  = (Ok tt,
     World (<[object_key (hashObject fileData) := File (utf8_encode fileData)]> fs)
       (out ++ [EvErrorStaging e; EvAdded file])).
Proof.
  intros Hread Hrepo Hobjs Hobj Hfail.
  rewrite (add_run (World fs out) file fileData Hread Hrepo Hobjs Hobj).
  cbn [w_fs w_out]. cbv zeta.
  set (h := hashObject fileData) in *.
  pose proof (keys_distinct h) as (_ & K2 & _ & K4 & _).
  assert (AriGit.updateStagingArea file h
            (World (<[object_key h := File (utf8_encode fileData)]> fs) out)
          = (Ok tt, World (<[object_key h := File (utf8_encode fileData)]> fs)
                      (out ++ [EvErrorStaging e]))) as ->.
  { unfold AriGit.updateStagingArea, try_catch, bind, readFile, parse, lift, ret,
      print. cbn [w_fs w_out].
    rewrite (fs_read_index_other _ _ _ Hrepo K2 K4).
    destruct Hfail as [->|(text & -> & [[-> ->]|(v & -> & Hv & ->)])];
      [reflexivity..|].
    destruct v; try reflexivity. exfalso. eapply Hv. reflexivity. }
  cbn [snd w_fs w_out]. rewrite <- app_assoc. reflexivity.
Qed.

Lemma add_reports_success_when_staging_fails_witness :
  let fs := w_fs scenario_object_index in
  let d := js "aaf4c61ddcc5e8a2dabede0f3b482cd9aea9434d" in
  fs_read fs AriGit.indexPath = Ok (js "{}")
  /\ JSON_parse (js "{}") = Some (JObj [])
  /\ AriGit.add (js "a.txt") (World fs [])
     = (Ok tt, World (<[object_key d := File (utf8_encode (js "hello"))]> fs)
                 ([] ++ [EvErrorStaging TypeError; EvAdded (js "a.txt")])).
Proof.
  intros fs d.
  assert (fs_read fs AriGit.indexPath = Ok (js "{}")) as Hindex
    by (vm_compute; reflexivity).
  assert (JSON_parse (js "{}") = Some (JObj [])) as Hparse by reflexivity.
  split; [exact Hindex|]. split; [exact Hparse|].
  assert (fs_read fs (js "a.txt") = Ok (js "hello")) as Hread
    by (vm_compute; reflexivity).
  assert (hashObject (js "hello") = d) as Hd by (vm_compute; reflexivity).
  rewrite <- Hd.
  apply (add_reports_success_when_staging_fails fs [] (js "a.txt") (js "hello")
           TypeError Hread).
  - vm_compute; reflexivity.
  - vm_compute; reflexivity.
  - rewrite Hd. vm_compute. discriminate.
  - right. exists (js "{}"). split; [exact Hindex|]. right.
    exists (JObj []). split; [exact Hparse|]. split; [discriminate|reflexivity].
Defined.

(** X6.  [add] changes at most two entries of the file system: the
    object named by the digest of what it read, and the index.  HEAD, the
    other objects and the working files are as they were, whether [add]
    succeeds or not. *)
Theorem add_changes_object_and_index_only w file k :
  k <> index_key ->
  (forall fileData, fs_read (w_fs w) file = Ok fileData ->
                    k <> object_key (hashObject fileData)) ->
  w_fs (snd (AriGit.add file w)) !! k = w_fs w !! k.
Proof.
  intros Hindex Hobject.
  unfold AriGit.add, try_catch, bind at 1, readFile at 1.
  destruct (fs_read (w_fs w) file) as [fileData|e] eqn:Hread; [|reflexivity].
  specialize (Hobject fileData eq_refl).
  unfold bind at 1, writeFile at 1.
  destruct (fs_write false (w_fs w) _ fileData) as [fs1|e1] eqn:W1; [|reflexivity].
  apply fs_write_inv in W1 as (k1 & R1 & _ & ->).
  apply (resolve_object_inv _ _ _ (hashObject_is_digest fileData)) in R1
    as (_ & _ & ->).
  unfold bind at 1.
  match goal with |- context [AriGit.updateStagingArea ?p ?h ?w1] =>
    pose proof (updateStagingArea_other_keys w1 p h k Hindex) as Hs;
    destruct (AriGit.updateStagingArea p h w1) as [[[]|e2] w2] end;
    cbn [snd w_fs print] in *; rewrite Hs; apply lookup_insert_ne; congruence.
Qed.

Lemma add_changes_object_and_index_only_witness :
  w_fs (snd (AriGit.add (js "a.txt") scenario_init)) !! head_key
  = w_fs scenario_init !! head_key.
Proof.
  apply (add_changes_object_and_index_only scenario_init (js "a.txt") head_key).
  - discriminate.
  - intros fileData _. discriminate.
Defined.

(** ** [commit] *)

(** X7.  [commit] changes nothing but HEAD, the index and objects: every
    other entry of the file system, the working files among them, is as it
    was, whether [commit] succeeds or not. *)
Theorem commit_changes_repository_only w now user message k :
  k <> index_key -> k <> head_key -> (forall d, k <> object_key d) ->
  w_fs (snd (AriGit.commit now user message w)) !! k = w_fs w !! k.
Proof.
  intros Hindex Hhead Hobject.
  unfold AriGit.commit, try_catch, bind at 1, readFile at 1.
  destruct (fs_read (w_fs w) AriGit.indexPath) as [text|e]; [|reflexivity].
  unfold bind at 1, parse.
  destruct (JSON_parse text) as [index|]; [|reflexivity].
  unfold ret at 1. unfold bind at 1. rewrite getCurrentHead_run.
  set (w1 := match fs_read (w_fs w) AriGit.headPath with
             | Ok head => (Ok (Some head), w)
             | Throw e => (Ok None, World (w_fs w) (w_out w ++ [EvErrorReadingHead e]))
             end).
  assert (exists head out1, w1 = (Ok head, World (w_fs w) out1)) as (head & out1 & ->).
  { unfold w1. destruct (fs_read (w_fs w) AriGit.headPath), w; eauto. }
  set (commitData := AriGit.commitRecord _ _ _ _ _).
  set (h := hashObject (JSON_stringify commitData)).
  unfold bind at 1, writeFile at 1. cbn [w_fs w_out].
  destruct (fs_write false (w_fs w) _ _) as [fs1|e1] eqn:W1; [|reflexivity].
  apply fs_write_inv in W1 as (k1 & R1 & _ & ->).
  apply (resolve_object_inv _ _ _ (hashObject_is_digest _)) in R1 as (_ & _ & ->).
  unfold bind at 1, writeFile at 1. cbn [w_fs w_out].
  destruct (fs_write false _ AriGit.headPath _) as [fs2|e2] eqn:W2;
    [|cbn [snd w_fs print]; apply lookup_insert_ne; apply not_eq_sym, Hobject].
  apply fs_write_inv in W2 as (k2 & R2 & _ & ->).
  apply resolve_head_inv in R2 as (_ & ->).
  unfold bind at 1, writeFile at 1. cbn [w_fs w_out].
  destruct (fs_write false _ AriGit.indexPath _) as [fs3|e3] eqn:W3.
  - apply fs_write_inv in W3 as (k3 & R3 & _ & ->).
    apply resolve_index_inv in R3 as (_ & ->).
    cbn [snd w_fs print]. rewrite !lookup_insert_ne; auto.
  - cbn [snd w_fs print]. rewrite !lookup_insert_ne; auto.
Qed.

Lemma commit_changes_repository_only_witness :
  w_fs (snd (AriGit.commit 1700000000000 None (js "first") scenario_staged))
    !! [js "a.txt"]
  = w_fs scenario_staged !! [js "a.txt"].
Proof.
  apply (commit_changes_repository_only scenario_staged 1700000000000 None
           (js "first") [js "a.txt"]); discriminate.
Defined.

(** ** What only reads: [log] and [showCommitDiff] *)

Lemma only_prints_ret {A} (a : A) : only_prints (ret a).
Proof. intros [fs out]. exists []. cbn. rewrite app_nil_r. reflexivity. Qed.

Lemma only_prints_lift {A} (r : result A) : only_prints (lift r).
Proof. intros [fs out]. exists []. cbn. rewrite app_nil_r. reflexivity. Qed.

Lemma only_prints_print e : only_prints (print e).
Proof. intros w. exists [e]. reflexivity. Qed.

Lemma only_prints_readFile p : only_prints (readFile p).
Proof. intros [fs out]. exists []. cbn. rewrite app_nil_r. reflexivity. Qed.

Lemma only_prints_bind {A B} (m : M A) (f : A -> M B) :
  only_prints m -> (forall a, only_prints (f a)) -> only_prints (bind m f).
Proof.
  intros Hm Hf w. unfold bind. destruct (Hm w) as [p1 H1].
  destruct (m w) as [[a|e] w1]; cbn [snd] in H1; subst w1.
  - destruct (Hf a (World (w_fs w) (w_out w ++ p1))) as [p2 H2].
    exists (p1 ++ p2). rewrite H2. cbn [w_fs w_out]. rewrite app_assoc. reflexivity.
  - exists p1. reflexivity.
Qed.

Lemma only_prints_try_catch {A} (body : M A) (handler : error -> M A) :
  only_prints body -> (forall e, only_prints (handler e)) ->
  only_prints (try_catch body handler).
Proof.
  intros Hm Hf w. unfold try_catch. destruct (Hm w) as [p1 H1].
  destruct (body w) as [[a|e] w1]; cbn [snd] in H1; subst w1.
  - exists p1. reflexivity.
  - destruct (Hf e (World (w_fs w) (w_out w ++ p1))) as [p2 H2].
    exists (p1 ++ p2). rewrite H2. cbn [w_fs w_out]. rewrite app_assoc. reflexivity.
Qed.

Lemma only_prints_join_value a b : only_prints (join_value a b).
Proof.
  destruct b as [[]|]; cbn [join_value];
    auto using only_prints_ret, only_prints_lift.
Qed.

Lemma only_prints_parse s : only_prints (parse s).
Proof.
  destruct s as [t|]; cbn [parse]; [destruct (JSON_parse t)|];
    auto using only_prints_ret, only_prints_lift.
Qed.

Lemma only_prints_for_each {A} (body : A -> M unit) l :
  (forall x, only_prints (body x)) -> only_prints (AriGit.for_each body l).
Proof.
  intros Hb. induction l as [|x l IH]; cbn [AriGit.for_each].
  - apply only_prints_ret.
  - apply only_prints_bind; auto.
Qed.

Ltac only_prints_using leaf :=
  repeat first
    [ apply only_prints_ret | apply only_prints_lift | apply only_prints_print
    | apply only_prints_readFile | apply only_prints_join_value
    | apply only_prints_parse
    | leaf
    | apply only_prints_bind; [|intros ?]
    | apply only_prints_try_catch; [|intros ?]
    | apply only_prints_for_each; intros ?
    | match goal with
      | |- only_prints (if ?b then _ else _) => destruct b
      | |- only_prints (match ?x with _ => _ end) => destruct x
      end ].

Lemma only_prints_getCommitData commitHash :
  only_prints (AriGit.getCommitData commitHash).
Proof. unfold AriGit.getCommitData. only_prints_using fail. Qed.

Lemma only_prints_getFileContent fileHash :
  only_prints (AriGit.getFileContent fileHash).
Proof. unfold AriGit.getFileContent. only_prints_using fail. Qed.

Lemma only_prints_getParentFileContent parentCommitData filePath :
  only_prints (AriGit.getParentFileContent parentCommitData filePath).
Proof.
  unfold AriGit.getParentFileContent.
  only_prints_using ltac:(apply only_prints_getFileContent).
Qed.

Lemma only_prints_show_file commitData file :
  only_prints (AriGit.show_file commitData file).
Proof.
  unfold AriGit.show_file.
  only_prints_using ltac:(first [ apply only_prints_getFileContent
                                | apply only_prints_getCommitData
                                | apply only_prints_getParentFileContent ]).
Qed.

(** X8.  [showCommitDiff] only reads and prints: whatever the commit hash
    and the state, it returns normally, the file system is as it was, and
    the console holds what it held, followed by what was printed. *)
Theorem showCommitDiff_only_prints commitHash w :
  exists printed,
    AriGit.showCommitDiff commitHash w
    = (Ok tt, World (w_fs w) (w_out w ++ printed)).
Proof.
  assert (only_prints (AriGit.showCommitDiff commitHash)) as H.
  { unfold AriGit.showCommitDiff.
    only_prints_using ltac:(first [ apply only_prints_getCommitData
                                  | apply only_prints_show_file ]). }
  destruct (H w) as [printed Hw]. exists printed. rewrite <- Hw.
  unfold AriGit.showCommitDiff, try_catch, print.
  destruct (bind _ _ w) as [[[]|e] w1]; reflexivity.
Qed.

Lemma only_prints_log_body v : only_prints (AriGit.log_body v).
Proof. unfold AriGit.log_body. only_prints_using fail. Qed.

Lemma log_loop_only_prints fuel : forall v w r w',
  AriGit.log_loop fuel v w = Some (r, w') ->
  exists printed, w' = World (w_fs w) (w_out w ++ printed).
Proof.
  induction fuel as [|fuel IH]; intros v [fs out] r w'; cbn [AriGit.log_loop];
    destruct (truthy v); try discriminate;
    try (intros [= <- <-]; exists []; cbn; rewrite app_nil_r; reflexivity).
  destruct (only_prints_log_body v (World fs out)) as [p1 H1].
  destruct (AriGit.log_body v (World fs out)) as [[next|e] w1];
    cbn [snd w_fs w_out] in H1; subst w1.
  - intros H. apply IH in H as [p2 ->]. exists (p1 ++ p2).
    cbn [w_fs w_out]. rewrite app_assoc. reflexivity.
  - intros [= <- <-]. exists p1. reflexivity.
Qed.

(** X9.  [log] only reads and prints: when it ends, it has returned
    normally, the file system is as it was, and the console holds what it
    held, followed by what was printed. *)
Theorem log_only_prints fuel w r w' :
  AriGit.log fuel w = Some (r, w') ->
  r = Ok tt /\ exists printed, w' = World (w_fs w) (w_out w ++ printed).
Proof.
  unfold AriGit.log. rewrite getCurrentHead_run.
  assert (exists head p0,
            match fs_read (w_fs w) AriGit.headPath with
            | Ok head => (Ok (Some head), w)
            | Throw e => (Ok None, World (w_fs w) (w_out w ++ [EvErrorReadingHead e]))
            end = (Ok head, World (w_fs w) (w_out w ++ p0))) as (head & p0 & ->).
  { destruct (fs_read (w_fs w) AriGit.headPath) as [head|e], w as [fs out];
      cbn [w_fs w_out]; [exists (Some head), []|exists None, [EvErrorReadingHead e]];
      rewrite ?app_nil_r; reflexivity. }
  destruct (AriGit.log_loop fuel _ _) as [[[[]|e] w2]|] eqn:E; try discriminate;
    apply log_loop_only_prints in E as [p1 ->]; cbn [w_fs w_out print];
    intros [= <- <-]; (split; [reflexivity|]).
  - exists (p0 ++ p1). rewrite app_assoc. reflexivity.
  - exists (p0 ++ p1 ++ [EvErrorLog e]). rewrite !app_assoc. reflexivity.
Qed.

Lemma log_only_prints_witness :
  exists r w',
    AriGit.log 2 step6 = Some (r, w')
    /\ r = Ok tt
    /\ exists printed, w' = World (w_fs step6) (w_out step6 ++ printed).
Proof.
  destruct (AriGit.log 2 step6) as [[r w']|] eqn:E.
  - exists r, w'. split; [reflexivity|]. exact (log_only_prints 2 step6 r w' E).
  - exfalso.
    assert (match AriGit.log 2 step6 with Some _ => true | None => false end = true)
      as H by (vm_compute; reflexivity).
    rewrite E in H. discriminate.
Defined.

(** ** Every command returns and reports *)

Lemma updateStagingArea_returns filePath fileHash w :
  exists fs' printed,
    AriGit.updateStagingArea filePath fileHash w
    = (Ok tt, World fs' (w_out w ++ printed))
    /\ (printed = [] \/ exists e, printed = [EvErrorStaging e]).
Proof.
  destruct w as [fs out].
  unfold AriGit.updateStagingArea, try_catch, bind, readFile, parse, lift, ret,
    writeFile, print. cbn [w_fs w_out].
  destruct (fs_read fs AriGit.indexPath) as [text|e]; [|eauto 6].
  destruct (JSON_parse text) as [index|]; [|eauto 6].
  destruct (AriGit.push index _) as [index'|e]; [|eauto 6]. cbn [w_fs w_out].
  match goal with |- context [fs_write false fs ?p ?d] =>
    destruct (fs_write false fs p d) as [fs'|e] end; [|eauto 6].
  exists fs', []. rewrite app_nil_r. auto.
Qed.

(** X10.  [init], [add] and [commit] never throw, whatever the state of
    the file system, and each ends with exactly one line that says how it
    went: [init] prints only that line; [add] may print the staging error
    before its success line; [commit] may print the error of reading HEAD
    before its last line. *)
Theorem commands_return_and_report w file now user message :
  (exists fs' e,
     AriGit.init w = (Ok tt, World fs' (w_out w ++ [e]))
     /\ (e = EvInitialized \/ e = EvAlreadyInitialized))
  /\ (exists fs' printed,
        AriGit.add file w = (Ok tt, World fs' (w_out w ++ printed))
        /\ (printed = [EvAdded file]
            \/ (exists e, printed = [EvErrorStaging e; EvAdded file])
            \/ (exists e, printed = [EvErrorAdding e])))
  /\ (exists fs' before final,
        AriGit.commit now user message w
        = (Ok tt, World fs' (w_out w ++ before ++ [final]))
        /\ (before = [] \/ exists e, before = [EvErrorReadingHead e])
        /\ ((exists h, final = EvCommitted h)
            \/ (exists e, final = EvErrorCommitting e))).
Proof.
  destruct w as [fs out]. split; [|split].
  - unfold AriGit.init, try_catch, bind, mkdir_recursive, writeFile, print.
    cbn [w_fs w_out].
    destruct (fs_mkdir_recursive fs _) as [fs1|e1]; [|eauto 6]. cbn [w_fs w_out].
    destruct (fs_write true fs1 _ _) as [fs2|e2]; [|eauto 6]. cbn [w_fs w_out].
    destruct (fs_write true fs2 _ _) as [fs3|e3]; eauto 6.
  - unfold AriGit.add, try_catch, bind at 1, readFile at 1. cbn [w_fs w_out].
    destruct (fs_read fs file) as [fileData|e]; [|unfold print; eauto 8].
    unfold bind at 1, writeFile at 1. cbn [w_fs w_out].
    destruct (fs_write false fs _ fileData) as [fs1|e1]; [|unfold print; eauto 8].
    unfold bind at 1.
    match goal with |- context [AriGit.updateStagingArea ?p ?h ?w1] =>
      destruct (updateStagingArea_returns p h w1) as (fs2 & p2 & -> & Hp2) end.
    unfold print. cbn [w_fs w_out]. exists fs2, (p2 ++ [EvAdded file]).
    rewrite app_assoc. split; [reflexivity|].
    destruct Hp2 as [->|[e ->]]; [left; reflexivity|right; left; eauto].
  - unfold AriGit.commit, try_catch, bind at 1, readFile at 1. cbn [w_fs w_out].
    destruct (fs_read fs AriGit.indexPath) as [text|e];
      [|unfold print; exists fs, [], (EvErrorCommitting e); eauto 8].
    unfold bind at 1, parse.
    destruct (JSON_parse text) as [index|];
      [|unfold lift, print; exists fs, [], (EvErrorCommitting SyntaxError); eauto 8].
    unfold ret at 1. unfold bind at 1. rewrite getCurrentHead_run. cbn [w_fs w_out].
    assert (exists head before,
              match fs_read fs AriGit.headPath with
              | Ok head => (Ok (Some head), World fs out)
              | Throw e => (Ok None, World fs (out ++ [EvErrorReadingHead e]))
              end = (Ok head, World fs (out ++ before))
              /\ (before = [] \/ exists e, before = [EvErrorReadingHead e]))
      as (head & before & -> & Hbefore).
    { destruct (fs_read fs AriGit.headPath) as [head|e];
        [exists (Some head), []|exists None, [EvErrorReadingHead e]];
        rewrite ?app_nil_r; eauto. }
    unfold bind, writeFile, print. cbn [w_fs w_out].
    destruct (fs_write false fs _ _) as [fs1|e1]; cbn [w_fs w_out];
      [|exists fs, before, (EvErrorCommitting e1); rewrite app_assoc; eauto 8].
    destruct (fs_write false fs1 _ _) as [fs2|e2]; cbn [w_fs w_out];
      [|exists fs1, before, (EvErrorCommitting e2); rewrite app_assoc; eauto 8].
    destruct (fs_write false fs2 _ _) as [fs3|e3]; cbn [w_fs w_out];
      [|exists fs2, before, (EvErrorCommitting e3); rewrite app_assoc; eauto 8].
    eexists fs3, before, (EvCommitted _). rewrite app_assoc. eauto 8.
Qed.

(** ** [showCommitDiff] on what is not a commit, and without a diff *)

Lemma getCommitData_read fs out h text :
  fs_read fs (path_join AriGit.objectsPath h) = Ok text ->
  AriGit.getCommitData (Some (JStr h)) (World fs out) = (Ok (Some text), World fs out).
Proof.
  intros Hread.
  unfold AriGit.getCommitData, try_catch, bind, join_value, ret, readFile.
  cbn [w_fs w_out]. rewrite Hread. reflexivity.
Qed.

Lemma getCommitData_failed fs out h e :
  fs_read fs (path_join AriGit.objectsPath h) = Throw e ->
  AriGit.getCommitData (Some (JStr h)) (World fs out)
  = (Ok None, World fs (out ++ [EvFailedReadCommit e])).
Proof.
  intros Hread.
  unfold AriGit.getCommitData, try_catch, bind, join_value, ret, readFile, print.
  cbn [w_fs w_out]. rewrite Hread. reflexivity.
Qed.

(** X11.  [showCommitDiff] on a hash under which no object can be read
    reports the failed read and then that the commit was not found; it shows
    nothing else. *)
Theorem show_unknown_commit fs out commitHash e :
  fs_read fs (path_join AriGit.objectsPath commitHash) = Throw e ->
  AriGit.showCommitDiff commitHash (World fs out)
  = (Ok tt, World fs (out ++ [EvFailedReadCommit e; EvCommitNotFound])).
Proof.
  intros Hread. unfold AriGit.showCommitDiff, try_catch, bind at 1.
  rewrite (getCommitData_failed _ _ _ _ Hread).
  unfold bind, parse, ret, print. cbn [truthy negb w_fs w_out].
  rewrite <- app_assoc. reflexivity.
Qed.

Lemma show_unknown_commit_witness :
  let h := js "0000000000000000000000000000000000000000" in
  fs_read (w_fs scenario_staged) (path_join AriGit.objectsPath h)
  = Throw (IOError ENOENT)
  /\ AriGit.showCommitDiff h (World (w_fs scenario_staged) [])
     = (Ok tt, World (w_fs scenario_staged)
                 ([] ++ [EvFailedReadCommit (IOError ENOENT); EvCommitNotFound])).
Proof.
  intros h.
  assert (fs_read (w_fs scenario_staged) (path_join AriGit.objectsPath h)
          = Throw (IOError ENOENT)) as H by (vm_compute; reflexivity).
  split; [exact H|]. exact (show_unknown_commit _ [] h _ H).
Defined.

(** X12.  [showCommitDiff] on the hash of an object whose text is not
    JSON (the blob of a file, say) prints one error line and nothing
    else. *)
Theorem show_object_not_json fs out commitHash text :
  fs_read fs (path_join AriGit.objectsPath commitHash) = Ok text ->
  JSON_parse text = None ->
  AriGit.showCommitDiff commitHash (World fs out)
  = (Ok tt, World fs (out ++ [EvErrorShow SyntaxError])).
Proof.
  intros Hread Hparse. unfold AriGit.showCommitDiff, try_catch, bind at 1.
  rewrite (getCommitData_read _ _ _ _ Hread).
  unfold bind, parse, lift, print. rewrite Hparse. reflexivity.
Qed.

Lemma show_object_not_json_witness :
  let h := js "aaf4c61ddcc5e8a2dabede0f3b482cd9aea9434d" in
  fs_read (w_fs scenario_staged) (path_join AriGit.objectsPath h) = Ok (js "hello")
  /\ JSON_parse (js "hello") = None
  /\ AriGit.showCommitDiff h (World (w_fs scenario_staged) [])
     = (Ok tt, World (w_fs scenario_staged) ([] ++ [EvErrorShow SyntaxError])).
Proof.
  intros h.
  assert (fs_read (w_fs scenario_staged) (path_join AriGit.objectsPath h)
          = Ok (js "hello")) as H by (vm_compute; reflexivity).
  assert (JSON_parse (js "hello") = None) as Hp by reflexivity.
  split; [exact H|]. split; [exact Hp|].
  exact (show_object_not_json _ [] h _ H Hp).
Defined.

Lemma for_each_events {A B} (g : A -> B) (body : B -> M unit)
    (evs : A -> list event) fs l :
  Forall (fun x => forall out, body (g x) (World fs out)
                               = (Ok tt, World fs (out ++ evs x))) l ->
  forall out,
    AriGit.for_each body (map g l) (World fs out)
    = (Ok tt, World fs (out ++ concat (map evs l))).
Proof.
  induction 1 as [|x l Hx _ IH]; intros out; cbn [AriGit.for_each map concat].
  - unfold ret. rewrite app_nil_r. reflexivity.
  - unfold bind. rewrite Hx, IH, <- app_assoc. reflexivity.
Qed.

Lemma entry_path p d :
  get_prop (Some (AriGit.entry p d)) (js "path") = Ok (Some (JStr p)).
Proof. reflexivity. Qed.

Lemma entry_hash p d :
  get_prop (Some (AriGit.entry p d)) (js "hash") = Ok (Some (JStr d)).
Proof. reflexivity. Qed.

Lemma getFileContent_read fs out d c :
  fs_read fs (path_join AriGit.objectsPath d) = Ok c ->
  AriGit.getFileContent (Some (JStr d)) (World fs out) = (Ok c, World fs out).
Proof.
  intros Hread. unfold AriGit.getFileContent, bind, join_value, ret, readFile.
  cbn [w_fs w_out]. rewrite Hread. reflexivity.
Qed.

Lemma show_file_run commitData p d c fs out :
  fs_read fs (path_join AriGit.objectsPath d) = Ok c ->
  AriGit.show_file commitData (AriGit.entry p d) (World fs out)
  = (let* parent := lift (get_prop (Some commitData) (js "parent")) in
     if truthy parent then
       let* text := AriGit.getCommitData parent in
       let* parentCommitData := parse text in
       let* parentFileContent :=
         AriGit.getParentFileContent parentCommitData (Some (JStr p)) in
       match parentFileContent with
       | Some old =>
           print EvDiffHeader >>
           AriGit.for_each (fun part => print (AriGit.render part)) (diffLines old c)
       | None => print EvNewFile
       end
     else print EvFirstCommit)
      (World fs (out ++ [EvFile (Some (JStr p)); EvContent c])).
Proof.
  intros Hread. unfold AriGit.show_file. rewrite entry_path, entry_hash.
  unfold bind at 1, lift at 1. unfold bind at 1, print at 1. cbn [w_fs w_out].
  unfold bind at 1, lift at 1. unfold bind at 1.
  rewrite (getFileContent_read _ _ _ _ Hread).
  unfold bind at 1, print at 1. cbn [w_fs w_out].
  rewrite <- app_assoc. reflexivity.
Qed.

Lemma show_file_first_commit commitData parent p d c fs out :
  get_prop (Some commitData) (js "parent") = Ok parent ->
  truthy parent = false ->
  fs_read fs (path_join AriGit.objectsPath d) = Ok c ->
  AriGit.show_file commitData (AriGit.entry p d) (World fs out)
  = (Ok tt, World fs (out ++ [EvFile (Some (JStr p)); EvContent c; EvFirstCommit])).
Proof.
  intros Hparent Hfalsy Hread.
  rewrite (show_file_run commitData p d c fs out Hread).
  unfold bind, lift. rewrite Hparent, Hfalsy.
  unfold print. cbn [w_fs w_out]. rewrite <- app_assoc. reflexivity.
Qed.

Lemma show_commit_files fs out commitHash text commitData elems :
  fs_read fs (path_join AriGit.objectsPath commitHash) = Ok text ->
  JSON_parse text = Some commitData ->
  get_prop (Some commitData) (js "files") = Ok (Some (JArr elems)) ->
  AriGit.showCommitDiff commitHash (World fs out)
  = match AriGit.for_each (AriGit.show_file commitData) elems
            (World fs (out ++ [EvChanges])) with
    | (Ok _, w') => (Ok tt, w')
    | (Throw e, w') => (Ok tt, World (w_fs w') (w_out w' ++ [EvErrorShow e]))
    end.
Proof.
  intros Hread Hparse Hfiles. unfold AriGit.showCommitDiff, try_catch, bind at 1.
  rewrite (getCommitData_read _ _ _ _ Hread).
  unfold bind at 1, parse. rewrite Hparse. unfold ret at 1.
  assert (truthy (Some commitData) = true) as ->
    by (destruct commitData; try discriminate; reflexivity).
  cbn [negb]. unfold bind at 1, print at 1. cbn [w_fs w_out].
  unfold bind at 1, lift at 1. rewrite Hfiles.
  unfold bind at 1, lift at 1. cbn [iterate].
  destruct (AriGit.for_each _ _ _) as [[[]|e] w']; reflexivity.
Qed.

(** X13.  [showCommitDiff] on a commit without a parent shows, for every
    entry of its files in order, the path, the content stored under the
    entry's hash and the note that this is the first commit. *)
Theorem show_first_commit fs out commitHash text commitData parent
    (files : list (jsstring * jsstring * jsstring)) :
  fs_read fs (path_join AriGit.objectsPath commitHash) = Ok text ->
  JSON_parse text = Some commitData ->
  get_prop (Some commitData) (js "files")
  = Ok (Some (JArr (map (fun '(p, d, _) => AriGit.entry p d) files))) ->
  get_prop (Some commitData) (js "parent") = Ok parent ->
  truthy parent = false ->
  Forall (fun '(_, d, c) => fs_read fs (path_join AriGit.objectsPath d) = Ok c)
    files ->
  AriGit.showCommitDiff commitHash (World fs out)
  = (Ok tt,
     World fs
       (out ++ EvChanges
          :: concat (map (fun '(p, _, c) =>
                            [EvFile (Some (JStr p)); EvContent c; EvFirstCommit])
                       files))).
Proof.
  intros Hread Hparse Hfiles Hparent Hfalsy Hblobs.
  rewrite (show_commit_files _ _ _ _ _ _ Hread Hparse Hfiles).
  rewrite (for_each_events _ _
             (fun '(p, _, c) => [EvFile (Some (JStr p)); EvContent c; EvFirstCommit])).
  - rewrite <- app_assoc. reflexivity.
  - eapply Forall_impl; [exact Hblobs|]. intros [[p d] c] Hc out'.
    apply (show_file_first_commit _ _ _ _ _ _ _ Hparent Hfalsy Hc).
Qed.

Lemma show_first_commit_witness :
  let h := js "216a2bffaf73cd065101c41a013b6a877c84557d" in
  let blob := js "aaf4c61ddcc5e8a2dabede0f3b482cd9aea9434d" in
  let commitData :=
    AriGit.commitRecord (js "2023-11-14T22:13:20.000Z") (js "first")
      (JArr [AriGit.entry (js "a.txt") blob]) JNull (js "anonymous") in
  let fs := w_fs step3 in
  fs_read fs (path_join AriGit.objectsPath h) = Ok (JSON_stringify commitData)
  /\ JSON_parse (JSON_stringify commitData) = Some commitData
  /\ fs_read fs (path_join AriGit.objectsPath blob) = Ok (js "hello")
  /\ AriGit.showCommitDiff h (World fs [])
     = (Ok tt,
        World fs
          ([] ++ EvChanges
             :: concat (map (fun '(p, _, c) =>
                               [EvFile (Some (JStr p)); EvContent c; EvFirstCommit])
                          [(js "a.txt", blob, js "hello")]))).
Proof.
  intros h blob commitData fs.
  assert (fs_read fs (path_join AriGit.objectsPath h) = Ok (JSON_stringify commitData))
    as H1 by (vm_compute; reflexivity).
  assert (JSON_parse (JSON_stringify commitData) = Some commitData) as H2
    by (vm_compute; reflexivity).
  assert (fs_read fs (path_join AriGit.objectsPath blob) = Ok (js "hello")) as H3
    by (vm_compute; reflexivity).
  split; [exact H1|]. split; [exact H2|]. split; [exact H3|].
  apply (show_first_commit fs [] h _ commitData (Some JNull)
           [(js "a.txt", blob, js "hello")] H1 H2);
    [reflexivity|reflexivity|reflexivity|].
  constructor; [exact H3|constructor].
Defined.

Lemma find_file_absent p pfiles :
  ~ In p (map fst pfiles) ->
  AriGit.find_file (map (fun '(q, d) => AriGit.entry q d) pfiles) (Some (JStr p))
  = Ok None.
Proof.
  induction pfiles as [|[q d] pfiles IH]; intros Hnot; [reflexivity|].
  cbn [map AriGit.find_file]. rewrite entry_path. cbn [strict_eq].
  rewrite jsstring_eqb_neq; [apply IH|]; intros H; apply Hnot;
    [right; exact H|left; exact H].
Qed.

Lemma show_file_new commitData parentHash parentText parentCommitData
    (pfiles : list (jsstring * jsstring)) p d c fs out :
  get_prop (Some commitData) (js "parent") = Ok (Some (JStr parentHash)) ->
  parentHash <> [] ->
  fs_read fs (path_join AriGit.objectsPath parentHash) = Ok parentText ->
  JSON_parse parentText = Some parentCommitData ->
  get_prop (Some parentCommitData) (js "files")
  = Ok (Some (JArr (map (fun '(q, d) => AriGit.entry q d) pfiles))) ->
  ~ In p (map fst pfiles) ->
  fs_read fs (path_join AriGit.objectsPath d) = Ok c ->
  AriGit.show_file commitData (AriGit.entry p d) (World fs out)
  = (Ok tt, World fs (out ++ [EvFile (Some (JStr p)); EvContent c; EvNewFile])).
Proof.
  intros Hparent Hne Hptext Hpparse Hpfiles Hnot Hread.
  rewrite (show_file_run commitData p d c fs out Hread).
  unfold bind at 1, lift at 1. rewrite Hparent.
  assert (truthy (Some (JStr parentHash)) = true) as ->
    by (cbn; rewrite jsstring_eqb_neq by exact Hne; reflexivity).
  unfold bind at 1. rewrite (getCommitData_read _ _ _ _ Hptext).
  unfold bind at 1, parse. rewrite Hpparse. unfold ret at 1.
  unfold bind at 1, AriGit.getParentFileContent, bind at 1, lift at 1.
  rewrite Hpfiles. unfold bind at 1, lift at 1.
  rewrite (find_file_absent _ _ Hnot). cbn [truthy]. unfold ret, print.
  cbn [w_fs w_out]. rewrite <- app_assoc. reflexivity.
Qed.

(** X14.  [showCommitDiff] on a commit whose parent lists none of its
    paths shows, for every entry of its files in order, the path, the
    content stored under the entry's hash and the note that the file is new
    in this commit; no diff is computed. *)
Theorem show_new_files fs out commitHash text commitData
    parentHash parentText parentCommitData
    (files : list (jsstring * jsstring * jsstring))
    (pfiles : list (jsstring * jsstring)) :
  fs_read fs (path_join AriGit.objectsPath commitHash) = Ok text ->
  JSON_parse text = Some commitData ->
  get_prop (Some commitData) (js "files")
  = Ok (Some (JArr (map (fun '(p, d, _) => AriGit.entry p d) files))) ->
  get_prop (Some commitData) (js "parent") = Ok (Some (JStr parentHash)) ->
  parentHash <> [] ->
  fs_read fs (path_join AriGit.objectsPath parentHash) = Ok parentText ->
  JSON_parse parentText = Some parentCommitData ->
  get_prop (Some parentCommitData) (js "files")
  = Ok (Some (JArr (map (fun '(q, d) => AriGit.entry q d) pfiles))) ->
  Forall (fun '(p, d, c) =>
            fs_read fs (path_join AriGit.objectsPath d) = Ok c
            /\ ~ In p (map fst pfiles)) files ->
  AriGit.showCommitDiff commitHash (World fs out)
  = (Ok tt,
     World fs
       (out ++ EvChanges
          :: concat (map (fun '(p, _, c) =>
                            [EvFile (Some (JStr p)); EvContent c; EvNewFile])
                       files))).
Proof.
  intros Hread Hparse Hfiles Hparent Hne Hptext Hpparse Hpfiles Hblobs.
  rewrite (show_commit_files _ _ _ _ _ _ Hread Hparse Hfiles).
  rewrite (for_each_events _ _
             (fun '(p, _, c) => [EvFile (Some (JStr p)); EvContent c; EvNewFile])).
  - rewrite <- app_assoc. reflexivity.
  - eapply Forall_impl; [exact Hblobs|]. intros [[p d] c] [Hc Hnot] out'.
    apply (show_file_new _ _ _ _ _ _ _ _ _ _ Hparent Hne Hptext Hpparse Hpfiles
             Hnot Hc).
Qed.

Lemma show_new_files_witness :
  let h := js "b93770b70e0eaeed8db15e5a28e1efffc1c80d3b" in
  let parentHash := js "216a2bffaf73cd065101c41a013b6a877c84557d" in
  let a := js "aaf4c61ddcc5e8a2dabede0f3b482cd9aea9434d" in
  let b := js "78c9a53e2f28b543ea62c8266acfdf36d5c63e61" in
  let parentCommitData :=
    AriGit.commitRecord (js "2023-11-14T22:13:20.000Z") (js "first")
      (JArr [AriGit.entry (js "a.txt") a]) JNull (js "anonymous") in
  let commitData :=
    AriGit.commitRecord (js "2023-11-14T22:13:22.000Z") (js "more")
      (JArr [AriGit.entry (js "b.txt") b]) (JStr parentHash) (js "anonymous") in
  let fs := w_fs scenario_new_file in
  fs_read fs (path_join AriGit.objectsPath h) = Ok (JSON_stringify commitData)
  /\ fs_read fs (path_join AriGit.objectsPath parentHash)
     = Ok (JSON_stringify parentCommitData)
  /\ fs_read fs (path_join AriGit.objectsPath b) = Ok (js "bye")
  /\ AriGit.showCommitDiff h (World fs [])
     = (Ok tt,
        World fs
          ([] ++ EvChanges
             :: concat (map (fun '(p, _, c) =>
                               [EvFile (Some (JStr p)); EvContent c; EvNewFile])
                          [(js "b.txt", b, js "bye")]))).
Proof.
  intros h parentHash a b parentCommitData commitData fs.
  assert (fs_read fs (path_join AriGit.objectsPath h) = Ok (JSON_stringify commitData))
    as H1 by (vm_compute; reflexivity).
  assert (JSON_parse (JSON_stringify commitData) = Some commitData) as H2
    by (vm_compute; reflexivity).
  assert (fs_read fs (path_join AriGit.objectsPath parentHash)
          = Ok (JSON_stringify parentCommitData)) as H3 by (vm_compute; reflexivity).
  assert (JSON_parse (JSON_stringify parentCommitData) = Some parentCommitData) as H4
    by (vm_compute; reflexivity).
  assert (fs_read fs (path_join AriGit.objectsPath b) = Ok (js "bye")) as H5
    by (vm_compute; reflexivity).
  split; [exact H1|]. split; [exact H3|]. split; [exact H5|].
  apply (show_new_files fs [] h (JSON_stringify commitData) commitData parentHash
           (JSON_stringify parentCommitData) parentCommitData
           [(js "b.txt", b, js "bye")] [(js "a.txt", a)] H1 H2);
    [reflexivity|reflexivity|discriminate|exact H3|exact H4|reflexivity|].
  constructor; [|constructor]. split; [exact H5|].
  intros [H|[]]. discriminate H.
Defined.

Lemma for_each_app {A} (body : A -> M unit) l1 l2 w :
  AriGit.for_each body (l1 ++ l2) w
  = match AriGit.for_each body l1 w with
    | (Ok _, w') => AriGit.for_each body l2 w'
    | (Throw e, w') => (Throw e, w')
    end.
Proof.
  revert w. induction l1 as [|x l1 IH]; intros w; cbn [app AriGit.for_each].
  - reflexivity.
  - unfold bind. destruct (body x w) as [[[]|e] w1]; [apply IH|reflexivity].
Qed.

(** X15.  [showCommitDiff] stops at the first entry whose blob cannot be
    read: after what it showed for the entries before, it prints the path of
    that entry and the error; the entries after it are not shown.  The
    entries before are entries as [add] makes them, the parent of the commit
    is not a number, and the files of the parent commit, if there is one, are
    such entries too. *)
Theorem show_stops_at_unreadable_blob fs out out' commitHash text commitData
    parent (before : list (jsstring * jsstring)) p d e after :
  fs_read fs (path_join AriGit.objectsPath commitHash) = Ok text ->
  JSON_parse text = Some commitData ->
  get_prop (Some commitData) (js "files")
  = Ok (Some (JArr (map (fun '(q, x) => AriGit.entry q x) before
                      ++ AriGit.entry p d :: after))) ->
  get_prop (Some commitData) (js "parent") = Ok parent ->
  not_number parent = true ->
  (forall parentHash parentText parentCommitData,
     parent = Some (JStr parentHash) ->
     fs_read fs (path_join AriGit.objectsPath parentHash) = Ok parentText ->
     JSON_parse parentText = Some parentCommitData ->
     exists pfiles : list (jsstring * jsstring),
       get_prop (Some parentCommitData) (js "files")
       = Ok (Some (JArr (map (fun '(q, x) => AriGit.entry q x) pfiles)))) ->
  AriGit.for_each (AriGit.show_file commitData)
    (map (fun '(q, x) => AriGit.entry q x) before)
    (World fs (out ++ [EvChanges]))
  = (Ok tt, World fs out') ->
  fs_read fs (path_join AriGit.objectsPath d) = Throw e ->
  AriGit.showCommitDiff commitHash (World fs out)
  = (Ok tt, World fs (out' ++ [EvFile (Some (JStr p)); EvErrorShow e])).
Proof.
  intros Hread Hparse Hfiles _ _ _ Hbefore Hblob.
  rewrite (show_commit_files _ _ _ _ _ _ Hread Hparse Hfiles).
  rewrite for_each_app, Hbefore. cbn [AriGit.for_each].
  unfold bind at 1, AriGit.show_file. rewrite entry_path, entry_hash.
  unfold bind at 1, lift at 1. unfold bind at 1, print at 1. cbn [w_fs w_out].
  unfold bind at 1, lift at 1.
  unfold bind at 1, AriGit.getFileContent, bind at 1, join_value, ret, readFile.
  cbn [w_fs w_out]. rewrite Hblob. cbn [w_fs w_out].
  rewrite <- app_assoc. reflexivity.
Qed.

Lemma show_stops_at_unreadable_blob_witness :
  let h := js "216a2bffaf73cd065101c41a013b6a877c84557d" in
  let blob := js "aaf4c61ddcc5e8a2dabede0f3b482cd9aea9434d" in
  let commitData :=
    AriGit.commitRecord (js "2023-11-14T22:13:20.000Z") (js "first")
      (JArr [AriGit.entry (js "a.txt") blob]) JNull (js "anonymous") in
  let fs := w_fs scenario_missing_blob in
  fs_read fs (path_join AriGit.objectsPath h) = Ok (JSON_stringify commitData)
  /\ fs_read fs (path_join AriGit.objectsPath blob) = Throw (IOError ENOENT)
  /\ AriGit.showCommitDiff h (World fs [])
     = (Ok tt,
        World fs
          (([] ++ [EvChanges])
             ++ [EvFile (Some (JStr (js "a.txt"))); EvErrorShow (IOError ENOENT)])).
Proof.
  intros h blob commitData fs.
  assert (fs_read fs (path_join AriGit.objectsPath h) = Ok (JSON_stringify commitData))
    as H1 by (vm_compute; reflexivity).
  assert (JSON_parse (JSON_stringify commitData) = Some commitData) as H2
    by (vm_compute; reflexivity).
  assert (fs_read fs (path_join AriGit.objectsPath blob) = Throw (IOError ENOENT))
    as H3 by (vm_compute; reflexivity).
  split; [exact H1|]. split; [exact H3|].
  apply (show_stops_at_unreadable_blob fs [] ([] ++ [EvChanges]) h
           (JSON_stringify commitData) commitData (Some JNull) []
           (js "a.txt") blob (IOError ENOENT) [] H1 H2);
    [reflexivity|reflexivity|reflexivity| |reflexivity|exact H3].
  intros parentHash parentText parentCommitData H. discriminate H.
Defined.

(** X16.  [showCommitDiff] on a commit whose parent object cannot be
    read fails at the first entry: after the path and the content of that
    entry it reports the failed read and a type error, and shows nothing
    more. *)
Theorem show_parent_unreadable fs out commitHash text commitData parentHash
    p d c rest e :
  fs_read fs (path_join AriGit.objectsPath commitHash) = Ok text ->
  JSON_parse text = Some commitData ->
  get_prop (Some commitData) (js "files")
  = Ok (Some (JArr (AriGit.entry p d :: rest))) ->
  get_prop (Some commitData) (js "parent") = Ok (Some (JStr parentHash)) ->
  parentHash <> [] ->
  fs_read fs (path_join AriGit.objectsPath d) = Ok c ->
  fs_read fs (path_join AriGit.objectsPath parentHash) = Throw e ->
  AriGit.showCommitDiff commitHash (World fs out)
  = (Ok tt,
     World fs
       (out ++ [EvChanges; EvFile (Some (JStr p)); EvContent c;
                EvFailedReadCommit e; EvErrorShow TypeError])).
Proof.
  intros Hread Hparse Hfiles Hparent Hne Hblob Hpread.
  rewrite (show_commit_files _ _ _ _ _ _ Hread Hparse Hfiles).
  cbn [AriGit.for_each]. unfold bind at 1.
  rewrite (show_file_run commitData p d c fs _ Hblob).
  unfold bind at 1, lift at 1. rewrite Hparent.
  assert (truthy (Some (JStr parentHash)) = true) as ->
    by (cbn; rewrite jsstring_eqb_neq by exact Hne; reflexivity).
  unfold bind at 1. rewrite (getCommitData_failed _ _ _ _ Hpread).
  unfold bind at 1, parse, ret at 1.
  unfold bind at 1, AriGit.getParentFileContent, bind at 1, lift at 1.
  cbn [get_prop w_fs w_out]. rewrite <- !app_assoc. reflexivity.
Qed.

Lemma show_parent_unreadable_witness :
  let h := js "458537fec9f9764f53051e43e5219ac7ba3319a3" in
  let parentHash := js "216a2bffaf73cd065101c41a013b6a877c84557d" in
  let blob := js "2aae6c35c94fcfb415dbe95f408b9ce91ee846ed" in
  let commitData :=
    AriGit.commitRecord (js "2023-11-14T22:13:21.000Z") (js "second")
      (JArr [AriGit.entry (js "a.txt") blob]) (JStr parentHash) (js "bob") in
  let fs := w_fs scenario_missing_parent in
  fs_read fs (path_join AriGit.objectsPath h) = Ok (JSON_stringify commitData)
  /\ fs_read fs (path_join AriGit.objectsPath parentHash) = Throw (IOError ENOENT)
  /\ AriGit.showCommitDiff h (World fs [])
     = (Ok tt,
        World fs
          ([] ++ [EvChanges; EvFile (Some (JStr (js "a.txt")));
                  EvContent (js "hello world");
                  EvFailedReadCommit (IOError ENOENT); EvErrorShow TypeError])).
Proof.
  intros h parentHash blob commitData fs.
  assert (fs_read fs (path_join AriGit.objectsPath h) = Ok (JSON_stringify commitData))
    as H1 by (vm_compute; reflexivity).
  assert (JSON_parse (JSON_stringify commitData) = Some commitData) as H2
    by (vm_compute; reflexivity).
  assert (fs_read fs (path_join AriGit.objectsPath blob) = Ok (js "hello world"))
    as H3 by (vm_compute; reflexivity).
  assert (fs_read fs (path_join AriGit.objectsPath parentHash)
          = Throw (IOError ENOENT)) as H4 by (vm_compute; reflexivity).
  split; [exact H1|]. split; [exact H4|].
  apply (show_parent_unreadable fs [] h (JSON_stringify commitData) commitData
           parentHash (js "a.txt") blob (js "hello world") [] (IOError ENOENT)
           H1 H2); [reflexivity|reflexivity|discriminate|exact H3|exact H4].
Defined.

(** ** [log] on chains that break or do not end *)









(** ** Before [init] *)

Lemma fresh_not_dir fs : fresh fs -> is_dir fs [js ".arigit"] = false.
Proof.
  intros Hfresh. unfold is_dir. rewrite (Hfresh []). reflexivity.
Qed.

Lemma fresh_read_object fs h :
  fresh fs -> is_digest h ->
  fs_read fs (path_join AriGit.objectsPath h) = Throw (IOError ENOENT).
Proof.
  intros Hfresh Hh. unfold fs_read.
  rewrite (resolve_object h Hh), (fresh_not_dir _ Hfresh).
  unfold not_a_dir. rewrite (Hfresh []). reflexivity.
Qed.

(** X19.  Where [init] has not been run (nothing is called [.arigit])
    no other command creates anything: [add] of a readable file, [commit],
    [log] and [showCommitDiff] each report that a file is missing and leave
    the file system as it is. *)
Theorem commands_before_init fs out :
  fresh fs ->
  (forall file fileData,
     fs_read fs file = Ok fileData ->
     AriGit.add file (World fs out)
     = (Ok tt, World fs (out ++ [EvErrorAdding (IOError ENOENT)])))
  /\ (forall now user message,
        AriGit.commit now user message (World fs out)
        = (Ok tt, World fs (out ++ [EvErrorCommitting (IOError ENOENT)])))
  /\ (forall fuel,
        AriGit.log fuel (World fs out)
        = Some (Ok tt, World fs (out ++ [EvErrorReadingHead (IOError ENOENT)])))
  /\ (forall commitHash,
        is_digest commitHash ->
        AriGit.showCommitDiff commitHash (World fs out)
        = (Ok tt, World fs (out ++ [EvFailedReadCommit (IOError ENOENT);
                                    EvCommitNotFound]))).
Proof.
  intros Hfresh. pose proof (fresh_not_dir _ Hfresh) as Hdir.
  assert (not_a_dir fs [js ".arigit"] = IOError ENOENT) as Hnot
    by (unfold not_a_dir; rewrite (Hfresh []); reflexivity).
  split; [|split; [|split]].
  - intros file fileData Hread.
    unfold AriGit.add, try_catch, bind at 1, readFile at 1. cbn [w_fs w_out].
    rewrite Hread. unfold bind at 1, writeFile at 1. cbn [w_fs w_out].
    unfold fs_write.
    rewrite (resolve_object _ (hashObject_is_digest fileData)), Hdir, Hnot.
    reflexivity.
  - intros now user message.
    unfold AriGit.commit, try_catch, bind at 1, readFile at 1. cbn [w_fs w_out].
    unfold fs_read. rewrite resolve_index, Hdir, Hnot. reflexivity.
  - intros fuel. unfold AriGit.log. rewrite getCurrentHead_run. cbn [w_fs w_out].
    unfold fs_read. rewrite resolve_head, Hdir, Hnot.
    cbn [AriGit.string_or_null]. rewrite log_loop_falsy by reflexivity.
    reflexivity.
  - intros commitHash Hh.
    unfold AriGit.showCommitDiff, try_catch, bind at 1.
    rewrite (getCommitData_failed _ _ _ _ (fresh_read_object _ _ Hfresh Hh)).
    unfold bind, parse, ret, print. cbn [truthy negb w_fs w_out].
    rewrite <- app_assoc. reflexivity.
Qed.

Lemma commands_before_init_witness :
  fresh scenario_files
  /\ fs_read scenario_files (js "a.txt") = Ok (js "hello")
  /\ AriGit.add (js "a.txt") (World scenario_files [])
     = (Ok tt, World scenario_files ([] ++ [EvErrorAdding (IOError ENOENT)])).
Proof.
  assert (fs_read scenario_files (js "a.txt") = Ok (js "hello")) as H
    by (vm_compute; reflexivity).
  split; [exact scenario_files_fresh|]. split; [exact H|].
  exact (proj1 (commands_before_init scenario_files [] scenario_files_fresh)
           (js "a.txt") (js "hello") H).
Defined.

(** ** What holds along every history *)

Lemma stored_chain_digests fs h l :
  stored_chain fs h l -> Forall is_digest (map fst l).
Proof. induction 1; cbn [map fst]; constructor; assumption. Qed.

Lemma stored_chain_head fs h l : stored_chain fs h l -> h = hd [] (map fst l).
Proof. destruct 1; reflexivity. Qed.

(** X20.  In every state reached from [init] by [add], [commit] and edits
    of the working files, HEAD reads as the digest of the newest commit, or
    as the empty string when no commit was made; the digests of the commits
    made are all forty hexadecimal characters. *)
Theorem history_head_is_newest_commit hs w :
  history hs w ->
  fs_read (w_fs w) AriGit.headPath = Ok (hd [] hs) /\ Forall is_digest hs.
Proof.
  intros H. apply history_healthy in H.
  destruct (healthy_head_read _ _ H) as (head & l & Hr & _ & Hc & Hm).
  rewrite Hr, <- Hm. split.
  - f_equal. apply (stored_chain_head _ _ _ Hc).
  - apply (stored_chain_digests _ _ _ Hc).
Qed.

Lemma history_head_is_newest_commit_witness :
  let hs := [js "458537fec9f9764f53051e43e5219ac7ba3319a3";
             js "216a2bffaf73cd065101c41a013b6a877c84557d"] in
  history hs step6
  /\ fs_read (w_fs step6) AriGit.headPath = Ok (hd [] hs).
Proof.
  intros hs. split; [exact two_commits_history|].
  exact (proj1 (history_head_is_newest_commit hs step6 two_commits_history)).
Defined.

(** X21.  In every state of such a history staging and committing go
    through: [add] of a readable file prints its success line and nothing
    else, and [commit] prints its success line and nothing else. *)
Theorem history_add_commit_succeed hs w :
  history hs w ->
  (forall file fileData,
     fs_read (w_fs w) (utf8_decode file) = Ok fileData ->
     exists fs',
       CLI.add file w = (Ok tt, World fs' (w_out w ++ [EvAdded (utf8_decode file)])))
  /\ (forall now user message,
        exists fs' h,
          CLI.commit now user message w
          = (Ok tt, World fs' (w_out w ++ [EvCommitted h]))).
Proof.
  intros Hhist. apply history_healthy in Hhist as Hh.
  pose proof (healthy_repository _ _ Hh) as R.
  destruct (healthy_index_read _ _ Hh) as (elems & Hi & _ & Hir & Hip).
  split.
  - intros file fileData Hread. unfold CLI.add.
    rewrite (add_run w _ fileData Hread (repo_dir _ R) (repo_objects _ R)
               (repo_flat _ R _)).
    cbv zeta. set (h := hashObject fileData).
    pose proof (keys_distinct h) as (_ & K2 & _ & K4 & _).
    rewrite (updateStagingArea_run _ _ _ (JSON_stringify (JArr elems)) elems).
    + cbn [snd w_fs w_out]. eexists. reflexivity.
    + cbn [w_fs]. rewrite (fs_read_index_other _ _ _ (repo_dir _ R) K2 K4).
      exact Hir.
    + exact Hip.
  - intros now user message.
    destruct (commit_in_repository w now (option_map utf8_decode user)
                (utf8_decode message) _ _ R Hir Hip) as (head & _ & Hrun).
    eexists _, _. unfold CLI.commit. exact Hrun.
Qed.

Lemma history_add_commit_succeed_witness :
  let hs := [js "458537fec9f9764f53051e43e5219ac7ba3319a3";
             js "216a2bffaf73cd065101c41a013b6a877c84557d"] in
  history hs step6
  /\ exists fs' h,
       CLI.commit 1700000003000 None (bytes_of "third") step6
       = (Ok tt, World fs' (w_out step6 ++ [EvCommitted h])).
Proof.
  intros hs. split; [exact two_commits_history|].
  exact (proj2 (history_add_commit_succeed hs step6 two_commits_history)
           1700000003000 None (bytes_of "third")).
Defined.

(** ** What [commit] stored is what is read back *)

Lemma committed_record_wf now message text index head user :
  units16 text = true -> JSON_parse text = Some index ->
  units16 message = true -> units16 head = true ->
  wf_json (AriGit.commitRecord (toISOString now) message index
             (AriGit.or_null (Some head))
             (AriGit.username_or_anonymous (option_map utf8_decode user))) = true.
Proof.
  intros Htext Hparse Hmessage Hhead.
  apply commitRecord_wf;
    [apply toISOString_units16|exact Hmessage
    |apply (JSON_parse_wf _ _ Htext Hparse)| |apply username_units16].
  destruct head; [reflexivity|exact Hhead].
Qed.

Lemma commit_read_back w now user message text index :
  repository (w_fs w) ->
  fs_read (w_fs w) AriGit.indexPath = Ok text ->
  JSON_parse text = Some index ->
  exists head,
    fs_read (w_fs w) AriGit.headPath = Ok head
    /\ let commitData :=
         AriGit.commitRecord (toISOString now) (utf8_decode message) index
           (AriGit.or_null (Some head))
           (AriGit.username_or_anonymous (option_map utf8_decode user)) in
       let h := hashObject (JSON_stringify commitData) in
       let fs' := committed (w_fs w) commitData in
       CLI.commit now user message w
       = (Ok tt, World fs' (w_out w ++ [EvCommitted h]))
       /\ fs_read fs' AriGit.headPath = Ok h
       /\ fs_read fs' (path_join AriGit.objectsPath h)
          = Ok (JSON_stringify commitData)
       /\ JSON_parse (JSON_stringify commitData) = Some commitData.
Proof.
  intros R Hread Hparse.
  destruct (commit_in_repository w now (option_map utf8_decode user)
              (utf8_decode message) _ _ R Hread Hparse) as (head & Hhead & Hrun).
  exists head. split; [exact Hhead|]. cbv zeta in *.
  set (commitData := AriGit.commitRecord _ _ _ _ _) in *.
  set (h := hashObject (JSON_stringify commitData)) in *.
  unfold CLI.commit. rewrite Hrun. cbn [snd w_fs w_out].
  pose proof (hashObject_is_digest (JSON_stringify commitData)) as Hd. fold h in Hd.
  pose proof (keys_distinct h) as (K1 & K2 & K3 & K4 & K5 & K6 & K7 & K8 & K9).
  assert (committed (w_fs w) commitData !! [js ".arigit"] = Some Dir) as Hrepo.
  { unfold committed. fold h. rewrite !lookup_insert_ne by auto. apply R. }
  assert (committed (w_fs w) commitData !! [js ".arigit"; js "objects"] = Some Dir)
    as Hobjs.
  { unfold committed. fold h. rewrite !lookup_insert_ne by auto. apply R. }
  assert (wf_json commitData = true) as Hwf.
  { apply fs_read_inv in Hread as (k & c & _ & _ & ->).
    apply fs_read_inv in Hhead as (k' & c' & _ & _ & ->).
    apply (committed_record_wf _ _ (utf8_decode c));
      auto using utf8_decode_units16. }
  split; [reflexivity|]. split; [|split].
  - rewrite (fs_read_file _ _ head_key (utf8_encode h)).
    + rewrite utf8_decode_encode by (apply digest_wf; exact Hd). reflexivity.
    + apply resolve_head_ok. exact Hrepo.
    + unfold committed. fold h. rewrite lookup_insert_ne by auto.
      apply lookup_insert_eq.
  - rewrite (fs_read_file _ _ (object_key h)
               (utf8_encode (JSON_stringify commitData))).
    + rewrite utf8_decode_encode by (apply wf_stringify; exact Hwf). reflexivity.
    + apply resolve_object_ok; assumption.
    + unfold committed. fold h. rewrite !lookup_insert_ne by auto.
      apply lookup_insert_eq.
  - apply (JSON_parse_stringify _ Hwf).
Qed.

(** X22.  After [commit] in a repository whose index is valid JSON that
    holds no number, HEAD reads as the digest that was printed, and
    [getCommitData] on that digest followed by [JSON.parse] gives the record
    back: the time, the message, the parsed index as [files], as [parent] the
    former content of HEAD ([null] when it was empty) and as [username] the
    user name (anonymous when it is unset or empty). *)
Theorem commit_record_reads_back w now user message text index :
  repository (w_fs w) ->
  fs_read (w_fs w) AriGit.indexPath = Ok text ->
  JSON_parse text = Some index ->
  number_free index = true ->
  exists head parent username,
    fs_read (w_fs w) AriGit.headPath = Ok head
    /\ (head = [] -> parent = JNull)
    /\ (head <> [] -> parent = JStr head)
    /\ (user = None -> username = js "anonymous")
    /\ (forall name, user = Some name ->
          utf8_decode name = [] -> username = js "anonymous")
    /\ (forall name, user = Some name ->
          utf8_decode name <> [] -> username = utf8_decode name)
    /\ let commitData :=
         JObj [(js "timeStamp", JStr (toISOString now));
               (js "message", JStr (utf8_decode message));
               (js "files", index);
               (js "parent", parent);
               (js "username", JStr username)] in
       let h := hashObject (JSON_stringify commitData) in
       let w' := snd (CLI.commit now user message w) in
       w_out w' = w_out w ++ [EvCommitted h]
       /\ fs_read (w_fs w') AriGit.headPath = Ok h
       /\ exists stored,
            AriGit.getCommitData (Some (JStr h)) w' = (Ok (Some stored), w')
            /\ JSON_parse stored = Some commitData.
Proof.
  intros R Hread Hparse _.
  destruct (commit_read_back w now user message text index R Hread Hparse)
    as (head & Hhead & Hrun & Hh & Hobj & Hback).
  exists head, (AriGit.or_null (Some head)),
    (AriGit.username_or_anonymous (option_map utf8_decode user)).
  split; [exact Hhead|].
  split; [intros ->; reflexivity|].
  split; [destruct head; [intros H; contradiction|reflexivity]|].
  split; [intros ->; reflexivity|].
  split; [intros name -> Hname; cbn [option_map]; rewrite Hname; reflexivity|].
  split.
  { intros name -> Hname. cbn [option_map].
    destruct (utf8_decode name); [contradiction|reflexivity]. }
  change (JObj [(js "timeStamp", JStr (toISOString now));
                (js "message", JStr (utf8_decode message));
                (js "files", index);
                (js "parent", AriGit.or_null (Some head));
                (js "username",
                 JStr (AriGit.username_or_anonymous (option_map utf8_decode user)))])
    with (AriGit.commitRecord (toISOString now) (utf8_decode message) index
            (AriGit.or_null (Some head))
            (AriGit.username_or_anonymous (option_map utf8_decode user))).
  cbv zeta in *. rewrite Hrun.
  cbn [snd w_out w_fs]. split; [reflexivity|]. split; [exact Hh|].
  eexists. split; [|exact Hback]. apply getCommitData_read. exact Hobj.
Qed.

Lemma commit_record_reads_back_witness :
  repository (w_fs step6)
  /\ fs_read (w_fs step6) AriGit.indexPath = Ok (js "[]")
  /\ exists head parent username,
       fs_read (w_fs step6) AriGit.headPath = Ok head
       /\ (head = [] -> parent = JNull)
       /\ (head <> [] -> parent = JStr head)
       /\ (@None (list byte) = None -> username = js "anonymous")
       /\ (forall name, @None (list byte) = Some name ->
             utf8_decode name = [] -> username = js "anonymous")
       /\ (forall name, @None (list byte) = Some name ->
             utf8_decode name <> [] -> username = utf8_decode name)
       /\ let commitData :=
            JObj [(js "timeStamp", JStr (toISOString 1700000003000));
                  (js "message", JStr (utf8_decode (bytes_of "third")));
                  (js "files", JArr []);
                  (js "parent", parent);
                  (js "username", JStr username)] in
          let h := hashObject (JSON_stringify commitData) in
          let w' := snd (CLI.commit 1700000003000 None (bytes_of "third") step6) in
          w_out w' = w_out step6 ++ [EvCommitted h]
          /\ fs_read (w_fs w') AriGit.headPath = Ok h
          /\ exists stored,
               AriGit.getCommitData (Some (JStr h)) w' = (Ok (Some stored), w')
               /\ JSON_parse stored = Some commitData.
Proof.
  pose proof (healthy_repository _ _ (history_healthy _ _ two_commits_history)) as R.
  assert (fs_read (w_fs step6) AriGit.indexPath = Ok (js "[]")) as Hread
    by (vm_compute; reflexivity).
  split; [exact R|]. split; [exact Hread|].
  exact (commit_record_reads_back step6 1700000003000 None (bytes_of "third")
           (js "[]") (JArr []) R Hread eq_refl eq_refl).
Defined.

(** X23.  Along a history, the commit just made is the first entry that
    [log] prints: it shows the digest that [commit] printed, the time of the
    commit, the user name and the message as they were given; the entries of
    the commits made before follow. *)
Theorem commit_is_first_log_entry hs w now user message w' h fuel :
  history hs w ->
  CLI.commit now user message w = (Ok tt, w') ->
  last (w_out w') = Some (EvCommitted h) ->
  objects_kept (w_fs w) (w_fs w') ->
  (length hs < fuel)%nat ->
  exists older,
    AriGit.log fuel w'
    = Some (Ok tt,
            World (w_fs w')
              (w_out w'
                 ++ [EvLogSeparator;
                     EvLogEntry h (Some (JStr (toISOString now)))
                       (Some (JStr (AriGit.username_or_anonymous
                                      (option_map utf8_decode user))))
                       (Some (JStr (utf8_decode message)))]
                 ++ older))
    /\ logged_digests older = hs.
Proof.
  intros Hhist Hrun Hlast Hkept Hfuel.
  pose proof (history_commit _ _ _ _ _ _ _ Hhist Hrun Hlast Hkept) as Hhist'.
  apply history_healthy in Hhist as Hh.
  destruct (healthy_index_read _ _ Hh) as (elems & _ & _ & Hir & Hip).
  destruct (commit_read_back w now user message _ _ (healthy_repository _ _ Hh)
              Hir Hip) as (head0 & _ & Hrun' & _ & Hobj & Hback).
  cbv zeta in *.
  set (record := AriGit.commitRecord _ _ _ _ _) in *.
  set (h' := hashObject (JSON_stringify record)) in *.
  assert (w' = World (committed (w_fs w) record) (w_out w ++ [EvCommitted h']))
    as -> by congruence.
  cbn [w_fs w_out] in *. rewrite last_snoc in Hlast.
  assert (h = h') as -> by congruence.
  destruct (history_chain _ _ Hhist') as (head & l & Hhead & Hchain & Hm).
  cbn [w_fs] in *.
  destruct l as [|[h1 commitData] rest]; [discriminate|].
  cbn [map fst] in Hm.
  assert (h1 = h' /\ map fst rest = hs) as [-> Hrest]
    by (split; congruence).
  inversion Hchain as [|? text cd next rest' _ Hread Hparse _ _]; subst.
  assert (commitData = record) as -> by congruence.
  exists (log_events rest). split; [|apply logged_digests_log_events].
  rewrite (log_chain _ _ _ _ fuel Hhead Hchain)
    by (cbn [length]; pose proof (length_map fst rest); lia).
  reflexivity.
Qed.

Lemma commit_is_first_log_entry_witness :
  let hs := [js "458537fec9f9764f53051e43e5219ac7ba3319a3";
             js "216a2bffaf73cd065101c41a013b6a877c84557d"] in
  let h := js "9921c31e3a2372b94f4b85b9cf4c473f186c0031" in
  history hs step6
  /\ CLI.commit 1700000003000 None (bytes_of "third") step6 = (Ok tt, step7)
  /\ last (w_out step7) = Some (EvCommitted h)
  /\ exists older,
       AriGit.log 3 step7
       = Some (Ok tt,
               World (w_fs step7)
                 (w_out step7
                    ++ [EvLogSeparator;
                        EvLogEntry h (Some (JStr (toISOString 1700000003000)))
                          (Some (JStr (AriGit.username_or_anonymous
                                         (option_map utf8_decode None))))
                          (Some (JStr (utf8_decode (bytes_of "third"))))]
                    ++ older))
       /\ logged_digests older = hs.
Proof.
  intros hs h.
  assert (CLI.commit 1700000003000 None (bytes_of "third") step6 = (Ok tt, step7))
    as Hrun by apply commit_returns.
  assert (last (w_out step7) = Some (EvCommitted h)) as Hlast
    by (vm_compute; reflexivity).
  assert (objects_kept (w_fs step6) (w_fs step7)) as Hkept.
  { apply (commit_objects_kept _ _ _ _ _ _ _ two_commits_history Hrun Hlast).
    no_collision_commit. }
  split; [exact two_commits_history|]. split; [exact Hrun|]. split; [exact Hlast|].
  apply (commit_is_first_log_entry hs step6 1700000003000 None (bytes_of "third")
           step7 h 3 two_commits_history Hrun Hlast Hkept).
  cbn. lia.
Defined.

(** ** Several [add]s in a row *)

Lemma walk_same_dirs fs fs' segs :
  (forall j, is_dir fs' j = is_dir fs j) ->
  forall cur k, walk fs cur segs = Ok k -> walk fs' cur segs = Ok k.
Proof.
  intros Hdirs. induction segs as [|seg rest IH]; intros cur k; cbn [walk].
  - auto.
  - rewrite Hdirs. destruct (is_dir fs cur); [|discriminate].
    destruct (jsstring_eqb seg [] || jsstring_eqb seg dot); [apply IH|].
    destruct (jsstring_eqb seg dotdot); apply IH.
Qed.

Lemma resolve_same_dirs fs fs' p k :
  (forall j, is_dir fs' j = is_dir fs j) ->
  resolve fs p = Ok k -> resolve fs' p = Ok k.
Proof.
  intros Hdirs. unfold resolve. destruct (has_nul p); [discriminate|].
  destruct p; [discriminate|]. apply walk_same_dirs. exact Hdirs.
Qed.

Lemma is_dir_insert_file fs k c j :
  fs !! k <> Some Dir -> is_dir (<[k := File c]> fs) j = is_dir fs j.
Proof.
  intros Hk. unfold is_dir. f_equal.
  destruct (decide (k = j)) as [<-|Hne].
  - rewrite lookup_insert_eq. destruct (fs !! k) as [[]|]; congruence.
  - rewrite lookup_insert_ne by exact Hne. reflexivity.
Qed.

(** One [add] of a working file in a repository whose index holds a
    sequence. *)
Lemma add_working_file fs out file k c text elems :
  repository fs ->
  fs_read fs AriGit.indexPath = Ok text ->
  JSON_parse text = Some (JArr elems) ->
  working_file fs file k c ->
  let d := hashObject (utf8_decode c) in
  let staged := elems ++ [AriGit.entry file d] in
  let fs' := <[index_key := File (utf8_encode (JSON_stringify (JArr staged)))]>
               (<[object_key d := File (utf8_encode (utf8_decode c))]> fs) in
  AriGit.add file (World fs out) = (Ok tt, World fs' (out ++ [EvAdded file]))
  /\ repository fs'
  /\ (forall j, is_dir fs' j = is_dir fs j)
  /\ (forall j, head j <> Some (js ".arigit") -> fs' !! j = fs !! j).
Proof.
  intros R Hread Hparse (Hres & Hout & Hk) d staged fs'.
  pose proof (keys_distinct d) as (K1 & K2 & K3 & K4 & K5 & K6 & K7 & K8 & K9).
  assert (fs_read fs file = Ok (utf8_decode c)) as Hfile
    by (apply (fs_read_file _ _ k); assumption).
  destruct (repo_index _ R) as [ci Hci].
  split; [|split; [|split]].
  - rewrite (add_run (World fs out) file _ Hfile (repo_dir _ R) (repo_objects _ R)
               (repo_flat _ R _)).
    cbv zeta. fold d.
    rewrite (updateStagingArea_run _ _ _ text elems).
    + reflexivity.
    + cbn [w_fs]. rewrite (fs_read_index_other _ _ _ (repo_dir _ R) K2 K4).
      exact Hread.
    + exact Hparse.
  - unfold fs'. destruct R as [R1 R2 R3 [ch R4] R5]. split.
    + rewrite !lookup_insert_ne by auto. exact R1.
    + rewrite !lookup_insert_ne by auto. exact R2.
    + intros d'. rewrite lookup_insert_ne by apply index_not_object.
      destruct (decide (object_key d = object_key d')) as [<-|Hne].
      * rewrite lookup_insert_eq. discriminate.
      * rewrite lookup_insert_ne by exact Hne. apply R3.
    + exists ch. rewrite !lookup_insert_ne by auto. exact R4.
    + eexists. apply lookup_insert_eq.
  - intros j. unfold fs'. rewrite !is_dir_insert_file; [reflexivity|..].
    + apply (repo_flat _ R).
    + rewrite lookup_insert_ne by auto. rewrite Hci. discriminate.
  - intros j Hj. unfold fs'.
    rewrite !lookup_insert_ne; [reflexivity|..]; intros <-; apply Hj; reflexivity.
Qed.

Lemma staged_index_read fs staged :
  fs !! [js ".arigit"] = Some Dir ->
  fs !! index_key = Some (File (utf8_encode (JSON_stringify (JArr staged)))) ->
  wf_json (JArr staged) = true ->
  fs_read fs AriGit.indexPath = Ok (JSON_stringify (JArr staged))
  /\ JSON_parse (JSON_stringify (JArr staged)) = Some (JArr staged).
Proof.
  intros Hrepo Hindex Hwf. split; [|apply (JSON_parse_stringify _ Hwf)].
  rewrite (fs_read_index _ Hrepo), Hindex.
  rewrite utf8_decode_encode by (apply wf_stringify; exact Hwf). reflexivity.
Qed.

(** X24.  In a repository whose index holds a sequence with no number in
    it, [add] of working files one after the other prints one success line
    for each, and the index then reads back as the former sequence followed
    by one entry for each file, in the order of the [add]s, with the path as
    it was given and the digest of the content. *)
Theorem adds_accumulate (files : list (list byte * fskey * list byte)) :
  forall fs out text elems,
    repository fs ->
    fs_read fs AriGit.indexPath = Ok text ->
    JSON_parse text = Some (JArr elems) ->
    number_free (JArr elems) = true ->
    Forall (fun '(file, k, c) => working_file fs (utf8_decode file) k c) files ->
    let w' := after (map (fun '(file, _, _) => CLI.add file) files) (World fs out) in
    w_out w' = out ++ map (fun '(file, _, _) => EvAdded (utf8_decode file)) files
    /\ exists text',
         fs_read (w_fs w') AriGit.indexPath = Ok text'
         /\ JSON_parse text'
            = Some (JArr (elems
                            ++ map (fun '(file, _, c) =>
                                      AriGit.entry (utf8_decode file)
                                        (hashObject (utf8_decode c)))
                                 files)).
Proof.
  induction files as [|[[file k] c] files IH];
    intros fs out text elems R Hread Hparse Hfree Hfiles w'.
  - unfold w', after. cbn [map fold_left w_out w_fs]. rewrite !app_nil_r.
    split; [reflexivity|]. exists text. auto.
  - apply Forall_cons in Hfiles as [Hfile Hfiles].
    destruct (add_working_file fs out (utf8_decode file) k c text elems R Hread
                Hparse Hfile) as (Hrun & R' & Hdirs & Hsame).
    cbv zeta in *.
    set (d := hashObject (utf8_decode c)) in *.
    set (staged := elems ++ [AriGit.entry (utf8_decode file) d]) in *.
    set (fs' := <[index_key := _]> _) in *.
    assert (wf_json (JArr staged) = true) as Hwf.
    { apply wf_json_arr_snoc.
      - apply fs_read_inv in Hread as (ki & ci & _ & _ & ->).
        apply (JSON_parse_wf (utf8_decode ci)); [|exact Hparse].
        apply utf8_decode_units16.
      - apply entry_wf; [apply utf8_decode_units16|].
        apply digest_units16, hashObject_is_digest. }
    destruct (staged_index_read fs' staged (repo_dir _ R')
                (lookup_insert_eq _ _ _) Hwf) as [Hread' Hparse'].
    assert (Forall (fun '(file, k, c) => working_file fs' (utf8_decode file) k c)
              files) as Hfiles'.
    { eapply Forall_impl; [exact Hfiles|]. intros [[file' k'] c'] (H1 & H2 & H3).
      split; [exact (resolve_same_dirs _ _ _ _ Hdirs H1)|]. split; [exact H2|].
      rewrite (Hsame _ H2). exact H3. }
    assert (number_free (JArr staged) = true) as Hfree'.
    { unfold staged. cbn [number_free] in *. rewrite forallb_app, Hfree.
      reflexivity. }
    destruct (IH fs' (out ++ [EvAdded (utf8_decode file)]) _ staged R' Hread'
                Hparse' Hfree' Hfiles') as (Hout & text' & Ht1 & Ht2).
    unfold w', after. cbn [map fold_left].
    change (CLI.add file (World fs out))
      with (AriGit.add (utf8_decode file) (World fs out)).
    rewrite Hrun. cbn [snd]. unfold after in Hout, Ht1. cbv zeta in Hout, Ht1.
    split.
    + rewrite Hout, <- app_assoc. reflexivity.
    + exists text'. split; [exact Ht1|]. rewrite Ht2. unfold staged.
      rewrite <- app_assoc. reflexivity.
Qed.

Lemma scenario_two_files_fresh : fresh scenario_two_files.
Proof.
  intros k. unfold scenario_two_files.
  rewrite lookup_insert_ne by discriminate. apply scenario_files_fresh.
Qed.

Lemma adds_accumulate_witness :
  let fs := initialized scenario_two_files in
  let files := [(bytes_of "a.txt", [js "a.txt"], bytes_of "hello");
                (bytes_of "b.txt", [js "b.txt"], bytes_of "bye")] in
  let w' := after (map (fun '(file, _, _) => CLI.add file) files) (World fs []) in
  repository fs
  /\ fs_read fs AriGit.indexPath = Ok (js "[]")
  /\ Forall (fun '(file, k, c) => working_file fs (utf8_decode file) k c) files
  /\ w_out w' = [] ++ map (fun '(file, _, _) => EvAdded (utf8_decode file)) files
  /\ exists text',
       fs_read (w_fs w') AriGit.indexPath = Ok text'
       /\ JSON_parse text'
          = Some (JArr ([] ++ map (fun '(file, _, c) =>
                                     AriGit.entry (utf8_decode file)
                                       (hashObject (utf8_decode c)))
                                files)).
Proof.
  intros fs files w'.
  pose proof (initialized_repository _ scenario_two_files_fresh) as R.
  assert (fs_read fs AriGit.indexPath = Ok (js "[]")) as Hread
    by (vm_compute; reflexivity).
  assert (Forall (fun '(file, k, c) => working_file fs (utf8_decode file) k c) files)
    as Hfiles.
  { repeat constructor; try discriminate; vm_compute; reflexivity. }
  split; [exact R|]. split; [exact Hread|]. split; [exact Hfiles|].
  exact (adds_accumulate files fs [] (js "[]") [] R Hread eq_refl eq_refl Hfiles).
Defined.

(** X25.  In a repository whose index holds a sequence with no number in
    it, [add] of a working file twice in a row, the file unchanged, stores
    nothing new the second time: the object written is the one that is
    there, and only the index changes, which now lists the file twice. *)
Theorem add_twice_changes_index_only fs out file k c text elems :
  repository fs ->
  fs_read fs AriGit.indexPath = Ok text ->
  JSON_parse text = Some (JArr elems) ->
  number_free (JArr elems) = true ->
  working_file fs (utf8_decode file) k c ->
  let w1 := snd (CLI.add file (World fs out)) in
  let w2 := snd (CLI.add file w1) in
  let e := AriGit.entry (utf8_decode file) (hashObject (utf8_decode c)) in
  (forall j, j <> index_key -> w_fs w2 !! j = w_fs w1 !! j)
  /\ exists text',
       fs_read (w_fs w2) AriGit.indexPath = Ok text'
       /\ JSON_parse text' = Some (JArr (elems ++ [e; e])).
Proof.
  intros R Hread Hparse _ Hfile w1 w2 e.
  destruct (add_working_file fs out (utf8_decode file) k c text elems R Hread
              Hparse Hfile) as (Hrun & R' & Hdirs & Hsame).
  cbv zeta in *. fold e in Hrun, R', Hdirs, Hsame.
  set (fs1 := <[index_key := _]> _) in *.
  assert (wf_json e = true) as He.
  { apply entry_wf; [apply utf8_decode_units16|].
    apply digest_units16, hashObject_is_digest. }
  assert (wf_json (JArr elems) = true) as Helems.
  { apply fs_read_inv in Hread as (ki & ci & _ & _ & ->).
    apply (JSON_parse_wf (utf8_decode ci)); [|exact Hparse].
    apply utf8_decode_units16. }
  assert (wf_json (JArr (elems ++ [e])) = true) as Hwf1
    by (apply wf_json_arr_snoc; assumption).
  destruct (staged_index_read fs1 _ (repo_dir _ R') (lookup_insert_eq _ _ _) Hwf1)
    as [Hread1 Hparse1].
  assert (working_file fs1 (utf8_decode file) k c) as Hfile1.
  { destruct Hfile as (H1 & H2 & H3).
    split; [exact (resolve_same_dirs _ _ _ _ Hdirs H1)|]. split; [exact H2|].
    rewrite (Hsame _ H2). exact H3. }
  destruct (add_working_file fs1 (out ++ [EvAdded (utf8_decode file)])
              (utf8_decode file) k c _ (elems ++ [e]) R' Hread1 Hparse1 Hfile1)
    as (Hrun2 & R2 & _ & _).
  cbv zeta in *. fold e in Hrun2, R2.
  assert (w1 = World fs1 (out ++ [EvAdded (utf8_decode file)])) as ->
    by (unfold w1, CLI.add; rewrite Hrun; reflexivity).
  unfold w2, CLI.add. rewrite Hrun2. cbn [snd w_fs].
  split.
  - intros j Hj. rewrite lookup_insert_ne by auto.
    destruct (decide (object_key (hashObject (utf8_decode c)) = j)) as [<-|Hne].
    + rewrite lookup_insert_eq. unfold fs1.
      rewrite lookup_insert_ne by apply index_not_object.
      rewrite lookup_insert_eq. reflexivity.
    + rewrite lookup_insert_ne by exact Hne. reflexivity.
  - assert (wf_json (JArr ((elems ++ [e]) ++ [e])) = true) as Hwf2
      by (apply wf_json_arr_snoc; assumption).
    destruct (staged_index_read _ _ (repo_dir _ R2) (lookup_insert_eq _ _ _) Hwf2)
      as [Hread2 Hparse2].
    eexists. split; [exact Hread2|]. rewrite Hparse2, <- app_assoc. reflexivity.
Qed.

Lemma add_twice_changes_index_only_witness :
  let fs := initialized scenario_two_files in
  let w1 := snd (CLI.add (bytes_of "a.txt") (World fs [])) in
  let w2 := snd (CLI.add (bytes_of "a.txt") w1) in
  let e := AriGit.entry (utf8_decode (bytes_of "a.txt"))
             (hashObject (utf8_decode (bytes_of "hello"))) in
  repository fs
  /\ working_file fs (utf8_decode (bytes_of "a.txt")) [js "a.txt"] (bytes_of "hello")
  /\ (forall j, j <> index_key -> w_fs w2 !! j = w_fs w1 !! j)
  /\ exists text',
       fs_read (w_fs w2) AriGit.indexPath = Ok text'
       /\ JSON_parse text' = Some (JArr ([] ++ [e; e])).
Proof.
  intros fs w1 w2 e.
  pose proof (initialized_repository _ scenario_two_files_fresh) as R.
  assert (fs_read fs AriGit.indexPath = Ok (js "[]")) as Hread
    by (vm_compute; reflexivity).
  assert (working_file fs (utf8_decode (bytes_of "a.txt")) [js "a.txt"]
            (bytes_of "hello")) as Hfile.
  { repeat split; try discriminate; vm_compute; reflexivity. }
  split; [exact R|]. split; [exact Hfile|].
  exact (add_twice_changes_index_only fs [] (bytes_of "a.txt") [js "a.txt"]
           (bytes_of "hello") (js "[]") [] R Hread eq_refl eq_refl Hfile).
Defined.

(** ** When [add] fails *)

Lemma add_cases fs out file :
  (exists e, AriGit.add file (World fs out)
             = (Ok tt, World fs (out ++ [EvErrorAdding e])))
  \/ (exists fs' before,
        AriGit.add file (World fs out)
        = (Ok tt, World fs' (out ++ before ++ [EvAdded file]))).
Proof.
  unfold AriGit.add, try_catch, bind, readFile, writeFile, print.
  cbn [w_fs w_out].
  destruct (fs_read fs file) as [fileData|e0]; [|left; eauto].
  destruct (fs_write false fs _ fileData) as [fs1|e1]; [|left; eauto].
  match goal with |- context [AriGit.updateStagingArea ?p ?h ?w1] =>
    destruct (updateStagingArea_returns p h w1) as (fs2 & p2 & -> & _) end.
  cbn [w_fs w_out]. right. exists fs2, p2. rewrite <- app_assoc. reflexivity.
Qed.

(** X26.  Whenever [add] ends with its error line, nothing has changed:
    no object was written and the index is as it was, whether it was the
    read of the file or the write of the object that failed. *)
Theorem add_error_changes_nothing w file e :
  w_out (snd (AriGit.add file w)) = w_out w ++ [EvErrorAdding e] ->
  w_fs (snd (AriGit.add file w)) = w_fs w.
Proof.
  destruct w as [fs out]. cbn [w_fs w_out].
  destruct (add_cases fs out file) as [(e0 & ->)|(fs' & before & ->)];
    cbn [snd w_fs w_out]; [reflexivity|].
  intros H. apply app_inv_head in H.
  apply (f_equal (@last event)) in H.
  rewrite last_snoc in H. cbn in H. discriminate.
Qed.

Lemma add_error_changes_nothing_witness :
  w_out (snd (AriGit.add (js "a.txt") (World scenario_files [])))
  = [] ++ [EvErrorAdding (IOError ENOENT)]
  /\ w_fs (snd (AriGit.add (js "a.txt") (World scenario_files []))) = scenario_files.
Proof.
  assert (w_out (snd (AriGit.add (js "a.txt") (World scenario_files [])))
          = [] ++ [EvErrorAdding (IOError ENOENT)]) as H
    by (vm_compute; reflexivity).
  split; [exact H|].
  exact (add_error_changes_nothing (World scenario_files []) (js "a.txt") _ H).
Defined.

(** ** [init] on a damaged layout *)

Lemma mkdir_objects_existing fs :
  fs !! [js ".arigit"] = Some Dir ->
  fs !! [js ".arigit"; js "objects"] = Some Dir ->
  fs_mkdir_recursive fs AriGit.objectsPath = Ok fs.
Proof.
  intros Hrepo Hobjs. unfold fs_mkdir_recursive.
  change (has_nul AriGit.objectsPath) with false.
  change (split_on 47 AriGit.objectsPath) with [js ".arigit"; js "objects"].
  change AriGit.objectsPath with (46 :: js "arigit/objects").
  change (is_absolute (46 :: js "arigit/objects")) with false.
  cbv iota. cbn [mkdir_walk].
  change (jsstring_eqb (js ".arigit") [] || jsstring_eqb (js ".arigit") dot) with false.
  change (jsstring_eqb (js ".arigit") dotdot) with false.
  change (jsstring_eqb (js "objects") [] || jsstring_eqb (js "objects") dot) with false.
  change (jsstring_eqb (js "objects") dotdot) with false.
  cbv iota.
  change ([] ++ [utf8_encode_N (js ".arigit")]) with [js ".arigit"].
  rewrite Hrepo.
  change ([js ".arigit"] ++ [utf8_encode_N (js "objects")])
    with [js ".arigit"; js "objects"].
  rewrite Hobjs. reflexivity.
Qed.

(** X27.  [init] says that the repository is already initialized whenever
    one of its steps fails, also where there is no repository.  When HEAD is
    missing from an otherwise complete layout, [init] creates it empty, keeps
    the index and prints that line; when [.arigit] is a regular file, [init]
    creates nothing and prints that line. *)
Theorem init_on_damaged_layout fs out :
  (fs !! [js ".arigit"] = Some Dir ->
   fs !! [js ".arigit"; js "objects"] = Some Dir ->
   fs !! head_key = None ->
   fs !! index_key <> None ->
   AriGit.init (World fs out)
   = (Ok tt, World (<[head_key := File []]> fs) (out ++ [EvAlreadyInitialized])))
  /\ (forall c,
        fs !! [js ".arigit"] = Some (File c) ->
        AriGit.init (World fs out)
        = (Ok tt, World fs (out ++ [EvAlreadyInitialized]))).
Proof.
  split.
  - intros Hrepo Hobjs Hhead Hindex.
    unfold AriGit.init, try_catch, bind, mkdir_recursive, writeFile, print.
    cbn [w_fs w_out]. rewrite (mkdir_objects_existing _ Hrepo Hobjs).
    cbn [w_fs w_out].
    assert (fs_write true fs AriGit.headPath [] = Ok (<[head_key := File []]> fs))
      as ->.
    { unfold fs_write. rewrite (resolve_head_ok _ Hrepo).
      change (is_above head_key) with false. cbv iota. rewrite Hhead.
      reflexivity. }
    cbn [w_fs w_out].
    assert (exists e, fs_write true (<[head_key := File []]> fs) AriGit.indexPath
                        (JSON_stringify (JArr [])) = Throw e) as [e ->].
    { unfold fs_write. rewrite resolve_index_ok
        by (rewrite lookup_insert_ne by discriminate; exact Hrepo).
      change (is_above index_key) with false. cbv iota.
      rewrite lookup_insert_ne by discriminate.
      destruct (fs !! index_key) as [[]|]; [eauto..|contradiction]. }
    reflexivity.
  - intros c Hfile.
    unfold AriGit.init, try_catch, bind, mkdir_recursive, print.
    cbn [w_fs w_out].
    assert (exists e, fs_mkdir_recursive fs AriGit.objectsPath = Throw e) as [e ->].
    { unfold fs_mkdir_recursive.
      change (has_nul AriGit.objectsPath) with false.
      change (split_on 47 AriGit.objectsPath) with [js ".arigit"; js "objects"].
      change AriGit.objectsPath with (46 :: js "arigit/objects").
      change (is_absolute (46 :: js "arigit/objects")) with false.
      cbv iota. cbn [mkdir_walk].
      change (jsstring_eqb (js ".arigit") [] || jsstring_eqb (js ".arigit") dot)
        with false.
      change (jsstring_eqb (js ".arigit") dotdot) with false.
      cbv iota.
      change ([] ++ [utf8_encode_N (js ".arigit")]) with [js ".arigit"].
      rewrite Hfile. eauto. }
    reflexivity.
Qed.

Lemma init_on_damaged_layout_witness :
  let fs := w_fs scenario_no_head in
  fs !! head_key = None
  /\ AriGit.init (World fs [])
     = (Ok tt, World (<[head_key := File []]> fs) ([] ++ [EvAlreadyInitialized])).
Proof.
  intros fs.
  assert (fs !! head_key = None) as H by (vm_compute; reflexivity).
  split; [exact H|].
  apply (proj1 (init_on_damaged_layout fs [])); [| |exact H|].
  - vm_compute; reflexivity.
  - vm_compute; reflexivity.
  - vm_compute. discriminate.
Defined.

(** ** A history has no cycle *)

Lemma or_null_inj a b :
  AriGit.or_null (Some a) = AriGit.or_null (Some b) -> a = b.
Proof. destruct a, b; cbn; congruence. Qed.

Lemma stored_json_inj a b :
  wf_json a = true -> wf_json b = true ->
  utf8_encode (JSON_stringify a) = utf8_encode (JSON_stringify b) -> a = b.
Proof.
  intros Ha Hb E. pose proof (stored_json_read_back a Ha) as Ra.
  rewrite E, (stored_json_read_back b Hb) in Ra. congruence.
Qed.

Lemma stored_chain_functional fs h l :
  stored_chain fs h l -> forall l', stored_chain fs h l' -> l = l'.
Proof.
  induction 1 as [|h commitData parent rest Hd Hwf Hobj Hparent _ IH];
    intros l' H'.
  - inversion H'; subst; [reflexivity|].
    exfalso. eapply digest_nonempty; [eassumption|reflexivity].
  - inversion H' as [|h0 cd' parent' rest' Hd' Hwf' Hobj' Hparent' Hrest'];
      subst.
    { exfalso. apply (digest_nonempty _ Hd). reflexivity. }
    assert (commitData = cd') as <-.
    { apply stored_json_inj; [assumption..|]. congruence. }
    assert (parent = parent') as <-.
    { apply or_null_inj. congruence. }
    f_equal. apply IH. exact Hrest'.
Qed.

Lemma stored_chain_from fs h l :
  stored_chain fs h l ->
  forall h', In h' (map fst l) ->
    exists l', stored_chain fs h' l' /\ (length l' <= length l)%nat.
Proof.
  induction 1 as [|h commitData parent rest Hd Hwf Hobj Hparent Hrest IH];
    intros h' Hin; [destruct Hin|].
  destruct Hin as [<-|Hin].
  - exists ((h, commitData) :: rest). split; [|lia].
    apply (stored_link fs h commitData parent rest); assumption.
  - destruct (IH _ Hin) as (l' & Hl' & Hlen). exists l'.
    split; [exact Hl'|]. cbn [length]. lia.
Qed.

Lemma stored_chain_NoDup fs h l : stored_chain fs h l -> NoDup (map fst l).
Proof.
  induction 1 as [|h commitData parent rest Hd Hwf Hobj Hparent Hrest IH];
    cbn [map fst]; [constructor|].
  apply NoDup_cons. split; [|exact IH]. intros Hin.
  apply list_elem_of_In in Hin.
  destruct (stored_chain_from _ _ _ Hrest _ Hin) as (l' & Hl' & Hlen).
  assert (stored_chain fs h ((h, commitData) :: rest)) as Hfull
    by (econstructor; eassumption).
  rewrite (stored_chain_functional _ _ _ Hl' _ Hfull) in Hlen.
  cbn [length] in Hlen. lia.
Qed.

(** X28.  The commits of a history are all different: no digest is
    printed twice by the [commit]s made since [init], so the parent pointers
    from HEAD never lead back to a commit already met. *)
Theorem history_commits_distinct hs w : history hs w -> NoDup hs.
Proof.
  intros H. apply history_healthy in H.
  destruct (healthy_head _ _ H) as (head & l & _ & _ & Hc & <-).
  apply (stored_chain_NoDup _ _ _ Hc).
Qed.

Lemma history_commits_distinct_witness :
  let hs := [js "458537fec9f9764f53051e43e5219ac7ba3319a3";
             js "216a2bffaf73cd065101c41a013b6a877c84557d"] in
  history hs step6 /\ NoDup hs.
Proof.
  intros hs. split; [exact two_commits_history|].
  exact (history_commits_distinct hs step6 two_commits_history).
Defined.

(** ** Along a history, every entry names an object of the store *)

Lemma entry_stored_kept fs fs' e :
  objects_kept fs fs' -> entry_stored fs e -> entry_stored fs' e.
Proof.
  intros Hkept (p & d & c & -> & Hd & Hc). exists p, d, c.
  split; [reflexivity|]. split; [exact Hd|]. apply Hkept. exact Hc.
Qed.

Lemma files_stored_kept fs fs' commitData :
  objects_kept fs fs' -> files_stored fs commitData -> files_stored fs' commitData.
Proof.
  intros Hkept (elems & Hfiles & Hall). exists elems. split; [exact Hfiles|].
  eapply Forall_impl; [exact Hall|]. intros e. apply entry_stored_kept. exact Hkept.
Qed.

Lemma stored_chain_head_wf fs h l : stored_chain fs h l -> wf_utf16 h.
Proof. destruct 1; [constructor|apply digest_wf; assumption]. Qed.

Lemma utf8_encode_inj a b :
  wf_utf16 a -> wf_utf16 b -> utf8_encode a = utf8_encode b -> a = b.
Proof.
  intros Ha Hb E. rewrite <- (utf8_decode_encode a Ha), E.
  apply utf8_decode_encode. exact Hb.
Qed.

(** The chain from the content of HEAD is the one the invariant knows. *)
Lemma healthy_chain_unique hs fs head l :
  healthy hs fs ->
  fs !! head_key = Some (File (utf8_encode head)) ->
  stored_chain fs head l ->
  map fst l = hs.
Proof.
  intros Hh Hhead Hchain.
  destruct (healthy_head _ _ Hh) as (head0 & l0 & Hhead0 & _ & Hchain0 & Hm).
  assert (head = head0) as ->.
  { apply utf8_encode_inj;
      [apply (stored_chain_head_wf _ _ _ Hchain)
      |apply (stored_chain_head_wf _ _ _ Hchain0)|congruence]. }
  rewrite (stored_chain_functional _ _ _ Hchain _ Hchain0). exact Hm.
Qed.

Lemma referenced_same_repository fs fs' :
  (forall k, fs' !! (js ".arigit" :: k) = fs !! (js ".arigit" :: k)) ->
  referenced fs -> referenced fs'.
Proof.
  intros Hsame [Hi Hc].
  assert (objects_kept fs fs') as Hkept
    by (intros d c Hdc; unfold object_key; rewrite Hsame; exact Hdc).
  assert (objects_kept fs' fs) as Hback
    by (intros d c Hdc; unfold object_key; rewrite <- Hsame; exact Hdc).
  split.
  - intros elems Hindex Hwf. unfold index_key in Hindex. rewrite Hsame in Hindex.
    eapply Forall_impl; [exact (Hi elems Hindex Hwf)|].
    intros e. apply entry_stored_kept. exact Hkept.
  - intros head l Hhead Hchain. unfold head_key in Hhead. rewrite Hsame in Hhead.
    pose proof (Hc head l Hhead (stored_chain_kept _ _ _ _ Hback Hchain)) as H.
    eapply Forall_impl; [exact H|]. intros hc. apply files_stored_kept. exact Hkept.
Qed.

Lemma referenced_init fs : fresh fs -> referenced (initialized fs).
Proof.
  intros Hfresh. split.
  - intros elems Hindex Hwf. unfold initialized in Hindex.
    rewrite lookup_insert_eq in Hindex.
    assert (JArr elems = JArr []) as E.
    { apply stored_json_inj; [exact Hwf|reflexivity|].
      change (utf8_encode (JSON_stringify (JArr []))) with (bytes_of "[]").
      congruence. }
    injection E as ->. constructor.
  - intros head l _ Hchain. destruct Hchain as [|h cd parent rest _ _ Hobj _ _];
      [constructor|].
    exfalso. unfold initialized in Hobj.
    rewrite !lookup_insert_ne in Hobj by discriminate.
    unfold object_key in Hobj. rewrite Hfresh in Hobj. discriminate.
Qed.

Lemma referenced_add hs w file :
  healthy hs (w_fs w) ->
  objects_kept (w_fs w) (w_fs (snd (CLI.add file w))) ->
  referenced (w_fs w) -> referenced (w_fs (snd (CLI.add file w))).
Proof.
  intros Hh Hkept Href.
  pose proof (healthy_add _ _ file Hh Hkept) as Hh'.
  revert Hkept Hh'. unfold CLI.add. set (p := utf8_decode file).
  destruct (fs_read (w_fs w) p) as [fileData|e] eqn:Hread; cycle 1.
  { rewrite (add_failed_read w p e Hread). auto. }
  pose proof (healthy_repository _ _ Hh) as R.
  destruct (healthy_index_read _ _ Hh) as (elems0 & Hi0 & Hwf0 & Hir & Hip).
  rewrite (add_run w p fileData Hread (repo_dir _ R) (repo_objects _ R)
             (repo_flat _ R _)).
  cbv zeta. set (d := hashObject fileData).
  pose proof (keys_distinct d) as (K1 & K2 & K3 & K4 & _).
  rewrite (updateStagingArea_run _ _ _ (JSON_stringify (JArr elems0)) elems0);
    [|cbn [w_fs]; rewrite (fs_read_index_other _ _ _ (repo_dir _ R) K2 K4);
      exact Hir|exact Hip].
  cbn [snd w_fs]. set (e := AriGit.entry p d).
  set (fs' := <[index_key := _]> _). intros Hkept Hh'.
  assert (wf_json (JArr (elems0 ++ [e])) = true) as Hwf.
  { apply wf_json_arr_snoc; [exact Hwf0|].
    apply entry_wf; [apply utf8_decode_units16|].
    apply digest_units16, hashObject_is_digest. }
  split.
  - intros elems Hindex Hwf'. unfold fs' in Hindex.
    rewrite lookup_insert_eq in Hindex.
    assert (JArr elems = JArr (elems0 ++ [e])) as E.
    { apply stored_json_inj; [exact Hwf'|exact Hwf|]. congruence. }
    injection E as ->. apply Forall_app. split.
    + eapply Forall_impl; [exact (ref_index _ Href elems0 Hi0 Hwf0)|].
      intros x. apply entry_stored_kept. exact Hkept.
    + repeat constructor. exists p, d, (utf8_encode fileData).
      split; [reflexivity|]. split; [apply hashObject_is_digest|].
      unfold fs'. rewrite lookup_insert_ne by auto. apply lookup_insert_eq.
  - intros head l Hhead Hchain.
    destruct (healthy_head _ _ Hh) as (head0 & l0 & Hhead0 & _ & Hchain0 & _).
    assert (fs' !! head_key = (w_fs w) !! head_key) as Esame.
    { unfold fs'. rewrite !lookup_insert_ne; auto. }
    assert (head = head0) as ->.
    { apply utf8_encode_inj;
        [apply (stored_chain_head_wf _ _ _ Hchain)
        |apply (stored_chain_head_wf _ _ _ Hchain0)|congruence]. }
    rewrite (stored_chain_functional _ _ _ Hchain _
               (stored_chain_kept _ _ _ _ Hkept Hchain0)).
    eapply Forall_impl; [exact (ref_chain _ Href head0 l0 Hhead0 Hchain0)|].
    intros hc. apply files_stored_kept. exact Hkept.
Qed.

Lemma commitRecord_files timeStamp message index parent username :
  get_prop (Some (AriGit.commitRecord timeStamp message index parent username))
    (js "files") = Ok (Some index).
Proof. reflexivity. Qed.

Lemma commitRecord_parent timeStamp message index parent username :
  get_prop (Some (AriGit.commitRecord timeStamp message index parent username))
    (js "parent") = Ok (Some parent).
Proof. reflexivity. Qed.

Lemma referenced_commit hs w now user message w' :
  healthy hs (w_fs w) ->
  CLI.commit now user message w = (Ok tt, w') ->
  objects_kept (w_fs w) (w_fs w') ->
  referenced (w_fs w) -> referenced (w_fs w').
Proof.
  intros Hh Hrun Hkept Href.
  pose proof (healthy_repository _ _ Hh) as R.
  destruct (healthy_index_read _ _ Hh) as (elems0 & Hi0 & Hwf0 & Hir & Hip).
  destruct (healthy_head_read _ _ Hh) as (head0 & l0 & Hhr & _ & Hchain0 & _).
  destruct (healthy_head _ _ Hh) as (head1 & l1 & Hhead1 & _ & Hchain1 & _).
  destruct (commit_in_repository w now (option_map utf8_decode user)
              (utf8_decode message) _ _ R Hir Hip) as (head & Hhead & Hrun').
  assert (head = head0) as -> by congruence.
  cbv zeta in Hrun'. unfold CLI.commit in Hrun. rewrite Hrun' in Hrun.
  set (record := AriGit.commitRecord _ _ _ _ _) in *.
  set (d := hashObject (JSON_stringify record)) in *.
  assert (w' = World (committed (w_fs w) record) (w_out w ++ [EvCommitted d]))
    as -> by congruence.
  cbn [w_fs] in *.
  pose proof (keys_distinct d) as (K1 & K2 & K3 & _).
  assert (wf_json record = true) as Hwf.
  { apply commitRecord_wf;
      [apply toISOString_units16|apply utf8_decode_units16|exact Hwf0|
      |apply username_units16].
    pose proof (wf_utf16_units _ (stored_chain_head_wf _ _ _ Hchain0)) as Hu.
    destruct head0; [reflexivity|exact Hu]. }
  assert (Forall (entry_stored (committed (w_fs w) record)) elems0) as Hentries.
  { eapply Forall_impl; [exact (ref_index _ Href elems0 Hi0 Hwf0)|].
    intros x. apply entry_stored_kept. exact Hkept. }
  split.
  - intros elems Hindex Hwf'. unfold committed in Hindex.
    rewrite lookup_insert_eq in Hindex.
    assert (JArr elems = JArr []) as E.
    { apply stored_json_inj; [exact Hwf'|reflexivity|].
      change (utf8_encode (JSON_stringify (JArr []))) with (bytes_of "[]").
      congruence. }
    injection E as ->. constructor.
  - intros head l Hhd Hchain.
    assert (head = d) as ->.
    { apply utf8_encode_inj;
        [apply (stored_chain_head_wf _ _ _ Hchain)
        |apply digest_wf, hashObject_is_digest|].
      unfold committed in Hhd. fold d in Hhd.
      rewrite lookup_insert_ne, lookup_insert_eq in Hhd by auto. congruence. }
    inversion Hchain as [|h0 cd parent rest Hd Hwfc Hobj Hparent Hrest]; subst.
    { exfalso. apply (digest_nonempty d); [apply hashObject_is_digest|].
      congruence. }
    assert (cd = record) as ->.
    { apply stored_json_inj; [exact Hwfc|exact Hwf|].
      unfold committed in Hobj. fold d in Hobj.
      rewrite !lookup_insert_ne, lookup_insert_eq in Hobj by auto. congruence. }
    constructor.
    + exists elems0. split; [apply commitRecord_files|exact Hentries].
    + assert (parent = head0) as ->.
      { apply or_null_inj. unfold record in Hparent.
        rewrite commitRecord_parent in Hparent. congruence. }
      assert (head1 = head0) as ->.
      { apply fs_read_inv in Hhr as (k & c & Hres & Hk & E).
        apply resolve_head_inv in Hres as [_ ->].
        rewrite Hhead1 in Hk. injection Hk as <-.
        rewrite utf8_decode_encode in E
          by apply (stored_chain_head_wf _ _ _ Hchain1).
        congruence. }
      rewrite (stored_chain_functional _ _ _ Hrest _
                 (stored_chain_kept _ _ _ _ Hkept Hchain1)).
      eapply Forall_impl; [exact (ref_chain _ Href head0 l1 Hhead1 Hchain1)|].
      intros hc. apply files_stored_kept. exact Hkept.
Qed.

Lemma history_referenced hs w : history hs w -> referenced (w_fs w).
Proof.
  induction 1 as [fs out Hfresh|hs w k content Hhist IH Hk|hs w out Hhist IH
                 |hs w file Hhist IH Hkept
                 |hs w now user message w' h Hhist IH Hrun Hlast Hkept].
  - unfold CLI.init. rewrite (init_fresh _ _ Hfresh). cbn [snd w_fs].
    apply referenced_init. exact Hfresh.
  - unfold user_edit. cbn [snd w_fs].
    apply (referenced_same_repository (w_fs w)); [|exact IH].
    intros j. apply lookup_insert_ne. intros E. apply Hk. rewrite E. reflexivity.
  - exact IH.
  - apply (referenced_add hs); [apply history_healthy; exact Hhist|exact Hkept
                               |exact IH].
  - apply (referenced_commit hs w now user message w');
      [apply history_healthy; exact Hhist|exact Hrun|exact Hkept|exact IH].
Qed.

Lemma entry_stored_readable fs out e :
  fs !! [js ".arigit"] = Some Dir ->
  fs !! [js ".arigit"; js "objects"] = Some Dir ->
  entry_stored fs e -> entry_readable (World fs out) e.
Proof.
  intros Hrepo Hobjs (p & d & c & -> & Hd & Hc). exists p, d, (utf8_decode c).
  split; [reflexivity|]. apply getFileContent_read.
  apply (fs_read_file _ _ (object_key d)); [|exact Hc].
  apply resolve_object_ok; assumption.
Qed.

(** X29.  Along a history nothing dangles: [getFileContent] returns on
    the hash of every entry of the index, and on the hash of every entry of
    the [files] of every commit met from HEAD along the parent pointers. *)
Theorem history_entries_readable hs w :
  history hs w ->
  (exists text elems,
     fs_read (w_fs w) AriGit.indexPath = Ok text
     /\ JSON_parse text = Some (JArr elems)
     /\ Forall (entry_readable w) elems)
  /\ exists head l,
       fs_read (w_fs w) AriGit.headPath = Ok head
       /\ chain (w_fs w) (Some (JStr head)) l
       /\ map fst l = hs
       /\ Forall (fun hc =>
                    exists elems,
                      get_prop (Some (snd hc)) (js "files") = Ok (Some (JArr elems))
                      /\ Forall (entry_readable w) elems) l.
Proof.
  intros Hhist. pose proof (history_healthy _ _ Hhist) as Hh.
  pose proof (history_referenced _ _ Hhist) as Href.
  pose proof (healthy_repository _ _ Hh) as R.
  destruct w as [fs out]. cbn [w_fs] in *.
  assert (forall e, entry_stored fs e -> entry_readable (World fs out) e) as Hread
    by (intros e; apply entry_stored_readable; apply R).
  split.
  - destruct (healthy_index_read _ _ Hh) as (elems & Hi & Hwf & Hir & Hip).
    exists (JSON_stringify (JArr elems)), elems.
    split; [exact Hir|]. split; [exact Hip|].
    eapply Forall_impl; [exact (ref_index _ Href elems Hi Hwf)|exact Hread].
  - destruct (healthy_head _ _ Hh) as (head & l & Hhead & Hd & Hchain & Hm).
    exists head, l. split; [|split; [|split; [exact Hm|]]].
    + rewrite (fs_read_file _ _ head_key _ (resolve_head_ok _ (repo_dir _ R)) Hhead).
      rewrite utf8_decode_encode by apply (stored_chain_head_wf _ _ _ Hchain).
      reflexivity.
    + apply stored_chain_chain; [apply R..|exact Hchain].
    + eapply Forall_impl; [exact (ref_chain _ Href head l Hhead Hchain)|].
      intros hc (elems & Hfiles & Hall). exists elems. split; [exact Hfiles|].
      eapply Forall_impl; [exact Hall|exact Hread].
Qed.

Lemma history_entries_readable_witness :
  let hs := [js "458537fec9f9764f53051e43e5219ac7ba3319a3";
             js "216a2bffaf73cd065101c41a013b6a877c84557d"] in
  history hs step6
  /\ exists head l,
       fs_read (w_fs step6) AriGit.headPath = Ok head
       /\ chain (w_fs step6) (Some (JStr head)) l
       /\ map fst l = hs
       /\ Forall (fun hc =>
                    exists elems,
                      get_prop (Some (snd hc)) (js "files") = Ok (Some (JArr elems))
                      /\ Forall (entry_readable step6) elems) l.
Proof.
  intros hs. split; [exact two_commits_history|].
  exact (proj2 (history_entries_readable hs step6 two_commits_history)).
Defined.

(** ** [showCommitDiff] on the commits of a history *)

Lemma stored_chain_suffix fs h l :
  stored_chain fs h l ->
  forall h', In h' (map fst l) ->
    exists before commitData rest,
      l = before ++ (h', commitData) :: rest
      /\ stored_chain fs h' ((h', commitData) :: rest).
Proof.
  induction 1 as [|h commitData parent rest Hd Hwf Hobj Hparent Hrest IH];
    intros h' Hin; [destruct Hin|].
  destruct Hin as [<-|Hin].
  - exists [], commitData, rest. split; [reflexivity|].
    apply (stored_link fs h commitData parent rest); assumption.
  - destruct (IH _ Hin) as (before & cd & rest' & -> & Hchain).
    exists ((h, commitData) :: before), cd, rest'. split; [reflexivity|exact Hchain].
Qed.

Lemma entries_listed fs elems :
  Forall (entry_stored fs) elems ->
  exists files : list (jsstring * jsstring * list byte),
    elems = map (fun '(p, d, _) => AriGit.entry p d) files
    /\ Forall (fun '(_, d, c) =>
                 is_digest d /\ fs !! object_key d = Some (File c)) files.
Proof.
  induction 1 as [|e elems (p & d & c & -> & Hd & Hc) _ (files & -> & Hall)].
  - exists []. split; [reflexivity|constructor].
  - exists ((p, d, c) :: files). split; [reflexivity|]. constructor; auto.
Qed.

Lemma find_file_entries (pfiles : list (jsstring * jsstring * list byte)) p :
  AriGit.find_file (map (fun '(q, d, _) => AriGit.entry q d) pfiles)
    (Some (JStr p)) = Ok None
  \/ exists q d c,
       In (q, d, c) pfiles
       /\ AriGit.find_file (map (fun '(q, d, _) => AriGit.entry q d) pfiles)
            (Some (JStr p)) = Ok (Some (AriGit.entry q d)).
Proof.
  induction pfiles as [|[[q d] c] pfiles IH]; [left; reflexivity|].
  cbn [map AriGit.find_file]. rewrite entry_path. cbn [strict_eq].
  destruct (jsstring_eqb q p).
  - right. exists q, d, c. split; [left; reflexivity|reflexivity].
  - destruct IH as [->|(q' & d' & c' & Hin & ->)]; [left; reflexivity|].
    right. exists q', d', c'. split; [right; exact Hin|reflexivity].
Qed.

Lemma shown_paths_app a b : shown_paths (a ++ b) = shown_paths a ++ shown_paths b.
Proof.
  induction a as [|e a IH]; [reflexivity|].
  destruct e; cbn [app shown_paths]; rewrite IH; reflexivity.
Qed.

Lemma shown_paths_render parts : shown_paths (map AriGit.render parts) = [].
Proof.
  induction parts as [|[[] text] parts IH]; cbn; auto.
Qed.

Lemma no_failure_render parts :
  existsb reports_failure (map AriGit.render parts) = false.
Proof.
  induction parts as [|[[] text] parts IH]; cbn; auto.
Qed.

(** What [show_file] does for an entry of a commit of a stored chain. *)
Lemma show_file_stored fs commitData parent rest p d c :
  fs !! [js ".arigit"] = Some Dir ->
  fs !! [js ".arigit"; js "objects"] = Some Dir ->
  get_prop (Some commitData) (js "parent")
  = Ok (Some (AriGit.or_null (Some parent))) ->
  stored_chain fs parent rest ->
  Forall (fun hc => files_stored fs (snd hc)) rest ->
  is_digest d -> fs !! object_key d = Some (File c) ->
  exists tail,
    (forall out,
       AriGit.show_file commitData (AriGit.entry p d) (World fs out)
       = (Ok tt,
          World fs (out ++ [EvFile (Some (JStr p)); EvContent (utf8_decode c)]
                        ++ tail)))
    /\ shown_paths tail = []
    /\ existsb reports_failure tail = false.
Proof.
  intros Hrepo Hobjs Hparent Hchain Hfiles Hd Hc.
  assert (forall d' c', is_digest d' -> fs !! object_key d' = Some (File c') ->
            fs_read fs (path_join AriGit.objectsPath d') = Ok (utf8_decode c'))
    as Hblob.
  { intros d' c' Hd' Hc'. apply (fs_read_file _ _ (object_key d')); [|exact Hc'].
    apply resolve_object_ok; assumption. }
  pose proof (Hblob d c Hd Hc) as Hread.
  destruct Hchain as [|h pcd grand rest Hh Hwf Hobj _ _].
  - exists [EvFirstCommit]. split; [|split; reflexivity]. intros out.
    rewrite (show_file_first_commit commitData (Some JNull) p d _ fs out Hparent
               eq_refl Hread).
    reflexivity.
  - apply Forall_cons in Hfiles as [(pelems & Hpfiles & Hpstored) _].
    cbn [snd] in Hpfiles.
    destruct (entries_listed _ _ Hpstored) as (pfiles & -> & Hpall).
    assert (AriGit.or_null (Some h) = JStr h) as Enull.
    { destruct h; [|reflexivity]. exfalso. apply (digest_nonempty [] Hh).
      reflexivity. }
    rewrite Enull in Hparent.
    assert (truthy (Some (JStr h)) = true) as Htruthy.
    { cbn. rewrite jsstring_eqb_neq by apply (digest_nonempty _ Hh). reflexivity. }
    pose proof (Hblob h _ Hh Hobj) as Hpread.
    rewrite utf8_decode_encode in Hpread by (apply wf_stringify; exact Hwf).
    pose proof (JSON_parse_stringify _ Hwf) as Hpparse.
    assert (forall out (k : option jsstring -> M unit),
              (let* parent := lift (get_prop (Some commitData) (js "parent")) in
               if truthy parent then
                 let* text := AriGit.getCommitData parent in
                 let* parentCommitData := parse text in
                 let* parentFileContent :=
                   AriGit.getParentFileContent parentCommitData (Some (JStr p)) in
                 k parentFileContent
               else print EvFirstCommit) (World fs out)
              = (let* parentFileContent :=
                   AriGit.getParentFileContent pcd (Some (JStr p)) in
                 k parentFileContent) (World fs out)) as Hstart.
    { intros out k. unfold bind at 1, lift at 1. rewrite Hparent, Htruthy.
      unfold bind at 1. rewrite (getCommitData_read _ _ _ _ Hpread).
      unfold bind at 1, parse. rewrite Hpparse. reflexivity. }
    destruct (find_file_entries pfiles p) as [Hnone|(q & d' & c' & Hin & Hsome)].
    + exists [EvNewFile]. split; [|split; reflexivity]. intros out.
      rewrite (show_file_run commitData p d _ fs out Hread), Hstart.
      unfold bind at 1, AriGit.getParentFileContent, bind at 1, lift at 1.
      rewrite Hpfiles. unfold bind at 1, lift at 1. rewrite Hnone.
      cbn [truthy]. unfold ret, print. cbn [w_fs w_out].
      rewrite <- app_assoc. reflexivity.
    + rewrite Forall_forall in Hpall.
      apply list_elem_of_In in Hin. destruct (Hpall _ Hin) as [Hd' Hc'].
      exists (EvDiffHeader
                :: map AriGit.render (diffLines (utf8_decode c') (utf8_decode c))).
      split; [|split].
      * intros out.
        rewrite (show_file_run commitData p d _ fs out Hread), Hstart.
        unfold bind at 1, AriGit.getParentFileContent, bind at 1, lift at 1.
        rewrite Hpfiles. unfold bind at 1, lift at 1. rewrite Hsome.
        change (truthy (Some (AriGit.entry q d'))) with true. cbv iota.
        rewrite entry_hash.
        unfold bind at 1, lift at 1. unfold bind at 1.
        rewrite (getFileContent_read _ _ _ _ (Hblob d' c' Hd' Hc')).
        unfold ret at 1. unfold bind at 1, print at 1. cbn [w_fs w_out].
        rewrite for_each_print. cbn [w_fs w_out].
        rewrite <- !app_assoc. reflexivity.
      * cbn [shown_paths]. apply shown_paths_render.
      * cbn [existsb reports_failure orb]. apply no_failure_render.
Qed.

Lemma show_files_stored fs commitData
    (files : list (jsstring * jsstring * list byte)) :
  Forall (fun '(p, d, c) =>
            exists tail,
              (forall out,
                 AriGit.show_file commitData (AriGit.entry p d) (World fs out)
                 = (Ok tt,
                    World fs (out ++ [EvFile (Some (JStr p));
                                      EvContent (utf8_decode c)] ++ tail)))
              /\ shown_paths tail = []
              /\ existsb reports_failure tail = false) files ->
  exists printed,
    (forall out,
       AriGit.for_each (AriGit.show_file commitData)
         (map (fun '(p, d, _) => AriGit.entry p d) files) (World fs out)
       = (Ok tt, World fs (out ++ printed)))
    /\ shown_paths printed = map (fun '(p, _, _) => Some (JStr p)) files
    /\ existsb reports_failure printed = false.
Proof.
  induction 1 as [|[[p d] c] files (tail & Hrun & Hpaths & Hfail) _
                    (printed & Hrest & Hpp & Hpf)].
  - exists []. split; [|split; reflexivity]. intros out.
    cbn [map AriGit.for_each]. unfold ret. rewrite app_nil_r. reflexivity.
  - exists (([EvFile (Some (JStr p)); EvContent (utf8_decode c)] ++ tail)
            ++ printed).
    split; [|split].
    + intros out. cbn [map AriGit.for_each]. unfold bind.
      rewrite Hrun, Hrest, <- app_assoc. reflexivity.
    + rewrite !shown_paths_app, Hpaths, Hpp. reflexivity.
    + rewrite !existsb_app, Hfail, Hpf. reflexivity.
Qed.

(** X30.  Along a history [showCommitDiff] goes through on every commit
    made: it reports no failure, and the paths it shows are the paths of
    the entries of the commit's [files], each once, in order. *)
Theorem show_commit_of_history hs w h :
  history hs w -> In h hs ->
  exists text commitData elems printed,
    fs_read (w_fs w) (path_join AriGit.objectsPath h) = Ok text
    /\ JSON_parse text = Some commitData
    /\ get_prop (Some commitData) (js "files") = Ok (Some (JArr elems))
    /\ AriGit.showCommitDiff h w
       = (Ok tt, World (w_fs w) (w_out w ++ EvChanges :: printed))
    /\ existsb reports_failure printed = false
    /\ shown_paths printed
       = map (fun file => prop_or_undefined file (js "path")) elems.
Proof.
  intros Hhist Hin. pose proof (history_healthy _ _ Hhist) as Hh.
  pose proof (history_referenced _ _ Hhist) as Href.
  pose proof (healthy_repository _ _ Hh) as R.
  destruct w as [fs out]. cbn [w_fs w_out] in *.
  destruct (healthy_head _ _ Hh) as (head & l & Hhead & _ & Hchain & <-).
  pose proof (ref_chain _ Href head l Hhead Hchain) as Hstored.
  destruct (stored_chain_suffix _ _ _ Hchain _ Hin)
    as (before & commitData & rest & -> & Hsuffix).
  apply Forall_app in Hstored as [_ Hstored].
  apply Forall_cons in Hstored as [(elems & Hfiles & Hentries) Hrest].
  cbn [snd] in Hfiles.
  inversion Hsuffix as [|h0 cd parent rest0 Hd Hwf Hobj Hparent Hprest]; subst.
  destruct (entries_listed _ _ Hentries) as (files & -> & Hall).
  assert (fs_read fs (path_join AriGit.objectsPath h)
          = Ok (JSON_stringify commitData)) as Hread.
  { rewrite (fs_read_file _ _ (object_key h) _
               (resolve_object_ok _ _ Hd (repo_dir _ R) (repo_objects _ R)) Hobj).
    rewrite utf8_decode_encode by (apply wf_stringify; exact Hwf). reflexivity. }
  pose proof (JSON_parse_stringify _ Hwf) as Hparse.
  destruct (show_files_stored fs commitData files) as (printed & Hrun & Hpp & Hpf).
  { eapply Forall_impl; [exact Hall|]. intros [[p d] c] [Hd' Hc'].
    apply (show_file_stored fs commitData parent rest p d c (repo_dir _ R)
             (repo_objects _ R) Hparent Hprest Hrest Hd' Hc'). }
  exists (JSON_stringify commitData), commitData,
    (map (fun '(p, d, _) => AriGit.entry p d) files), printed.
  split; [exact Hread|]. split; [exact Hparse|]. split; [exact Hfiles|].
  split; [|split; [exact Hpf|]].
  - rewrite (show_commit_files _ _ _ _ _ _ Hread Hparse Hfiles), Hrun.
    rewrite <- app_assoc. reflexivity.
  - rewrite Hpp, map_map. apply map_ext. intros [[p d] c]. reflexivity.
Qed.

Lemma show_commit_of_history_witness :
  let hs := [js "458537fec9f9764f53051e43e5219ac7ba3319a3";
             js "216a2bffaf73cd065101c41a013b6a877c84557d"] in
  let h := js "458537fec9f9764f53051e43e5219ac7ba3319a3" in
  history hs step6
  /\ In h hs
  /\ exists text commitData elems printed,
       fs_read (w_fs step6) (path_join AriGit.objectsPath h) = Ok text
       /\ JSON_parse text = Some commitData
       /\ get_prop (Some commitData) (js "files") = Ok (Some (JArr elems))
       /\ AriGit.showCommitDiff h step6
          = (Ok tt, World (w_fs step6) (w_out step6 ++ EvChanges :: printed))
       /\ existsb reports_failure printed = false
       /\ shown_paths printed
          = map (fun file => prop_or_undefined file (js "path")) elems.
Proof.
  intros hs h.
  assert (In h hs) as Hin by (left; reflexivity).
  split; [exact two_commits_history|]. split; [exact Hin|].
  exact (show_commit_of_history hs step6 h two_commits_history Hin).
Defined.
